(** * The calculator backend: expression evaluation and plot sampling

    A shallow embedding of [backend/calculator.py] and [backend/grapher.py].

    Python strings are modelled as Rocq [string]s whose characters are the
    code points U+0000..U+00FF (this covers ASCII and the two glyphs U+00D7
    and U+00F7 the calculator rewrites); Python ints are [Z]; Python floats
    are binary64 primitive floats; a dict used as a name table is a
    [gmap string _]. *)

From Stdlib Require Import ZArith Floats String Ascii List Bool Lia.
From stdpp Require Import gmap strings.

Local Open Scope string_scope.
Local Open Scope bool_scope.

(** ** Python's [str] operations used by the backend *)

Module PyStr.

Definition code (c : ascii) : N := N_of_ascii c.

(** [\d] of the [re] module on a [str] pattern: the decimal digits (the
    only characters of category Nd below U+0100). *)
Definition isdigit (c : ascii) : bool :=
  (48 <=? code c)%N && (code c <=? 57)%N.

(** [str.isspace] and [\s] on a [str] pattern, below U+0100. *)
Definition isspace (c : ascii) : bool :=
  let n := code c in
  ((9 <=? n)%N && (n <=? 13)%N) || ((28 <=? n)%N && (n <=? 32)%N)
  || (n =? 133)%N || (n =? 160)%N.

(** [str.lower] on one character, below U+0100. *)
Definition lower_char (c : ascii) : ascii :=
  let n := code c in
  if ((65 <=? n)%N && (n <=? 90)%N)
     || ((192 <=? n)%N && (n <=? 222)%N && negb (n =? 215)%N)
  then ascii_of_N (n + 32) else c.

Fixpoint lower (s : string) : string :=
  match s with
  | EmptyString => EmptyString
  | String c t => String (lower_char c) (lower t)
  end.

(** [s.startswith(p)] *)
Fixpoint startswith (s p : string) {struct p} : bool :=
  match p with
  | EmptyString => true
  | String b p' =>
      match s with
      | EmptyString => false
      | String a s' => Ascii.eqb a b && startswith s' p'
      end
  end.

(** [s.lstrip(chars)] and [s.rstrip(chars)], the set of characters given
    as a predicate. *)
Fixpoint lstrip_by (p : ascii -> bool) (s : string) : string :=
  match s with
  | EmptyString => EmptyString
  | String c t => if p c then lstrip_by p t else s
  end.

Fixpoint rstrip_by (p : ascii -> bool) (s : string) : string :=
  match s with
  | EmptyString => EmptyString
  | String c t =>
      match rstrip_by p t with
      | EmptyString => if p c then EmptyString else String c EmptyString
      | r => String c r
      end
  end.

(** [s.strip()] *)
Definition strip (s : string) : string :=
  rstrip_by isspace (lstrip_by isspace s).

(** [s[n:]] *)
Fixpoint slice_from (n : nat) (s : string) : string :=
  match n, s with
  | O, _ => s
  | S k, EmptyString => EmptyString
  | S k, String _ t => slice_from k t
  end.

(** [s.replace(c, by)] for a one-character [c]; also
    [re.sub] of a pattern that is one escaped literal character. *)
Fixpoint replace_char (c : ascii) (by_ : string) (s : string) : string :=
  match s with
  | EmptyString => EmptyString
  | String a t =>
      if Ascii.eqb a c then by_ ++ replace_char c by_ t
      else String a (replace_char c by_ t)
  end.

(** [re.sub(r'[...]', '', s)]: delete the characters of a class. *)
Fixpoint remove_chars (p : ascii -> bool) (s : string) : string :=
  match s with
  | EmptyString => EmptyString
  | String a t =>
      if p a then remove_chars p t else String a (remove_chars p t)
  end.

Fixpoint all_chars (p : ascii -> bool) (s : string) : bool :=
  match s with
  | EmptyString => true
  | String a t => p a && all_chars p t
  end.

(** *** [re.sub(r'(A)(B)', r'\1*\2', s)]

    [A] is a class of one character; [B] is either a class of one
    character or an alternation of literal words.  [second t] gives the
    number of characters the group [B] matches at the start of [t] (the
    first alternative that matches), if any.  The scan goes from left to
    right; after a match it resumes behind the matched text, which is what
    [skip] counts down. *)
Fixpoint sub_star (first : ascii -> bool) (second : string -> option nat)
    (skip : nat) (s : string) : string :=
  match s with
  | EmptyString => EmptyString
  | String a t =>
      match skip with
      | S k => String a (sub_star first second k t)
      | O =>
          if first a then
            match second t with
            | Some n => String a (String "*" (sub_star first second n t))
            | None => String a (sub_star first second 0 t)
            end
          else String a (sub_star first second 0 t)
      end
  end.

(** The group [(B)] for a class of one character. *)
Definition one_char (q : ascii -> bool) (t : string) : option nat :=
  match t with
  | String b _ => if q b then Some 1%nat else None
  | EmptyString => None
  end.

(** The group [(w1|w2|...)] for literal words, tried in order. *)
Fixpoint one_of_words (ws : list string) (t : string) : option nat :=
  match ws with
  | nil => None
  | w :: ws' =>
      if startswith t w then Some (String.length w)
      else one_of_words ws' t
  end.

Definition is_char (c : ascii) : ascii -> bool := Ascii.eqb c.

(** [s[:-1]] *)
Fixpoint without_last (s : string) : string :=
  match s with
  | EmptyString => EmptyString
  | String c EmptyString => EmptyString
  | String c t => String c (without_last t)
  end.

(** [s.endswith(c)] for a one-character [c] *)
Fixpoint endswith_char (s : string) (c : ascii) : bool :=
  match s with
  | EmptyString => false
  | String a EmptyString => Ascii.eqb a c
  | String _ t => endswith_char t c
  end.

End PyStr.

(** ** A model of Python's expression evaluation

    [eval(source, {"__builtins__": {}}, locals)] is a primitive of the
    language, not code of this repository.  [Py.eval] models it on the
    arithmetic fragment: decimal integer and float literals, names, the
    operators [+ - * / // **], unary [+ -], parentheses and calls.  On a
    source outside the fragment (keywords, attribute access, tuples, the
    remaining operators, float powers and the libm functions, ...) the model
    answers [Unmodelled] rather than guess, and so it does where CPython's
    resource limits come into play: on a source of more than
    [longest_source] characters (nesting and recursion limits, the digit
    limit on integer literals) and on an integer power of more than 65536
    bits (memory). *)

Module Py.
Import PyStr.

Inductive builtin := Babs | Bround | Bmin | Bmax | Bsqrt | Bsin | Bcos | Btan.

Inductive value :=
| VInt (n : Z)
| VFloat (f : float)
| VBuiltin (b : builtin).

(** The exceptions the backend raises or meets.  The backend's own errors
    are all [ValueError]s told apart by their message. *)
Inductive exception :=
| SyntaxError
| NameError
| TypeError
| ZeroDivisionError
| OverflowError
| ValueError (msg : value_error)
with value_error :=
| MathDomainError                   (* "math domain error" *)
| CannotConvertNaN                  (* "cannot convert float NaN to integer" *)
| EmptyExpression                   (* "Empty expression" *)
| InvalidCharacters (invalid : string)
                                    (* "Invalid characters in expression: ..." *)
| ExtraClosingParenthesis           (* "Unbalanced parentheses: extra closing parenthesis" *)
| MissingClosingParenthesis         (* "Unbalanced parentheses: missing closing parenthesis" *)
| NotANumber                        (* "Expression did not evaluate to a number" *)
| UndefinedResult                   (* "Result is undefined (infinity or NaN)" *)
| CannotDivideByZero                (* "Cannot divide by zero" *)
| InvalidExpressionSyntax           (* "Invalid expression syntax" *)
| CouldNotEvaluateExpression (cause : exception)
                                    (* "Could not evaluate expression: ..." *)
| CouldNotEvaluateFunction (func_string : string).
                                    (* "Could not evaluate function: ..." *)

(** What running a piece of Python gives: a value, an exception, or
    behaviour this model does not cover. *)
Inductive outcome (A : Type) :=
| Returns (a : A)
| Raises (e : exception)
| Unmodelled.
Arguments Returns {A} a.
Arguments Raises {A} e.
Arguments Unmodelled {A}.

#[global] Instance outcome_ret : MRet outcome := @Returns.
#[global] Instance outcome_bind : MBind outcome := fun A B f m =>
  match m with
  | Returns a => f a
  | Raises e => Raises e
  | Unmodelled => Unmodelled
  end.

(** *** Numbers *)

(** An int as an exact (not normalised) binary float with exponent 0. *)
Definition SF_of_Z (n : Z) : spec_float :=
  match n with
  | Z0 => S754_zero false
  | Zpos p => S754_finite false p 0
  | Zneg p => S754_finite true p 0
  end.

(** The double nearest to an int (ties to even), infinite on overflow. *)
Definition nearest_float (n : Z) : float :=
  SF2Prim (binary_normalize prec emax n 0 false).

(** [float(n)], as in every implicit int-to-float conversion. *)
Definition float_of_int (n : Z) : outcome float :=
  let f := nearest_float n in
  if is_infinity f then Raises OverflowError else Returns f.

(** [a / b] on ints: the correctly rounded quotient. *)
Definition int_truediv (a b : Z) : outcome float :=
  if (b =? 0)%Z then Raises ZeroDivisionError
  else
    let f := SF2Prim (SFdiv prec emax (SF_of_Z a) (SF_of_Z b)) in
    if is_infinity f then Raises OverflowError else Returns f.

(** The value of the float literal with digits [m] and decimal exponent
    [k], that is [m * 10^k] correctly rounded (infinite on overflow). *)
Definition float_of_decimal (m k : Z) : float :=
  if (0 <=? k)%Z then nearest_float (m * 10 ^ k)
  else SF2Prim (SFdiv prec emax (SF_of_Z m) (SF_of_Z (10 ^ (- k)))).

(** [float(v)] for an argument that must be a real number. *)
Definition to_float (v : value) : outcome float :=
  match v with
  | VInt n => float_of_int n
  | VFloat f => Returns f
  | VBuiltin _ => Raises TypeError
  end.

Inductive unaryop := UAdd | USub.
Inductive binop := Add | Sub | Mult | Div | FloorDiv | Pow.

Definition unary_op (op : unaryop) (v : value) : outcome value :=
  match v, op with
  | VInt n, UAdd => Returns (VInt n)
  | VInt n, USub => Returns (VInt (- n))
  | VFloat f, UAdd => Returns (VFloat f)
  | VFloat f, USub => Returns (VFloat (- f))
  | VBuiltin _, _ => Raises TypeError
  end.

Definition int_op (op : binop) (a b : Z) : outcome value :=
  match op with
  | Add => Returns (VInt (a + b))
  | Sub => Returns (VInt (a - b))
  | Mult => Returns (VInt (a * b))
  | Div => f ← int_truediv a b; Returns (VFloat f)
  | FloorDiv =>
      if (b =? 0)%Z then Raises ZeroDivisionError else Returns (VInt (a / b))
  | Pow =>
      if (0 <=? b)%Z then
        (* a power of more than 65536 bits is left to the memory and the
           patience of the machine *)
        if ((Z.log2 (Z.abs a) + 1) * b <=? 65536)%Z
        then Returns (VInt (a ^ b)) else Unmodelled
      else if (a =? 0)%Z then Raises ZeroDivisionError
      else Unmodelled
  end.

Definition float_op (op : binop) (a b : float) : outcome value :=
  match op with
  | Add => Returns (VFloat (a + b))
  | Sub => Returns (VFloat (a - b))
  | Mult => Returns (VFloat (a * b))
  | Div =>
      if is_zero b then Raises ZeroDivisionError else Returns (VFloat (a / b))
  | FloorDiv => if is_zero b then Raises ZeroDivisionError else Unmodelled
  | Pow => Unmodelled
  end.

(** A binary operator: exact on two ints; as soon as a float is involved
    both operands are converted to float first. *)
Definition binary_op (op : binop) (v1 v2 : value) : outcome value :=
  match v1, v2 with
  | VInt a, VInt b => int_op op a b
  | VBuiltin _, _ | _, VBuiltin _ => Raises TypeError
  | _, _ =>
      a ← to_float v1; b ← to_float v2; float_op op a b
  end.

(** [v1 < v2] on numbers; mixed comparisons are exact. *)
Definition SF_lt_Z (x : spec_float) (n : Z) : bool :=
  match x with
  | S754_nan => false
  | S754_infinity s => s
  | S754_zero _ => (0 <? n)%Z
  | S754_finite s m e =>
      let sm := if s then Zneg m else Zpos m in
      if (0 <=? e)%Z then (sm * 2 ^ e <? n)%Z else (sm <? n * 2 ^ (- e))%Z
  end.

Definition Z_lt_SF (n : Z) (x : spec_float) : bool :=
  match x with
  | S754_nan => false
  | S754_infinity s => negb s
  | S754_zero _ => (n <? 0)%Z
  | S754_finite s m e =>
      let sm := if s then Zneg m else Zpos m in
      if (0 <=? e)%Z then (n <? sm * 2 ^ e)%Z else (n * 2 ^ (- e) <? sm)%Z
  end.

Definition less (v1 v2 : value) : outcome bool :=
  match v1, v2 with
  | VInt a, VInt b => Returns (a <? b)%Z
  | VFloat a, VFloat b => Returns (a <? b)%float
  | VInt a, VFloat b => Returns (Z_lt_SF a (Prim2SF b))
  | VFloat a, VInt b => Returns (SF_lt_Z (Prim2SF a) b)
  | _, _ => Raises TypeError
  end.

(** [min(v, *vs)] ([smaller := true]) and [max(v, *vs)]: keep the first of
    the extremal items. *)
Fixpoint extremum (smaller : bool) (best : value) (vs : list value)
    : outcome value :=
  match vs with
  | nil => Returns best
  | v :: vs' =>
      better ← (if smaller then less v best else less best v);
      extremum smaller (if better : bool then v else best) vs'
  end.

(** [round(f)] of a float without [ndigits]: the nearest int, ties to
    even. *)
Definition round_half_even (m : positive) (e : Z) : Z :=
  if (0 <=? e)%Z then Zpos m * 2 ^ e
  else
    let d := (2 ^ (- e))%Z in
    let q := (Zpos m / d)%Z in
    let r := (Zpos m mod d)%Z in
    match (2 * r ?= d)%Z with
    | Lt => q
    | Gt => (q + 1)%Z
    | Eq => if Z.even q then q else (q + 1)%Z
    end.

Definition round_float (f : float) : outcome value :=
  match Prim2SF f with
  | S754_nan => Raises (ValueError CannotConvertNaN)
  | S754_infinity _ => Raises OverflowError
  | S754_zero _ => Returns (VInt 0)
  | S754_finite s m e =>
      let n := round_half_even m e in
      Returns (VInt (if s then - n else n))
  end.

(** Calling one of the functions the two contexts bind. *)
Definition call_builtin (b : builtin) (args : list value) : outcome value :=
  match b, args with
  | Babs, VInt n :: nil => Returns (VInt (Z.abs n))
  | Babs, VFloat f :: nil => Returns (VFloat (abs f))
  | Babs, _ => Raises TypeError
  | Bsqrt, v :: nil =>
      x ← to_float v;
      let r := sqrt x in
      if is_nan r && negb (is_nan x) then Raises (ValueError MathDomainError)
      else Returns (VFloat r)
  | Bsqrt, _ => Raises TypeError
  | (Bmin | Bmax), (nil | _ :: nil) => Raises TypeError
  | Bmin, v :: vs => extremum true v vs
  | Bmax, v :: vs => extremum false v vs
  | Bround, VInt n :: nil => Returns (VInt n)
  | Bround, VFloat f :: nil => round_float f
  | Bround, (nil | VBuiltin _ :: nil | _ :: _ :: _ :: _) => Raises TypeError
  | Bround, _ :: _ :: nil => Unmodelled
  | (Bsin | Bcos | Btan), v :: nil => x ← to_float v; Unmodelled
  | (Bsin | Bcos | Btan), _ => Raises TypeError
  end.

Definition call (f : value) (args : list value) : outcome value :=
  match f with
  | VBuiltin b => call_builtin b args
  | _ => Raises TypeError
  end.

(** *** Tokens *)

Inductive token :=
| TNumber (v : value)
| TName (id : string)
| TPlus | TMinus | TStar | TSlash | TDoubleStar | TDoubleSlash
| TLPar | TRPar | TComma.

Definition is_alpha (c : ascii) : bool :=
  let n := code c in
  ((65 <=? n)%N && (n <=? 90)%N) || ((97 <=? n)%N && (n <=? 122)%N)
  || (n =? 95)%N.

Definition is_ident_char (c : ascii) : bool := is_alpha c || isdigit c.

Definition non_ascii (c : ascii) : bool := (128 <=? code c)%N.

(** The longest prefix of characters of a class, and what follows it. *)
Fixpoint span (p : ascii -> bool) (s : string) : string * string :=
  match s with
  | EmptyString => (EmptyString, EmptyString)
  | String c t =>
      if p c then let (a, b) := span p t in (String c a, b)
      else (EmptyString, s)
  end.

Fixpoint digits_value (acc : Z) (s : string) : Z :=
  match s with
  | EmptyString => acc
  | String c t => digits_value (10 * acc + (Z.of_N (code c) - 48)) t
  end.

Definition head_is (p : ascii -> bool) (s : string) : bool :=
  match s with
  | String c _ => p c
  | EmptyString => false
  end.

(** The exponent part of a float literal at the start of [s], if there is
    one: its value and what follows it. *)
Definition scan_exponent (s : string) : option (Z * string) :=
  match s with
  | String c t =>
      if Ascii.eqb c "e" || Ascii.eqb c "E" then
        let '(neg, t') :=
          match t with
          | String "+" u => (false, u)
          | String "-" u => (true, u)
          | _ => (false, t)
          end in
        let (ds, r) := span isdigit t' in
        match ds with
        | EmptyString => None
        | _ => Some (if neg : bool then (- digits_value 0 ds)%Z
                     else digits_value 0 ds, r)
        end
      else None
  | EmptyString => None
  end.

(** A number literal at the start of [s] (which starts with a digit, or
    with a point and a digit).  [Unmodelled] where the text is not a plain
    decimal literal followed by something that cannot continue it; a
    decimal integer with a leading zero that is not zero is a
    [SyntaxError] ("leading zeros in decimal integer literals are not
    permitted"). *)
Definition scan_number (s : string) : outcome (value * string) :=
  let (ip, r1) := span isdigit s in
  let '(point, fp, r2) :=
    match r1 with
    | String "." t => let (fp, r) := span isdigit t in (true, fp, r)
    | _ => (false, EmptyString, r1)
    end in
  let '(ex, r3) :=
    match scan_exponent r2 with
    | Some (k, r) => (Some k, r)
    | None => (None, r2)
    end in
  if head_is (fun c => is_alpha c || non_ascii c) r3 then Unmodelled
  else
    match point, ex with
    | false, None =>
        if head_is (is_char "0") ip && negb (PyStr.all_chars (is_char "0") ip)
        then Raises SyntaxError
        else Returns (VInt (digits_value 0 ip), r3)
    | _, _ =>
        let k := match ex with Some k => k | None => 0%Z end in
        Returns (VFloat (float_of_decimal (digits_value 0 (ip ++ fp))
                           (k - Z.of_nat (String.length fp))), r3)
    end.

Definition keywords : list string :=
  "False" :: "None" :: "True" :: "and" :: "as" :: "assert" :: "async"
  :: "await" :: "break" :: "class" :: "continue" :: "def" :: "del"
  :: "elif" :: "else" :: "except" :: "finally" :: "for" :: "from"
  :: "global" :: "if" :: "import" :: "in" :: "is" :: "lambda"
  :: "nonlocal" :: "not" :: "or" :: "pass" :: "raise" :: "return"
  :: "try" :: "while" :: "with" :: "yield" :: nil.

(** An identifier at the start of [s]; [None] for a keyword, a dunder
    name or an identifier that goes on with a non-ASCII character. *)
Definition scan_name (s : string) : option (string * string) :=
  let (id, r) := span is_ident_char s in
  if head_is non_ascii r || startswith id "__"
     || existsb (String.eqb id) keywords
  then None else Some (id, r).

(** The tokens of [s]; [Unmodelled] at a character or a word outside the
    fragment. *)
Fixpoint tokenize (fuel : nat) (s : string) : outcome (list token) :=
  match fuel with
  | O => Unmodelled
  | S fuel' =>
      match s with
      | EmptyString => Returns nil
      | String c t =>
          let emit (tok : token) (r : string) :=
            ts ← tokenize fuel' r; Returns (tok :: ts) in
          if Ascii.eqb c " " || Ascii.eqb c "009" then tokenize fuel' t
          else if isdigit c || (Ascii.eqb c "." && head_is isdigit t) then
            '(v, r) ← scan_number s; emit (TNumber v) r
          else if is_alpha c then
            match scan_name s with
            | Some (id, r) => emit (TName id) r
            | None => Unmodelled
            end
          else if Ascii.eqb c "+" then emit TPlus t
          else if Ascii.eqb c "-" then emit TMinus t
          else if Ascii.eqb c "(" then emit TLPar t
          else if Ascii.eqb c ")" then emit TRPar t
          else if Ascii.eqb c "," then emit TComma t
          else if Ascii.eqb c "*" then
            match t with
            | String "*" t' => emit TDoubleStar t'
            | _ => emit TStar t
            end
          else if Ascii.eqb c "/" then
            match t with
            | String "/" t' => emit TDoubleSlash t'
            | _ => emit TSlash t
            end
          else Unmodelled
      end
  end.

(** *** Syntax trees and the parser

    The trees are those of Python's [ast] module, the grammar is the one
    of the language reference restricted to the tokens above:
<<
    sum     := term (('+'|'-') term)*
    term    := factor (('*'|'/'|'//') factor)*
    factor  := ('+'|'-') factor | power
    power   := primary ['**' factor]
    primary := atom ('(' [sum (',' sum)*] ')')*
    atom    := NUMBER | NAME | '(' sum ')'
>> *)

#[warnings="-register-all"]
Inductive expr :=
| Constant (v : value)
| Name (id : string)
| UnaryOp (op : unaryop) (operand : expr)
| BinOp (left : expr) (op : binop) (right : expr)
| Call (func : expr) (args : list expr).

Definition parsed (A : Type) := option (A * list token).

Fixpoint parse_sum (fuel : nat) (ts : list token) : parsed expr :=
  match fuel with
  | O => None
  | S f =>
      match parse_term f ts with
      | Some (l, r) => parse_sum_rest f l r
      | None => None
      end
  end
with parse_sum_rest (fuel : nat) (l : expr) (ts : list token) : parsed expr :=
  match fuel with
  | O => None
  | S f =>
      match ts with
      | TPlus :: r =>
          match parse_term f r with
          | Some (e, r') => parse_sum_rest f (BinOp l Add e) r'
          | None => None
          end
      | TMinus :: r =>
          match parse_term f r with
          | Some (e, r') => parse_sum_rest f (BinOp l Sub e) r'
          | None => None
          end
      | _ => Some (l, ts)
      end
  end
with parse_term (fuel : nat) (ts : list token) : parsed expr :=
  match fuel with
  | O => None
  | S f =>
      match parse_factor f ts with
      | Some (l, r) => parse_term_rest f l r
      | None => None
      end
  end
with parse_term_rest (fuel : nat) (l : expr) (ts : list token) : parsed expr :=
  match fuel with
  | O => None
  | S f =>
      match ts with
      | TStar :: r =>
          match parse_factor f r with
          | Some (e, r') => parse_term_rest f (BinOp l Mult e) r'
          | None => None
          end
      | TSlash :: r =>
          match parse_factor f r with
          | Some (e, r') => parse_term_rest f (BinOp l Div e) r'
          | None => None
          end
      | TDoubleSlash :: r =>
          match parse_factor f r with
          | Some (e, r') => parse_term_rest f (BinOp l FloorDiv e) r'
          | None => None
          end
      | _ => Some (l, ts)
      end
  end
with parse_factor (fuel : nat) (ts : list token) : parsed expr :=
  match fuel with
  | O => None
  | S f =>
      match ts with
      | TPlus :: r =>
          match parse_factor f r with
          | Some (e, r') => Some (UnaryOp UAdd e, r')
          | None => None
          end
      | TMinus :: r =>
          match parse_factor f r with
          | Some (e, r') => Some (UnaryOp USub e, r')
          | None => None
          end
      | _ => parse_power f ts
      end
  end
with parse_power (fuel : nat) (ts : list token) : parsed expr :=
  match fuel with
  | O => None
  | S f =>
      match parse_primary f ts with
      | Some (b, TDoubleStar :: r) =>
          match parse_factor f r with
          | Some (e, r') => Some (BinOp b Pow e, r')
          | None => None
          end
      | other => other
      end
  end
with parse_primary (fuel : nat) (ts : list token) : parsed expr :=
  match fuel with
  | O => None
  | S f =>
      match parse_atom f ts with
      | Some (a, r) => parse_trailers f a r
      | None => None
      end
  end
with parse_trailers (fuel : nat) (a : expr) (ts : list token) : parsed expr :=
  match fuel with
  | O => None
  | S f =>
      match ts with
      | TLPar :: TRPar :: r => parse_trailers f (Call a nil) r
      | TLPar :: r =>
          match parse_args f r with
          | Some (args, r') => parse_trailers f (Call a args) r'
          | None => None
          end
      | _ => Some (a, ts)
      end
  end
with parse_args (fuel : nat) (ts : list token) : parsed (list expr) :=
  match fuel with
  | O => None
  | S f =>
      match parse_sum f ts with
      | Some (e, TComma :: r) =>
          match parse_args f r with
          | Some (es, r') => Some (e :: es, r')
          | None => None
          end
      | Some (e, TRPar :: r) => Some (e :: nil, r)
      | _ => None
      end
  end
with parse_atom (fuel : nat) (ts : list token) : parsed expr :=
  match fuel with
  | O => None
  | S f =>
      match ts with
      | TNumber v :: r => Some (Constant v, r)
      | TName id :: r => Some (Name id, r)
      | TLPar :: r =>
          match parse_sum f r with
          | Some (e, TRPar :: r') => Some (e, r')
          | _ => None
          end
      | _ => None
      end
  end.

(** The whole token list is one expression.  Every nesting level costs at
    most eight units of fuel and every token at most one more. *)
Definition parse (ts : list token) : option expr :=
  match parse_sum (9 * S (length ts)) ts with
  | Some (e, nil) => Some e
  | _ => None
  end.

(** The parentheses of a token list are balanced. *)
Fixpoint balanced (depth : nat) (ts : list token) : bool :=
  match ts with
  | nil => Nat.eqb depth 0
  | TLPar :: r => balanced (S depth) r
  | TRPar :: r =>
      match depth with
      | O => false
      | S d => balanced d r
      end
  | _ :: r => balanced depth r
  end.

(** *** Evaluation of a tree: operands from left to right, then the
    operator; the callee, then the arguments, then the call. *)

Fixpoint eval_expr (locals : gmap string value) (e : expr) : outcome value :=
  match e with
  | Constant v => Returns v
  | Name id =>
      (* [__debug__] is a constant of the compiler and [__builtins__] is
         bound in the globals the two classes pass *)
      if String.eqb id "__debug__" then Unmodelled
      else
        match locals !! id with
        | Some v => Returns v
        | None =>
            if String.eqb id "__builtins__" then Unmodelled
            else Raises NameError
        end
  | UnaryOp op operand => v ← eval_expr locals operand; unary_op op v
  | BinOp l op r =>
      a ← eval_expr locals l; b ← eval_expr locals r; binary_op op a b
  | Call func args =>
      f ← eval_expr locals func;
      vs ← (fix eval_args (es : list expr) : outcome (list value) :=
              match es with
              | nil => Returns nil
              | a :: es' =>
                  v ← eval_expr locals a;
                  vs ← eval_args es';
                  Returns (v :: vs)
              end) args;
      call f vs
  end.

(** The longest source the model answers for.  What CPython does with a
    longer one depends on its limits (200 open parentheses in the
    tokenizer, the stack of the parser, the recursion limit at the place
    of the call during compilation), which differ between versions and
    calls; a source of this length is within all of them for a call from
    a stack of usual depth. *)
Definition longest_source : nat := 150.

(** [eval(source, {"__builtins__": {}}, locals)] *)
Definition eval (source : string) (locals : gmap string value)
    : outcome value :=
  if (longest_source <? String.length source)%nat then Unmodelled
  else
    match tokenize (S (String.length source)) source with
    | Unmodelled => Unmodelled
    | Raises exn => Raises exn
    | Returns ts =>
        if negb (balanced 0 ts) then Raises SyntaxError
        else
          match ts with
          | nil => Raises SyntaxError
          | _ =>
              match parse ts with
              | Some e => eval_expr locals e
              | None => Unmodelled
              end
          end
    end.

End Py.

(** ** Methods

    A method call returns a value or raises, and in both cases leaves the
    object in some state; the state is threaded explicitly. *)

Inductive result (S A : Type) :=
| Returned (a : A) (self' : S)
| Raised (e : Py.exception) (self' : S)
| NotModelled.
Arguments Returned {S A} a self'.
Arguments Raised {S A} e self'.
Arguments NotModelled {S A}.

(** The type of an interpreter that writes nothing, that is of
    [fun source locals => eval(source, {"__builtins__": {}}, locals)] on
    sources whose evaluation has no effect: it answers from the source and
    the names alone.  The calculator calls the interpreter on texts of its
    allowed characters only, and these have no effect: they hold no quote,
    bracket, underscore or colon, and of the words of the language only
    [or], [and], [not], [in] and [is].  The grapher passes any text: the
    module [Grapher] below describes its calls on texts that write nothing,
    the module [Frames] its calls on any text.  What holds whatever the
    interpreter answers is proved for every [evaluator]; what depends on the
    answer is proved for [Py.eval]. *)
Definition evaluator := string -> gmap string Py.value -> Py.outcome Py.value.

(** ** [backend/calculator.py] *)

Module Calculator.
Import PyStr Py.

Record Calculator := {
  last_result : value;
  math_context : gmap string value
}.

Definition pi : float := 0x1.921fb54442d18p+1.
Definition e : float := 0x1.5bf0a8b145769p+1.

Definition __init__ : Calculator := {|
  last_result := VInt 0;
  math_context :=
    list_to_map (("abs", VBuiltin Babs) :: ("round", VBuiltin Bround)
                 :: ("min", VBuiltin Bmin) :: ("max", VBuiltin Bmax)
                 :: ("sqrt", VBuiltin Bsqrt) :: ("pi", VFloat pi)
                 :: ("e", VFloat e) :: nil)
|}.

Definition times_sign : ascii := ascii_of_N 215.
Definition division_sign : ascii := ascii_of_N 247.

Definition _prepare_expression (expression : string) : string :=
  let expr := strip expression in
  let expr := replace_char "^" "**" expr in
  let expr := replace_char division_sign "/" (replace_char times_sign "*" expr) in
  let expr := sub_star isdigit (one_char (is_char "(")) 0 expr in
  let expr := sub_star (is_char ")") (one_char isdigit) 0 expr in
  let expr := sub_star (is_char ")") (one_char (is_char "(")) 0 expr in
  expr.

Fixpoint char_in (c : ascii) (s : string) : bool :=
  match s with
  | EmptyString => false
  | String a t => Ascii.eqb c a || char_in c t
  end.

(** The class [[\d\+\-\*\/\^\(\)\.\s\,piePIesqrtabsroundminmax]]. *)
Definition allowed (c : ascii) : bool :=
  isdigit c || char_in c "+-*/^()." || isspace c
  || char_in c ",piePIesqrtabsroundminmax".

(** The loop over the characters that counts the parentheses. *)
Fixpoint count_parens (paren_count : Z) (s : string) : outcome Z :=
  match s with
  | EmptyString => Returns paren_count
  | String char t =>
      let paren_count :=
        if Ascii.eqb char "(" then (paren_count + 1)%Z
        else if Ascii.eqb char ")" then (paren_count - 1)%Z
        else paren_count in
      if (paren_count <? 0)%Z then Raises (ValueError ExtraClosingParenthesis)
      else count_parens paren_count t
  end.

Definition _validate_expression (expression : string) : outcome bool :=
  if negb (negb (String.eqb expression "") && PyStr.all_chars allowed expression)
  then Raises (ValueError (InvalidCharacters (remove_chars allowed expression)))
  else
    paren_count ← count_parens 0 expression;
    if negb (paren_count =? 0)%Z
    then Raises (ValueError MissingClosingParenthesis)
    else Returns true.

Section WithEval.
Variable eval : evaluator.

(** The [except] clauses of [evaluate_expression]. *)
Definition handle (self : Calculator) (exn : exception)
    : result Calculator float :=
  match exn with
  | ZeroDivisionError => Raised (ValueError CannotDivideByZero) self
  | SyntaxError => Raised (ValueError InvalidExpressionSyntax) self
  | other => Raised (ValueError (CouldNotEvaluateExpression other)) self
  end.

Definition evaluate_expression (self : Calculator) (expression : string)
    : result Calculator float :=
  if String.eqb expression "" || String.eqb (strip expression) ""
  then Raised (ValueError EmptyExpression) self
  else
    let prepared := _prepare_expression expression in
    match _validate_expression expression with
    | Raises err => Raised err self
    | Unmodelled => NotModelled
    | Returns _ =>
        match eval prepared (math_context self) with
        | Unmodelled => NotModelled
        | Raises exn => handle self exn
        | Returns (VBuiltin _) => handle self (ValueError NotANumber)
        | Returns result =>
            (* [math.isnan(result)] converts an int to a float *)
            match to_float result with
            | Unmodelled => NotModelled
            | Raises exn => handle self exn
            | Returns f =>
                if is_nan f || is_infinity f
                then handle self (ValueError UndefinedResult)
                else
                  (* [self.last_result = float(result)], then
                     [return self.last_result] *)
                  Returned f {| last_result := VFloat f;
                                math_context := math_context self |}
            end
        end
    end.
End WithEval.

(** *** The four operations *)

(** [b == 0] *)
Definition equals_zero (b : value) : bool :=
  match b with
  | VInt n => (n =? 0)%Z
  | VFloat f => is_zero f
  | VBuiltin _ => false
  end.

(** [result = ...; self.last_result = result; return result], the
    computation of [result] given as its outcome. *)
Definition store (self : Calculator) (computed : outcome value)
    : result Calculator value :=
  match computed with
  | Returns result =>
      Returned result {| last_result := result;
                         math_context := math_context self |}
  | Raises exn => Raised exn self
  | Unmodelled => NotModelled
  end.

Definition add (self : Calculator) (a b : value) : result Calculator value :=
  store self (binary_op Add a b).

Definition subtract (self : Calculator) (a b : value)
    : result Calculator value :=
  store self (binary_op Sub a b).

Definition multiply (self : Calculator) (a b : value)
    : result Calculator value :=
  store self (binary_op Mult a b).

Definition divide (self : Calculator) (a b : value)
    : result Calculator value :=
  if equals_zero b then Raised (ValueError CannotDivideByZero) self
  else store self (binary_op Div a b).

Definition clear (self : Calculator) : Calculator :=
  {| last_result := VInt 0; math_context := math_context self |}.

(** What [calculate] does: it calls one of the four methods, or raises
    [ValueError("Invalid operator: ...")]. *)
Inductive calculation :=
| Calculated (r : result Calculator value)
| InvalidOperator (operator : string) (self' : Calculator).

Definition calculate (self : Calculator) (a : value) (operator : string)
    (b : value) : calculation :=
  if String.eqb operator "+" then Calculated (add self a b)
  else if String.eqb operator "-" then Calculated (subtract self a b)
  else if String.eqb operator "*" then Calculated (multiply self a b)
  else if String.eqb operator "/" then Calculated (divide self a b)
  else InvalidOperator operator self.

End Calculator.

(** ** [backend/grapher.py]

    The methods with an interpreter that writes nothing. *)

Module Grapher.
Import PyStr Py.

Record Grapher := { math_context : gmap string value }.

Definition __init__ : Grapher := {|
  math_context :=
    list_to_map (("sin", VBuiltin Bsin) :: ("cos", VBuiltin Bcos)
                 :: ("tan", VBuiltin Btan) :: ("sqrt", VBuiltin Bsqrt)
                 :: ("abs", VBuiltin Babs) :: ("pi", VFloat Calculator.pi)
                 :: ("e", VFloat Calculator.e) :: nil)
|}.

Definition parse_function (func_string : string) : string :=
  let expression := strip func_string in
  let expression :=
    if startswith (lower expression) "f(x)"
    then strip (lstrip_by (is_char "=") (slice_from 4 expression))
    else expression in
  let expression := replace_char "^" "**" expression in
  let expression := sub_star isdigit (one_char (is_char "x")) 0 expression in
  let expression :=
    sub_star isdigit
      (one_of_words ("sin" :: "cos" :: "tan" :: "sqrt" :: nil)) 0 expression in
  let expression :=
    sub_star (is_char "x") (one_char (is_char "(")) 0 expression in
  let expression :=
    sub_star (is_char ")")
      (one_char (fun c => is_char "x" c || is_char "(" c)) 0 expression in
  let expression :=
    sub_star (is_char ")") (one_char isdigit) 0 expression in
  expression.

(** [except (ValueError, ZeroDivisionError, OverflowError, SyntaxError,
    NameError)] *)
Definition caught (exn : exception) : bool :=
  match exn with
  | ValueError _ | ZeroDivisionError | OverflowError | SyntaxError
  | NameError => true
  | TypeError => false
  end.

(** [range(n)] *)
Definition range (n : Z) : list Z := map Z.of_nat (seq 0 (Z.to_nat n)).

Section WithEval.
Variable eval : evaluator.

Definition handle (self : Grapher) (exn : exception)
    : result Grapher (option float) :=
  if caught exn then Returned None self else Raised exn self.

Definition evaluate (self : Grapher) (expression : string)
    (x_value : value) : result Grapher (option float) :=
  let context := <["x" := x_value]> (math_context self) in
  match eval expression context with
  | Unmodelled => NotModelled
  | Raises exn => handle self exn
  | Returns (VBuiltin _) => Returned None self
  | Returns result =>
      (* [math.isnan(result)] converts an int to a float *)
      match to_float result with
      | Unmodelled => NotModelled
      | Raises exn => handle self exn
      | Returns f =>
          if negb (is_nan f) && negb (is_infinity f)
          then Returned (Some f) self
          else Returned None self
      end
  end.

(** The body of the [for] loop of [generate_plot_data], over the
    indices still to come. *)
Fixpoint sample (self : Grapher) (expression : string)
    (x_min step : float) (indices : list Z)
    (x_values y_values : list float)
    : result Grapher (list float * list float) :=
  match indices with
  | nil => Returned (x_values, y_values) self
  | i :: indices' =>
      match float_of_int i with
      | Unmodelled => NotModelled
      | Raises exn => Raised exn self
      | Returns fi =>
          let x := (x_min + fi * step)%float in
          match evaluate self expression (VFloat x) with
          | NotModelled => NotModelled
          | Raised exn self' => Raised exn self'
          | Returned (Some y) self' =>
              sample self' expression x_min step indices'
                (x_values ++ x :: nil) (y_values ++ y :: nil)
          | Returned None self' =>
              sample self' expression x_min step indices' x_values y_values
          end
      end
  end.

(** [x_min] and [x_max] are floats, as the type annotations say and as
    the window passes them. *)
Definition generate_plot_data (self : Grapher) (func_string : string)
    (x_min x_max : float) (num_points : Z)
    : result Grapher (list float * list float) :=
  let expression := parse_function func_string in
  match binary_op Div (VFloat (x_max - x_min)) (VInt (num_points - 1)) with
  | Returns (VFloat step) =>
      match sample self expression x_min step (range num_points) nil nil with
      | Returned (nil, _) self' =>
          Raised (ValueError (CouldNotEvaluateFunction func_string)) self'
      | other => other
      end
  | Raises exn => Raised exn self
  | _ => NotModelled
  end.
End WithEval.

End Grapher.

(** ** [backend/grapher.py], with what the evaluated text can write

    [eval] runs the text in a frame of its own, called from the frame of
    [Grapher.evaluate].  A text that makes a generator finds in it the
    frames of the callers ([gi_frame.f_back]), and in these the objects the
    callers hold, which it can write: the fields of the grapher, the two
    lists of [generate_plot_data], the objects of the caller of the
    grapher.  (The bindings of the local names it cannot change, nor the
    numbers and texts they are bound to.)  Here the interpreter is given
    what the text can reach, and gives it back as the text left it.

    An interpreter answers [NotModelled] where the text does what there is
    no place for here: it stores a value of another type in a list or in a
    field, or it changes the classes or the modules of the program; and so
    it does where it raises an exception that is none of [exception]. *)

Module Frames.
Import PyStr Py.

(** The interpreter in a place where the text can reach [S]. *)
Definition interpreter (S : Type) : Type :=
  string -> gmap string value -> S -> result S value.

(** The interpreter on texts that write nothing. *)
Definition pure {S : Type} (ev : evaluator) : interpreter S :=
  fun source locals s =>
    match ev source locals with
    | Returns v => Returned v s
    | Raises exn => Raised exn s
    | Unmodelled => NotModelled
    end.

Section Evaluate.
Context {S : Type}.
(** [self], the grapher, among what the text can reach. *)
Variable grapher : S -> Grapher.Grapher.
Variable eval : interpreter S.

Definition handle (s : S) (exn : exception) : result S (option float) :=
  if Grapher.caught exn then Returned None s else Raised exn s.

Definition evaluate (s : S) (expression : string) (x_value : value)
    : result S (option float) :=
  let context := <["x" := x_value]> (Grapher.math_context (grapher s)) in
  match eval expression context s with
  | NotModelled => NotModelled
  | Raised exn s' => handle s' exn
  | Returned (VBuiltin _) s' => Returned None s'
  | Returned result s' =>
      (* [math.isnan(result)] converts an int to a float *)
      match to_float result with
      | Unmodelled => NotModelled
      | Raises exn => handle s' exn
      | Returns f =>
          if negb (is_nan f) && negb (is_infinity f)
          then Returned (Some f) s'
          else Returned None s'
      end
  end.
End Evaluate.

(** What the text can reach during [generate_plot_data]: the two lists
    of the method, and what the caller can reach, the grapher included. *)
Record frames (W : Type) := {
  x_values : list float;
  y_values : list float;
  objects : W
}.
Arguments x_values {W} _.
Arguments y_values {W} _.
Arguments objects {W} _.

(** [x_values.append(x); y_values.append(y)] *)
Definition append {W : Type} (x y : float) (fr : frames W) : frames W :=
  {| x_values := x_values fr ++ x :: nil;
     y_values := y_values fr ++ y :: nil;
     objects := objects fr |}.

Section Sampling.
Context {W : Type}.
Variable grapher : W -> Grapher.Grapher.
Variable eval : interpreter (frames W).

(** The body of the [for] loop of [generate_plot_data], over the
    indices still to come. *)
Fixpoint sample (fr : frames W) (expression : string)
    (x_min step : float) (indices : list Z) : result (frames W) unit :=
  match indices with
  | nil => Returned tt fr
  | i :: indices' =>
      match float_of_int i with
      | Unmodelled => NotModelled
      | Raises exn => Raised exn fr
      | Returns fi =>
          let x := (x_min + fi * step)%float in
          match evaluate (fun fr => grapher (objects fr)) eval fr
                  expression (VFloat x) with
          | NotModelled => NotModelled
          | Raised exn fr' => Raised exn fr'
          | Returned (Some y) fr' =>
              sample (append x y fr') expression x_min step indices'
          | Returned None fr' =>
              sample fr' expression x_min step indices'
          end
      end
  end.

(** [w] is what the caller can reach; the method returns its two lists
    as they are after the loop. *)
Definition generate_plot_data (w : W) (func_string : string)
    (x_min x_max : float) (num_points : Z)
    : result W (list float * list float) :=
  let expression := Grapher.parse_function func_string in
  let fr := {| x_values := nil; y_values := nil; objects := w |} in
  match binary_op Div (VFloat (x_max - x_min)) (VInt (num_points - 1)) with
  | Returns (VFloat step) =>
      match sample fr expression x_min step (Grapher.range num_points) with
      | Returned _ fr' =>
          match x_values fr' with
          | nil =>
              Raised (ValueError (CouldNotEvaluateFunction func_string))
                (objects fr')
          | _ => Returned (x_values fr', y_values fr') (objects fr')
          end
      | Raised exn fr' => Raised exn (objects fr')
      | NotModelled => NotModelled
      end
  | Raises exn => Raised exn w
  | _ => NotModelled
  end.
End Sampling.

(** *** Two texts that write

    Two texts outside the fragment of [Py.eval], and what Python 3.11
    does with them when [Grapher.evaluate] calls [eval]: each makes a
    generator, takes from its frame the frame of a caller, and writes an
    object found there.  The first one needs the frame of
    [generate_plot_data], the fourth from the generator's. *)

(** Appends [0.0] to [x_values] and an infinity to [y_values] of
    [generate_plot_data]; its value is [0]. *)
Definition appends_infinity : string :=
  "[lambda c: [c.append((c[0].gi_frame.f_back.f_back.f_back.f_back.f_locals for _ in [0])), [f['x_values'].append(0.0) or f['y_values'].append(1e999) for f in [c[0].__next__()]], 0][2]][0]([])".

(** Binds [pi] to [3] in [self.math_context] of [evaluate]; its value is
    [0]. *)
Definition rebinds_pi : string :=
  "[lambda c: [c.append((c[0].gi_frame.f_back.f_back.f_back.f_locals['self'].math_context.update({'pi': 3}) for _ in [0])), c[0].__next__(), 0][2]][0]([])".

Definition rebind_pi (self : Grapher.Grapher) : Grapher.Grapher :=
  {| Grapher.math_context := <["pi" := VInt 3]> (Grapher.math_context self) |}.

(** The interpreter, called by [evaluate] of a grapher that nothing else
    holds, on these texts and on the texts of [Py.eval]. *)
Definition eval_in_evaluate : interpreter Grapher.Grapher :=
  fun source locals self =>
    if String.eqb source rebinds_pi
    then Returned (VInt 0) (rebind_pi self)
    else if String.eqb source appends_infinity then NotModelled
    else pure Py.eval source locals self.

(** The same, [evaluate] being called by [generate_plot_data]. *)
Definition eval_in_generate_plot_data : interpreter (frames Grapher.Grapher) :=
  fun source locals fr =>
    if String.eqb source appends_infinity
    then Returned (VInt 0) (append 0 infinity fr)
    else if String.eqb source rebinds_pi
    then Returned (VInt 0)
           {| x_values := x_values fr; y_values := y_values fr;
              objects := rebind_pi (objects fr) |}
    else pure Py.eval source locals fr.

End Frames.
(** ** [frontend/gui.py]

    Of [CalculatorApp], the state its methods keep and the methods that work
    on it.  A widget variable ([tk.StringVar]) is modelled by the text it
    holds; a message box is what the method is said to show.  The drawing
    methods ([_update_function_list], [_redraw_graph], [_setup_graph]) and
    the configuration of the widgets write no field below.  Where the
    drawing methods are called in a [try] block, at the end of
    [_add_or_update_function] and of [_replot_all], what Tk and matplotlib
    do decides what the method shows: there they are parameters.  Elsewhere
    they come last and outside any [try]: whether they return or raise, the
    window is then as given here.  [_on_button_click], [_evaluate] (number
    formatting) and [_save_graph] (file dialog) are not modelled.

    The function text is evaluated while [_add_or_update_function] or
    [_replot_all] runs, and can write the window: the interpreter is given
    the window among what the text can reach.  A field stands for the
    object the attribute is bound to: the model does not tell the rebinding
    of an attribute from a change of its object in place, and an
    interpreter is to answer [NotModelled] where the difference shows (the
    text changes in place the list over which the loop of [_replot_all]
    runs). *)

Module CalculatorApp.
Import PyStr Py.

Definition PLOT_COLORS : list string :=
  "#2196F3" :: "#F44336" :: "#4CAF50" :: "#FF9800" :: "#9C27B0"
  :: "#00BCD4" :: "#E91E63" :: "#8BC34A" :: "#FF5722" :: "#673AB7" :: nil.

(** An entry of [plotted_functions]:
    [(func_string, x_vals, y_vals, color)]. *)
Record plotted := {
  func_string : string;
  x_vals : list float;
  y_vals : list float;
  color : string
}.

Record CalculatorApp := {
  grapher : Grapher.Grapher;
  expression : string;
  just_evaluated : bool;
  plotted_functions : list plotted;
  editing_index : option Z;
  display_var : string;
  result_var : string;
  function_var : string
}.

Definition set_grapher (g : Grapher.Grapher) (self : CalculatorApp) :=
  {| grapher := g; expression := expression self;
     just_evaluated := just_evaluated self;
     plotted_functions := plotted_functions self;
     editing_index := editing_index self; display_var := display_var self;
     result_var := result_var self; function_var := function_var self |}.

Definition set_plotted_functions (fs : list plotted) (self : CalculatorApp) :=
  {| grapher := grapher self; expression := expression self;
     just_evaluated := just_evaluated self; plotted_functions := fs;
     editing_index := editing_index self; display_var := display_var self;
     result_var := result_var self; function_var := function_var self |}.

Definition set_function_var (text : string) (self : CalculatorApp) :=
  {| grapher := grapher self; expression := expression self;
     just_evaluated := just_evaluated self;
     plotted_functions := plotted_functions self;
     editing_index := editing_index self; display_var := display_var self;
     result_var := result_var self; function_var := text |}.

Definition set_editing_index (index : option Z) (self : CalculatorApp) :=
  {| grapher := grapher self; expression := expression self;
     just_evaluated := just_evaluated self;
     plotted_functions := plotted_functions self;
     editing_index := index; display_var := display_var self;
     result_var := result_var self; function_var := function_var self |}.

(** The fields as [__init__] and the two panel constructors set them. *)
Definition __init__ : CalculatorApp := {|
  grapher := Grapher.__init__;
  expression := "";
  just_evaluated := false;
  plotted_functions := nil;
  editing_index := None;
  display_var := "";
  result_var := "0";
  function_var := "x^2"
|}.

(** The calculator panel: [expression], [just_evaluated], [display_var]
    and [result_var] at once. *)
Definition set_panel (expr : string) (evaluated : bool) (display : string)
    (shown : string) (self : CalculatorApp) :=
  {| grapher := grapher self; expression := expr;
     just_evaluated := evaluated;
     plotted_functions := plotted_functions self;
     editing_index := editing_index self; display_var := display;
     result_var := shown; function_var := function_var self |}.

(** *** The calculator panel *)

Definition _append_to_expression (self : CalculatorApp) (text : string)
    : CalculatorApp :=
  let expr := (display_var self ++ text)%string in
  set_panel expr false expr (result_var self) self.

Definition _clear_all (self : CalculatorApp) : CalculatorApp :=
  set_panel "" false "" "0" self.

Definition _backspace (self : CalculatorApp) : CalculatorApp :=
  let current := display_var self in
  let display :=
    if String.eqb current "" then current else without_last current in
  set_panel (expression self) false display (result_var self) self.

Definition _toggle_sign (self : CalculatorApp) : CalculatorApp :=
  let current := display_var self in
  if String.eqb current "" then self
  else
    let display :=
      if startswith current "-(" && endswith_char current ")"
      then without_last (slice_from 2 current)
      else if startswith current "-" then slice_from 1 current
      else ("-(" ++ current ++ ")")%string in
    set_panel (expression self) (just_evaluated self) display
      (result_var self) self.

(** *** The list of plotted functions *)

(** [items[index]] of a Python list: a negative index counts from the
    end; [None] stands for [IndexError]. *)
Definition position {A : Type} (items : list A) (index : Z) : option nat :=
  let n := Z.of_nat (length items) in
  let i := if (index <? 0)%Z then (index + n)%Z else index in
  if (0 <=? i)%Z && (i <? n)%Z then Some (Z.to_nat i) else None.

Definition getitem {A : Type} (items : list A) (index : Z) : option A :=
  match position items index with
  | Some i => nth_error items i
  | None => None
  end.

(** [items[index] = item] *)
Fixpoint replace_nth {A : Type} (i : nat) (item : A) (items : list A)
    : list A :=
  match items, i with
  | nil, _ => nil
  | _ :: rest, O => item :: rest
  | a :: rest, S j => a :: replace_nth j item rest
  end.

Definition setitem {A : Type} (items : list A) (index : Z) (item : A)
    : option (list A) :=
  match position items index with
  | Some i => Some (replace_nth i item items)
  | None => None
  end.

(** [items.pop(index)] for an index known to be in range *)
Fixpoint remove_nth {A : Type} (i : nat) (items : list A) : list A :=
  match items, i with
  | nil, _ => nil
  | _ :: rest, O => rest
  | a :: rest, S j => a :: remove_nth j rest
  end.

(** [PLOT_COLORS[len(self.plotted_functions) % len(PLOT_COLORS)]] *)
Definition _get_next_color (self : CalculatorApp) : option string :=
  let color_index :=
    (Z.of_nat (length (plotted_functions self))
     mod Z.of_nat (length PLOT_COLORS))%Z in
  getitem PLOT_COLORS color_index.

Definition _cancel_edit (self : CalculatorApp) : CalculatorApp :=
  set_function_var "" (set_editing_index None self).

(** [selection] is what [curselection()] gives: the selected indices. *)
Definition _on_function_select (self : CalculatorApp) (selection : list Z)
    : CalculatorApp :=
  match selection with
  | nil => self
  | index :: _ =>
      if (0 <=? index)%Z
         && (index <? Z.of_nat (length (plotted_functions self)))%Z
      then
        match getitem (plotted_functions self) index with
        | Some entry =>
            set_editing_index (Some index)
              (set_function_var (func_string entry) self)
        | None => self
        end
      else self
  end.

(** What a method shows in a message box, if anything.  An error box
    reports an exception: one of [exception], or ([None]) another one, of
    a list access ([IndexError], [TypeError]) or of the drawing calls. *)
Inductive dialog :=
| Nothing
| EnterAFunction         (* warning "Please enter a function to plot." *)
| XMinNotLess            (* warning "x min must be less than x max." *)
| AlreadyPlotted (func_string : string)
                         (* info "Function '...' is already plotted." *)
| SelectAFunction        (* info "Please select a function to remove." *)
| CouldNotPlot (e : option exception)
                         (* error "Could not plot function: ..." *)
| CouldNotReplot (e : option exception)
                         (* error "Could not replot: ..." *)
| ErrorOccurred (e : option exception).
                         (* error "An error occurred: ..." *)

Definition _remove_selected_function (self : CalculatorApp)
    (selection : list Z) : CalculatorApp * dialog :=
  match selection with
  | nil => (self, SelectAFunction)
  | index :: _ =>
      if (0 <=? index)%Z
         && (index <? Z.of_nat (length (plotted_functions self)))%Z
      then
        (_cancel_edit
           (set_plotted_functions
              (remove_nth (Z.to_nat index) (plotted_functions self)) self),
         Nothing)
      else (self, Nothing)
  end.

Definition _clear_graph (self : CalculatorApp) : CalculatorApp :=
  _cancel_edit (set_plotted_functions nil self).

(** What a callback of a button does: it returns, having shown [shown],
    or an exception leaves it; [self'] is the window it leaves. *)
Inductive callback :=
| Shows (shown : dialog) (self' : CalculatorApp)
| Escapes (e : option exception) (self' : CalculatorApp)
| Unknown.               (* where the model is silent *)

(** What a drawing method does: it returns, or Tk or matplotlib raises,
    a [ValueError] or something else. *)
Inductive drawing :=
| Drawn
| DrawingRaises (value_error : bool).

(** What the text can reach while [_replot_all] runs: the list the
    method builds, and the window. *)
Record replotting := {
  new_plotted : list plotted;
  window : CalculatorApp
}.

Section Callbacks.
(** [float(text)] of the two range entries, a primitive of the language;
    [x_min_var] and [x_max_var] are given by their texts. *)
Variable float_of_text : string -> outcome float.
Variables x_min_var x_max_var : string.
(** The two drawing methods, on the window they are called with. *)
Variable _update_function_list : CalculatorApp -> drawing.
Variable _redraw_graph : CalculatorApp -> drawing.
(** The interpreter as the grapher calls it for each of the two
    methods. *)
Variable eval : Frames.interpreter (Frames.frames CalculatorApp).
Variable eval_replotting : Frames.interpreter (Frames.frames replotting).

(** The two [except] clauses of [_add_or_update_function]. *)
Definition handle (self : CalculatorApp) (exn : exception) : callback :=
  match exn with
  | ValueError _ => Shows (CouldNotPlot (Some exn)) self
  | _ => Shows (ErrorOccurred (Some exn)) self
  end.

(** [self._update_function_list(); self._redraw_graph()], the last
    statements of the [try] block of [_add_or_update_function]. *)
Definition update_and_redraw (self : CalculatorApp) : callback :=
  match _update_function_list self with
  | DrawingRaises true => Shows (CouldNotPlot None) self
  | DrawingRaises false => Shows (ErrorOccurred None) self
  | Drawn =>
      match _redraw_graph self with
      | DrawingRaises true => Shows (CouldNotPlot None) self
      | DrawingRaises false => Shows (ErrorOccurred None) self
      | Drawn => Shows Nothing self
      end
  end.

Definition _add_or_update_function (self : CalculatorApp) : callback :=
  let text := strip (function_var self) in
  if String.eqb text "" then Shows EnterAFunction self
  else
    match float_of_text x_min_var with
    | Unmodelled => Unknown
    | Raises exn => handle self exn
    | Returns x_min =>
        match float_of_text x_max_var with
        | Unmodelled => Unknown
        | Raises exn => handle self exn
        | Returns x_max =>
            if (x_max <=? x_min)%float then Shows XMinNotLess self
            else
              match editing_index self with
              | Some index =>
                  match getitem (plotted_functions self) index with
                  | None => Shows (ErrorOccurred None) self
                  | Some old =>
                      match Frames.generate_plot_data grapher eval self
                              text x_min x_max 500 with
                      | NotModelled => Unknown
                      | Raised exn self => handle self exn
                      | Returned (xs, ys) self =>
                          let entry :=
                            {| func_string := text; x_vals := xs;
                               y_vals := ys; color := color old |} in
                          (* [self.plotted_functions[self.editing_index]
                             = ...], of the window as it is now *)
                          match editing_index self with
                          | None => Shows (ErrorOccurred None) self
                          | Some index =>
                              match setitem (plotted_functions self) index
                                      entry with
                              | None => Shows (ErrorOccurred None) self
                              | Some fs =>
                                  update_and_redraw
                                    (_cancel_edit
                                       (set_plotted_functions fs self))
                              end
                          end
                      end
                  end
              | None =>
                  if existsb (fun p => String.eqb (func_string p) text)
                       (plotted_functions self)
                  then Shows (AlreadyPlotted text) self
                  else
                    match Frames.generate_plot_data grapher eval self
                            text x_min x_max 500 with
                    | NotModelled => Unknown
                    | Raised exn self => handle self exn
                    | Returned (xs, ys) self =>
                        match _get_next_color self with
                        | None => Shows (ErrorOccurred None) self
                        | Some c =>
                            let entry :=
                              {| func_string := text; x_vals := xs;
                                 y_vals := ys; color := c |} in
                            update_and_redraw
                              (set_function_var ""
                                 (set_plotted_functions
                                    (plotted_functions self ++ entry :: nil)
                                    self))
                        end
                    end
              end
        end
    end.

(** The loop of [_replot_all] over the entries still to come. *)
Fixpoint replot (st : replotting) (x_min x_max : float)
    (entries : list plotted) : result replotting unit :=
  match entries with
  | nil => Returned tt st
  | old :: entries' =>
      match Frames.generate_plot_data (fun st => grapher (window st))
              eval_replotting st (func_string old) x_min x_max 500 with
      | NotModelled => NotModelled
      | Raised exn st' => Raised exn st'
      | Returned (xs, ys) st' =>
          replot
            {| new_plotted :=
                 new_plotted st'
                 ++ {| func_string := func_string old; x_vals := xs;
                       y_vals := ys; color := color old |} :: nil;
               window := window st' |}
            x_min x_max entries'
      end
  end.

(** [_replot_all] catches [ValueError] only: any other exception leaves
    the method. *)
Definition _replot_all (self : CalculatorApp) : callback :=
  match plotted_functions self with
  | nil => Shows Nothing self
  | _ =>
      match float_of_text x_min_var with
      | Unmodelled => Unknown
      | Raises (ValueError msg) =>
          Shows (CouldNotReplot (Some (ValueError msg))) self
      | Raises exn => Escapes (Some exn) self
      | Returns x_min =>
          match float_of_text x_max_var with
          | Unmodelled => Unknown
          | Raises (ValueError msg) =>
              Shows (CouldNotReplot (Some (ValueError msg))) self
          | Raises exn => Escapes (Some exn) self
          | Returns x_max =>
              if (x_max <=? x_min)%float then Shows XMinNotLess self
              else
                match replot {| new_plotted := nil; window := self |}
                        x_min x_max (plotted_functions self) with
                | NotModelled => Unknown
                | Raised (ValueError msg) st =>
                    Shows (CouldNotReplot (Some (ValueError msg)))
                      (window st)
                | Raised exn st => Escapes (Some exn) (window st)
                | Returned _ st =>
                    let self :=
                      set_plotted_functions (new_plotted st) (window st) in
                    match _redraw_graph self with
                    | Drawn => Shows Nothing self
                    | DrawingRaises true => Shows (CouldNotReplot None) self
                    | DrawingRaises false => Escapes None self
                    end
                end
          end
      end
  end.
End Callbacks.

End CalculatorApp.

(** ** Vocabulary of the properties *)

Import PyStr Py.
Local Open Scope list_scope.

(** The calculator after a successful evaluation to [f]. *)
Definition stored (f : float) (self : Calculator.Calculator)
    : Calculator.Calculator :=
  {| Calculator.last_result := VFloat f;
     Calculator.math_context := Calculator.math_context self |}.

(** [evaluate_expression] gets past its two checks on [expression]. *)
Definition validated (expression : string) : Prop :=
  String.eqb expression "" || String.eqb (strip expression) "" = false
  /\ Calculator._validate_expression expression = Returns true.

(** *** Implicit multiplication *)

(** One pass over the text that puts a [*] behind every character [a] whose
    position is a boundary, [t] being the text that follows [a]. *)
Fixpoint insert_stars (b : ascii -> string -> bool) (s : string) : string :=
  match s with
  | EmptyString => EmptyString
  | String a t =>
      if b a t then String a (String "*" (insert_stars b t))
      else String a (insert_stars b t)
  end.

Definition matches (second : string -> option nat) (t : string) : bool :=
  match second t with Some _ => true | None => false end.

(** The boundary a pattern [(A)(B)] describes. *)
Definition boundary (first : ascii -> bool) (second : string -> option nat)
    (a : ascii) (t : string) : bool :=
  first a && matches second t.

(** None of the first [k] characters of [s] is in the class [first]. *)
Fixpoint none_first (first : ascii -> bool) (k : nat) (s : string) : bool :=
  match k, s with
  | S k', String a t => negb (first a) && none_first first k' t
  | _, _ => true
  end.

(** Where the calculator inserts a multiplication sign. *)
Definition calculator_boundary (a : ascii) (t : string) : bool :=
  (isdigit a && head_is (is_char "(") t)
  || (is_char ")" a && head_is isdigit t)
  || (is_char ")" a && head_is (is_char "(") t).

(** The text the calculator's substitutions work on. *)
Definition calculator_text (expression : string) : string :=
  replace_char Calculator.division_sign "/"
    (replace_char Calculator.times_sign "*"
       (replace_char "^" "**" (strip expression))).

(** Where the grapher inserts a multiplication sign. *)
Definition grapher_boundary (a : ascii) (t : string) : bool :=
  (isdigit a && head_is (is_char "x") t)
  || (isdigit a && (startswith t "sin" || startswith t "cos"
                    || startswith t "tan" || startswith t "sqrt"))
  || (is_char "x" a && head_is (is_char "(") t)
  || (is_char ")" a && head_is (fun c => is_char "x" c || is_char "(" c) t)
  || (is_char ")" a && head_is isdigit t).

(** The text the grapher's substitutions work on: the trimmed input without
    its header, the caret rewritten. *)
Definition grapher_text (func_string : string) : string :=
  let expression := strip func_string in
  replace_char "^" "**"
    (if startswith (lower expression) "f(x)"
     then strip (lstrip_by (is_char "=") (slice_from 4 expression))
     else expression).

(** The boundaries the specification lists for its single normalizer
    (section 4.1, step 3): a digit before [(]; [)] before a digit, [(] or
    [x]; a digit before [x] or a function name; [x] before [(]. *)
Definition spec_function_names : list string :=
  "sqrt" :: "abs" :: "round" :: "min" :: "max" :: "sin" :: "cos" :: "tan"
  :: nil.

Definition spec_boundary (a : ascii) (t : string) : bool :=
  (isdigit a && head_is (is_char "(") t)
  || (is_char ")" a
      && head_is (fun c => isdigit c || is_char "(" c || is_char "x" c) t)
  || (isdigit a
      && (head_is (is_char "x") t || existsb (startswith t) spec_function_names))
  || (is_char "x" a && head_is (is_char "(") t).

(** Some boundary of [s] has no multiplication sign. *)
Fixpoint has_boundary (b : ascii -> string -> bool) (s : string) : bool :=
  match s with
  | EmptyString => false
  | String a t => b a t || has_boundary b t
  end.

(** *** The function header *)

Fixpoint equals_signs (n : nat) : string :=
  match n with
  | O => EmptyString
  | S k => String "=" (equals_signs k)
  end.

Definition header_spelling (h : string) : Prop :=
  h = "f(x)" \/ h = "F(x)" \/ h = "f(X)" \/ h = "F(X)".

(** *** Division *)

Definition is_zero_value (v : value) : bool :=
  match v with
  | VInt n => (n =? 0)%Z
  | VFloat f => is_zero f
  | VBuiltin _ => false
  end.

(** The operands of a division can be brought to a common type: two ints
    are divided as they are, otherwise the left operand is a float or an
    int that fits into one. *)
Definition convertible (a b : value) : Prop :=
  match a, b with
  | VInt _, VInt _ => True
  | _, _ => exists f, to_float a = Returns f
  end.

(** *** The fixed grammar of the specification

    Section 4.3 of the specification, as a predicate on syntax trees:
    literals, names, unary minus, the operators [+ - * / ^] and calls of a
    named function. *)
Fixpoint in_fixed_grammar (e : expr) : bool :=
  match e with
  | Constant _ | Name _ => true
  | UnaryOp USub a => in_fixed_grammar a
  | UnaryOp UAdd _ => false
  | BinOp l op r =>
      match op with
      | FloorDiv => false
      | _ => in_fixed_grammar l && in_fixed_grammar r
      end
  | Call (Name _) args => forallb in_fixed_grammar args
  | Call _ _ => false
  end.

(** *** Sampling *)

(** The abscissas of a sample. *)
Definition sample_points (x_min step : float) (indices : list Z) : list float :=
  map (fun i => (x_min + nearest_float i * step)%float) indices.

(** The pair a point contributes to the series. *)
Definition kept (ev : evaluator) (self : Grapher.Grapher) (expression : string)
    (x : float) : list (float * float) :=
  match Grapher.evaluate ev self expression (VFloat x) with
  | Returned (Some y) _ => (x, y) :: nil
  | _ => nil
  end.

(** The step computation of [generate_plot_data]. *)
Definition step_of (x_min x_max : float) (num_points : Z) : outcome value :=
  binary_op Div (VFloat (x_max - x_min)) (VInt (num_points - 1)).

(** *** Arithmetic in the usual notation *)

Inductive operator := Plus | Minus | Times | Divide | Power.

Inductive arith :=
| Num (v : value)
| Paren (a : arith)
| Neg (a : arith)
| Bin (l : arith) (op : operator) (r : arith).

Definition binop_of (op : operator) : binop :=
  match op with
  | Plus => Add
  | Minus => Sub
  | Times => Mult
  | Divide => Div
  | Power => Pow
  end.

Definition token_of (op : operator) : token :=
  match op with
  | Plus => TPlus
  | Minus => TMinus
  | Times => TStar
  | Divide => TSlash
  | Power => TDoubleStar
  end.

(** The tree an arithmetic expression stands for: what PEMDAS says is to
    be computed, operands first. *)
Fixpoint tree (a : arith) : expr :=
  match a with
  | Num v => Constant v
  | Paren b => tree b
  | Neg b => UnaryOp USub (tree b)
  | Bin l op r => BinOp (tree l) (binop_of op) (tree r)
  end.

(** How tightly the outermost operator binds. *)
Definition level (a : arith) : nat :=
  match a with
  | Bin _ (Plus | Minus) _ => 0
  | Bin _ (Times | Divide) _ => 1
  | Neg _ => 2
  | Bin _ Power _ => 3
  | Num _ | Paren _ => 4
  end.

(** The expression written down where an operand of level [lvl] is
    expected.  PEMDAS decides where parentheses are needed: around an
    operand that binds less tightly than its place requires, so around the
    right operand of [-] and [/] and the left operand of [^] when they have
    the same operator; [Paren] writes parentheses that are not needed. *)
Fixpoint show (lvl : nat) (a : arith) : list token :=
  let body :=
    match a with
    | Num v => TNumber v :: nil
    | Paren b => TLPar :: show 0 b ++ TRPar :: nil
    | Neg b => TMinus :: show 2 b
    | Bin l op r =>
        match op with
        | Plus | Minus => show 0 l ++ token_of op :: show 1 r
        | Times | Divide => show 1 l ++ token_of op :: show 2 r
        | Power => show 4 l ++ token_of op :: show 2 r
        end
    end in
  if (lvl <=? level a)%nat then body else TLPar :: body ++ TRPar :: nil.

(** *** Arithmetic as it is typed *)

(** A numeral: digits, or digits with one decimal point before, between or
    behind them. *)
Inductive numeral :=
| Whole (digits : string)
| Point (whole fraction : string).

(** The digits of a numeral are digits and there is one at least; a whole
    numeral does not start with a zero unless it is made of zeros. *)
Definition well_formed (n : numeral) : bool :=
  match n with
  | Whole ds =>
      negb (String.eqb ds "") && all_chars isdigit ds
      && (negb (head_is (is_char "0") ds) || all_chars (is_char "0") ds)
  | Point ip fp =>
      negb (String.eqb ip "" && String.eqb fp "")
      && all_chars isdigit ip && all_chars isdigit fp
  end.

Definition spelling (n : numeral) : string :=
  match n with
  | Whole ds => ds
  | Point ip fp => (ip ++ String "." fp)%string
  end.

(** The number a numeral stands for: the int of its digits, or the double
    nearest to the decimal fraction. *)
Definition value_of (n : numeral) : value :=
  match n with
  | Whole ds => VInt (digits_value 0 ds)
  | Point ip fp =>
      VFloat (float_of_decimal (digits_value 0 (ip ++ fp)%string)
                (0 - Z.of_nat (String.length fp)))
  end.

(** An arithmetic expression with its numerals as they are typed. *)
Inductive typed :=
| Number (n : numeral)
| Parenthesised (a : typed)
| Negated (a : typed)
| Binary (l : typed) (op : operator) (r : typed).

Fixpoint well_typed (a : typed) : bool :=
  match a with
  | Number n => well_formed n
  | Parenthesised b | Negated b => well_typed b
  | Binary l _ r => well_typed l && well_typed r
  end.

(** The expression that is meant. *)
Fixpoint reading (a : typed) : arith :=
  match a with
  | Number n => Num (value_of n)
  | Parenthesised b => Paren (reading b)
  | Negated b => Neg (reading b)
  | Binary l op r => Bin (reading l) op (reading r)
  end.

(** The sign of an operator, [power] being the one of the power. *)
Definition sign (power : string) (op : operator) : string :=
  match op with
  | Plus => "+"
  | Minus => "-"
  | Times => "*"
  | Divide => "/"
  | Power => power
  end.

(** The text of an expression where an operand of level [lvl] is expected,
    with parentheses where [show] has them: [text "^"] is what is typed,
    [text "**"] the same in Python's notation. *)
Fixpoint text (power : string) (lvl : nat) (a : typed) : string :=
  let body :=
    match a with
    | Number n => spelling n
    | Parenthesised b => String "(" (text power 0 b ++ ")")
    | Negated b => String "-" (text power 2 b)
    | Binary l op r =>
        match op with
        | Plus | Minus => text power 0 l ++ sign power op ++ text power 1 r
        | Times | Divide => text power 1 l ++ sign power op ++ text power 2 r
        | Power => text power 4 l ++ sign power op ++ text power 2 r
        end
    end%string in
  if (lvl <=? level (reading a))%nat then body
  else String "(" (body ++ ")")%string.

(** The longest text, as typed, for which the calculator's answer is
    stated: preparation at most doubles its length. *)
Definition longest_typed : nat := 75.

(** The characters of these texts. *)
Definition arithmetic_char (c : ascii) : bool :=
  isdigit c || Calculator.char_in c "+-*/().^".

(** What may follow an operand in a text: nothing, an operator or a closing
    parenthesis. *)
Definition after_operand (rest : string) : bool :=
  match rest with
  | EmptyString => true
  | String c _ => Calculator.char_in c "+-*/)^"
  end.

(** A text goes on as an operand does: with a digit, a decimal point, an
    opening parenthesis or a minus sign. *)
Definition starts_operand (s : string) : bool :=
  head_is (fun c => isdigit c || is_char "." c || is_char "(" c
                    || is_char "-" c) s.

(** The interpreter that evaluates the tree of [a], whatever the text. *)
Definition evaluator_of (a : arith) : evaluator :=
  fun _ locals => eval_expr locals (tree a).

(** What may follow an operand of each kind. *)
Definition after_primary (rest : list token) : bool :=
  match rest with
  | TLPar :: _ => false
  | _ => true
  end.

Definition after_power (rest : list token) : bool :=
  match rest with
  | (TLPar | TDoubleStar) :: _ => false
  | _ => true
  end.

Definition after_term (rest : list token) : bool :=
  match rest with
  | (TLPar | TDoubleStar | TStar | TSlash | TDoubleSlash) :: _ => false
  | _ => true
  end.

Definition after_sum (rest : list token) : bool :=
  match rest with
  | (TLPar | TDoubleStar | TStar | TSlash | TDoubleSlash | TPlus | TMinus) :: _ =>
      false
  | _ => true
  end.

Definition starts_atom (ts : list token) : bool :=
  match ts with
  | (TNumber _ | TLPar) :: _ => true
  | _ => false
  end.

(** The parser reads the tokens [ts] as [e], at each level of the grammar
    and with the fuel [parse] provides.  For the two left-associative levels
    the statement is about what the loop goes on to do with [e]. *)
Definition reads_primary (ts : list token) (e : expr) : Prop :=
  forall rest f, after_primary rest = true -> 9 * length ts <= f ->
  parse_primary f (ts ++ rest) = Some (e, rest).

Definition reads_factor (ts : list token) (e : expr) : Prop :=
  forall rest f, after_power rest = true -> 9 * length ts + 2 <= f ->
  parse_factor f (ts ++ rest) = Some (e, rest).

Definition reads_term (ts : list token) (e : expr) : Prop :=
  forall rest res g f, after_power rest = true ->
  parse_term_rest g e rest = Some res -> g + 9 * length ts + 2 <= f ->
  parse_term (S f) (ts ++ rest) = Some res.

Definition reads_sum (ts : list token) (e : expr) : Prop :=
  forall rest res g f, after_term rest = true ->
  parse_sum_rest g e rest = Some res -> g + 9 * length ts + 4 <= f ->
  parse_sum (S f) (ts ++ rest) = Some res.

Definition reads_whole_term (ts : list token) (e : expr) : Prop :=
  forall rest f, after_term rest = true -> 9 * length ts + 4 <= f ->
  parse_term f (ts ++ rest) = Some (e, rest).

Definition reads_whole_sum (ts : list token) (e : expr) : Prop :=
  forall rest f, after_sum rest = true -> 9 * length ts + 6 <= f ->
  parse_sum f (ts ++ rest) = Some (e, rest).

Record reads (a : arith) : Prop := {
  at_sum : reads_sum (show 0 a) (tree a);
  at_term : reads_term (show 1 a) (tree a);
  at_factor : reads_factor (show 2 a) (tree a);
  at_primary : reads_primary (show 4 a) (tree a)
}.

(** More fuel never changes an answer of the parser. *)
Definition monotone {A B : Type} (p : nat -> A -> option B) (f : nat) : Prop :=
  forall x r, p f x = Some r -> p (S f) x = Some r.

Definition monotone2 {A B C : Type} (p : nat -> A -> B -> option C) (f : nat)
    : Prop :=
  forall x y r, p f x y = Some r -> p (S f) x y = Some r.

Record parser_monotone (f : nat) : Prop := {
  mono_sum : monotone parse_sum f;
  mono_sum_rest : monotone2 parse_sum_rest f;
  mono_term : monotone parse_term f;
  mono_term_rest : monotone2 parse_term_rest f;
  mono_factor : monotone parse_factor f;
  mono_power : monotone parse_power f;
  mono_primary : monotone parse_primary f;
  mono_trailers : monotone2 parse_trailers f;
  mono_args : monotone parse_args f;
  mono_atom : monotone parse_atom f
}.

(** *** Tactics *)

Ltac case_scrutinee H :=
  repeat match type of H with
         | context [match ?x with _ => _ end] => destruct x eqn:?
         | context [if ?b then _ else _] => destruct b eqn:?
         end.

Ltac char_cases H :=
  simpl in H;
  repeat match type of H with
         | (_ || _)%bool = true => apply orb_prop in H as [H|H]
         end;
  try discriminate;
  try (apply Ascii.eqb_eq in H; subst; reflexivity).

Ltac by_head rest H :=
  destruct rest as [|[] ?]; try discriminate H; reflexivity.

Ltac more_fuel IH :=
  repeat match goal with
    | H : context [match ?X with _ => _ end] |- _ =>
        lazymatch X with
        | _ ?g _ =>
            let E := fresh "E" in
            destruct X as [[? ?]|] eqn:E; [| discriminate H];
            first [ apply (mono_sum _ IH) in E
                  | apply (mono_term _ IH) in E
                  | apply (mono_factor _ IH) in E
                  | apply (mono_power _ IH) in E
                  | apply (mono_primary _ IH) in E
                  | apply (mono_args _ IH) in E
                  | apply (mono_atom _ IH) in E ];
            rewrite E
        | _ => destruct X; try discriminate H
        end
    end.

(** *** What a call leaves *)

(** What a call leaves of what it was given, whether it returned or
    raised. *)
Definition left_by {S A : Type} (r : result S A) : option S :=
  match r with
  | Returned _ s | Raised _ s => Some s
  | NotModelled => None
  end.

(** A property of what the text can reach that no run of the text undoes. *)
Definition kept_by {S : Type} (eval : Frames.interpreter S) (J : S -> Prop)
    : Prop :=
  forall source locals s,
    J s ->
    match eval source locals s with
    | Returned _ s' | Raised _ s' => J s'
    | NotModelled => True
    end.

(** The text writes nothing: every run leaves what it can reach as it
    was. *)
Definition writes_nothing {S : Type} (eval : Frames.interpreter S) : Prop :=
  forall source locals s,
    match eval source locals s with
    | Returned _ s' | Raised _ s' => s' = s
    | NotModelled => True
    end.

(** The result of a call that changes nothing, in another place. *)
Definition leaving {S T A : Type} (s : S) (r : result T A) : result S A :=
  match r with
  | Returned a _ => Returned a s
  | Raised exn _ => Raised exn s
  | NotModelled => NotModelled
  end.

(** The y values are finite. *)
Definition finite_values (ys : list float) : Prop :=
  Forall (fun y => is_finite y = true) ys.

(** *** Parentheses *)

(** The opening minus the closing parentheses of a text. *)
Fixpoint excess (s : string) : Z :=
  match s with
  | EmptyString => 0
  | String c t =>
      ((if Ascii.eqb c "(" then 1 else if Ascii.eqb c ")" then -1 else 0)
       + excess t)%Z
  end.

(** [s[:n]] *)
Definition first_chars (n : nat) (s : string) : string := String.substring 0 n s.

(** [c] is neither parenthesis. *)
Definition no_parenthesis (c : ascii) : bool :=
  negb (Ascii.eqb c "(") && negb (Ascii.eqb c ")").

(** *** Ends of a text *)

(** The last character of [s] is in the class [p]. *)
Fixpoint last_is (p : ascii -> bool) (s : string) : bool :=
  match s with
  | EmptyString => false
  | String a EmptyString => p a
  | String _ t => last_is p t
  end.

(** *** Errors of [evaluate_expression] *)

(** The messages [evaluate_expression] raises a [ValueError] with: those of
    its own checks and those of its [except] clauses. *)
Definition reported (msg : value_error) : bool :=
  match msg with
  | EmptyExpression | InvalidCharacters _ | ExtraClosingParenthesis
  | MissingClosingParenthesis | CannotDivideByZero | InvalidExpressionSyntax =>
      true
  | CouldNotEvaluateExpression ZeroDivisionError
  | CouldNotEvaluateExpression SyntaxError => false
  | CouldNotEvaluateExpression _ => true
  | _ => false
  end.

(** *** The four operations *)

Definition operators : list string := "+" :: "-" :: "*" :: "/" :: nil.

(** The calculator after [result] has been stored. *)
Definition keeping (result : value) (self : Calculator.Calculator)
    : Calculator.Calculator :=
  {| Calculator.last_result := result;
     Calculator.math_context := Calculator.math_context self |}.

(** The calculator a call leaves behind, whether it returned or raised. *)
Definition left_behind {A : Type} (r : result Calculator.Calculator A)
    : option Calculator.Calculator :=
  match r with
  | Returned _ self' | Raised _ self' => Some self'
  | NotModelled => None
  end.

(** The calculators that calls of the public methods lead to, from the
    calculator as [__init__] leaves it. *)
Inductive used (eval : evaluator) : Calculator.Calculator -> Prop :=
| used_init : used eval Calculator.__init__
| used_add self a b self' :
    used eval self -> left_behind (Calculator.add self a b) = Some self' ->
    used eval self'
| used_subtract self a b self' :
    used eval self -> left_behind (Calculator.subtract self a b) = Some self' ->
    used eval self'
| used_multiply self a b self' :
    used eval self -> left_behind (Calculator.multiply self a b) = Some self' ->
    used eval self'
| used_divide self a b self' :
    used eval self -> left_behind (Calculator.divide self a b) = Some self' ->
    used eval self'
| used_clear self : used eval self -> used eval (Calculator.clear self)
| used_calculate self a operator b self' :
    used eval self ->
    match Calculator.calculate self a operator b with
    | Calculator.Calculated r => left_behind r
    | Calculator.InvalidOperator _ self'' => Some self''
    end = Some self' ->
    used eval self'
| used_evaluate_expression self expression self' :
    used eval self ->
    left_behind (Calculator.evaluate_expression eval self expression)
    = Some self' ->
    used eval self'.

(** *** The window *)

(** An entry of [plotted_functions] as the window needs it: a text that is
    not empty and has no white space around it, as many x as y values, at
    least one and at most 500, finite y values, and a colour of the
    palette. *)
Definition plotted_ok (p : CalculatorApp.plotted) : Prop :=
  CalculatorApp.func_string p <> ""
  /\ strip (CalculatorApp.func_string p) = CalculatorApp.func_string p
  /\ CalculatorApp.x_vals p <> nil
  /\ length (CalculatorApp.x_vals p) = length (CalculatorApp.y_vals p)
  /\ (length (CalculatorApp.x_vals p) <= 500)%nat
  /\ Forall (fun y => is_finite y = true) (CalculatorApp.y_vals p)
  /\ In (CalculatorApp.color p) CalculatorApp.PLOT_COLORS.

(** [editing_index] is [None] or an index of [plotted_functions]. *)
Definition editing_in_range (self : CalculatorApp.CalculatorApp) : Prop :=
  match CalculatorApp.editing_index self with
  | None => True
  | Some index =>
      (0 <= index
       < Z.of_nat (length (CalculatorApp.plotted_functions self)))%Z
  end.

Definition consistent (self : CalculatorApp.CalculatorApp) : Prop :=
  Forall plotted_ok (CalculatorApp.plotted_functions self)
  /\ editing_in_range self
  /\ CalculatorApp.grapher self = Grapher.__init__.

(** The user types into the display. *)
Definition type_display (text : string) (self : CalculatorApp.CalculatorApp)
    : CalculatorApp.CalculatorApp :=
  CalculatorApp.set_panel (CalculatorApp.expression self)
    (CalculatorApp.just_evaluated self) text (CalculatorApp.result_var self)
    self.

(** The windows that the callbacks and the typing of the user lead to,
    from the window as [__init__] leaves it, for given behaviours of
    [float], of the two drawing methods and of the interpreter.  A callback
    that an exception leaves, leaves the window as it is at that point. *)
Section Reachable.
Variable float_of_text : string -> outcome float.
Variable _update_function_list : CalculatorApp.CalculatorApp -> CalculatorApp.drawing.
Variable _redraw_graph : CalculatorApp.CalculatorApp -> CalculatorApp.drawing.
Variable eval : Frames.interpreter (Frames.frames CalculatorApp.CalculatorApp).
Variable eval_replotting :
  Frames.interpreter (Frames.frames CalculatorApp.replotting).

Inductive reachable : CalculatorApp.CalculatorApp -> Prop :=
| reach_init : reachable CalculatorApp.__init__
| reach_type_function self text :
    reachable self -> reachable (CalculatorApp.set_function_var text self)
| reach_type_display self text :
    reachable self -> reachable (type_display text self)
| reach_append self text :
    reachable self ->
    reachable (CalculatorApp._append_to_expression self text)
| reach_clear_all self :
    reachable self -> reachable (CalculatorApp._clear_all self)
| reach_backspace self :
    reachable self -> reachable (CalculatorApp._backspace self)
| reach_toggle_sign self :
    reachable self -> reachable (CalculatorApp._toggle_sign self)
| reach_select self selection :
    reachable self ->
    reachable (CalculatorApp._on_function_select self selection)
| reach_cancel_edit self :
    reachable self -> reachable (CalculatorApp._cancel_edit self)
| reach_add_or_update self x_min_var x_max_var shown self' :
    reachable self ->
    CalculatorApp._add_or_update_function float_of_text x_min_var x_max_var
      _update_function_list _redraw_graph eval self
    = CalculatorApp.Shows shown self' ->
    reachable self'
| reach_remove self selection :
    reachable self ->
    reachable (fst (CalculatorApp._remove_selected_function self selection))
| reach_replot self x_min_var x_max_var shown self' :
    reachable self ->
    CalculatorApp._replot_all float_of_text x_min_var x_max_var
      _redraw_graph eval_replotting self
    = CalculatorApp.Shows shown self' ->
    reachable self'
| reach_replot_escapes self x_min_var x_max_var exn self' :
    reachable self ->
    CalculatorApp._replot_all float_of_text x_min_var x_max_var
      _redraw_graph eval_replotting self
    = CalculatorApp.Escapes exn self' ->
    reachable self'
| reach_clear_graph self :
    reachable self -> reachable (CalculatorApp._clear_graph self).
End Reachable.

(** [float] on the texts the two range entries hold when the window opens;
    silent on any other text. *)
Definition float_of_default (text : string) : outcome float :=
  if String.eqb text "-10" then Returns (-10)%float
  else if String.eqb text "10" then Returns 10%float
  else Unmodelled.

(** Drawing methods that return. *)
Definition drawn (self : CalculatorApp.CalculatorApp) : CalculatorApp.drawing :=
  CalculatorApp.Drawn.

(** The window a callback leaves. *)
Definition window_left (c : CalculatorApp.callback)
    : option CalculatorApp.CalculatorApp :=
  match c with
  | CalculatorApp.Shows _ self' | CalculatorApp.Escapes _ self' => Some self'
  | CalculatorApp.Unknown => None
  end.

(** The button of the function entry, pressed with the range entries as
    they are when the window opens, the drawing methods returning and the
    text being one of [Py.eval]. *)
Definition press_add_or_update (self : CalculatorApp.CalculatorApp)
    : CalculatorApp.callback :=
  CalculatorApp._add_or_update_function float_of_default "-10" "10" drawn drawn
    (Frames.pure Py.eval) self.

(** The window after ["2x+1"] has been typed for the function and added. *)
Definition window_with_a_line : CalculatorApp.CalculatorApp :=
  match window_left
          (press_add_or_update
             (CalculatorApp.set_function_var "2x+1" CalculatorApp.__init__)) with
  | Some self => self
  | None => CalculatorApp.__init__
  end.

(** That window after its line has been selected, and after the button has
    then been pressed. *)
Definition window_in_edit_mode : CalculatorApp.CalculatorApp :=
  CalculatorApp._on_function_select window_with_a_line (0%Z :: nil).

Definition window_after_update : CalculatorApp.CalculatorApp :=
  match window_left (press_add_or_update window_in_edit_mode) with
  | Some self => self
  | None => CalculatorApp.__init__
  end.

(** *** What the two buttons of the graph do *)

(** The window after the list has been changed to [fs']: in add mode the
    entry is emptied, in edit mode edit mode is left as well. *)
Definition after_plotting (self : CalculatorApp.CalculatorApp)
    (fs' : list CalculatorApp.plotted) : CalculatorApp.CalculatorApp :=
  CalculatorApp._cancel_edit (CalculatorApp.set_plotted_functions fs' self).

(** What the button has done when the list has changed. *)
Definition plotted_by (self : CalculatorApp.CalculatorApp)
    (float_of_text : string -> outcome float) (x_min_var x_max_var : string)
    (self' : CalculatorApp.CalculatorApp) : Prop :=
  let text := strip (CalculatorApp.function_var self) in
  let fs := CalculatorApp.plotted_functions self in
  text <> ""
  /\ exists x_min x_max xs ys,
       float_of_text x_min_var = Returns x_min
       /\ float_of_text x_max_var = Returns x_max
       /\ (x_max <=? x_min)%float = false
       /\ xs <> nil /\ length xs = length ys /\ (length xs <= 500)%nat
       /\ finite_values ys
       /\ exists fs',
            self' = after_plotting self fs'
            /\ match CalculatorApp.editing_index self with
               | None =>
                   existsb (fun p => String.eqb (CalculatorApp.func_string p) text)
                     fs = false
                   /\ exists c,
                        nth_error CalculatorApp.PLOT_COLORS
                          (length fs mod 10) = Some c
                        /\ fs' = fs ++ {| CalculatorApp.func_string := text;
                                          CalculatorApp.x_vals := xs;
                                          CalculatorApp.y_vals := ys;
                                          CalculatorApp.color := c |} :: nil
               | Some index =>
                   exists i old,
                     CalculatorApp.position fs index = Some i
                     /\ nth_error fs i = Some old
                     /\ fs' = CalculatorApp.replace_nth i
                                {| CalculatorApp.func_string := text;
                                   CalculatorApp.x_vals := xs;
                                   CalculatorApp.y_vals := ys;
                                   CalculatorApp.color :=
                                     CalculatorApp.color old |} fs
               end.

(** The messages that tell that the list has not been touched: all but
    those of an exception without a name, which may be one of the drawing
    methods. *)
Definition before_the_change (shown : CalculatorApp.dialog) : bool :=
  match shown with
  | CalculatorApp.Nothing | CalculatorApp.CouldNotPlot None
  | CalculatorApp.CouldNotReplot None | CalculatorApp.ErrorOccurred None =>
      false
  | _ => true
  end.

(** The list has been plotted again: the same texts and colours in the
    same order, and entries in order if they were. *)
Definition replotted (self self' : CalculatorApp.CalculatorApp) : Prop :=
  exists new_plotted,
    self' = CalculatorApp.set_plotted_functions new_plotted self
    /\ map CalculatorApp.func_string new_plotted
       = map CalculatorApp.func_string (CalculatorApp.plotted_functions self)
    /\ map CalculatorApp.color new_plotted
       = map CalculatorApp.color (CalculatorApp.plotted_functions self)
    /\ (Forall plotted_ok (CalculatorApp.plotted_functions self) ->
        Forall plotted_ok new_plotted).

(** ** Facts about the string operations *)

Section StringFacts.
Variable p : ascii -> bool.

Lemma rstrip_by_cons c t :
  p c = false -> rstrip_by p (String c t) = String c (rstrip_by p t).
Proof. intros H. simpl. rewrite H. destruct (rstrip_by p t); reflexivity. Qed.

Lemma rstrip_by_app a b :
  PyStr.all_chars (fun c => negb (p c)) a = true ->
  rstrip_by p (a +:+ b) = a +:+ rstrip_by p b.
Proof.
  induction a as [|c a IH]; simpl; intros H; [reflexivity|].
  apply andb_prop in H as [Hc Ha]. apply negb_true_iff in Hc.
  change (rstrip_by p (String c (a +:+ b)) = String c (a +:+ rstrip_by p b)).
  rewrite rstrip_by_cons, IH; auto.
Qed.

Lemma rstrip_by_idem s : rstrip_by p (rstrip_by p s) = rstrip_by p s.
Proof.
  induction s as [|c t IH]; [reflexivity|].
  simpl. destruct (rstrip_by p t) as [|d r] eqn:E.
  - destruct (p c) eqn:Hc; simpl; [reflexivity|]. rewrite Hc. reflexivity.
  - remember (String d r) as u eqn:Eu. simpl. rewrite IH, Eu. reflexivity.
Qed.

Lemma lstrip_rstrip s :
  lstrip_by p (rstrip_by p s) = rstrip_by p (lstrip_by p s).
Proof.
  induction s as [|c t IH]; [reflexivity|].
  destruct (p c) eqn:Hc.
  - simpl. rewrite Hc. destruct (rstrip_by p t) as [|d r] eqn:E.
    + rewrite <- IH. reflexivity.
    + rewrite <- IH. simpl. rewrite Hc. reflexivity.
  - rewrite rstrip_by_cons by assumption. simpl. rewrite Hc.
    rewrite rstrip_by_cons by assumption. reflexivity.
Qed.

Lemma lstrip_by_app a b :
  PyStr.all_chars p a = true -> lstrip_by p (a +:+ b) = lstrip_by p b.
Proof.
  induction a as [|c a IH]; simpl; intros H; [reflexivity|].
  apply andb_prop in H as [Hc Ha]. rewrite Hc. auto.
Qed.

Lemma lstrip_by_head s :
  head_is p s = false -> lstrip_by p s = s.
Proof. destruct s as [|c t]; simpl; [reflexivity|]. intros ->. reflexivity. Qed.

Lemma head_is_rstrip_by (q : ascii -> bool) s :
  head_is q s = false -> head_is q (rstrip_by p s) = false.
Proof.
  destruct s as [|c t]; simpl; [reflexivity|]. intros H.
  destruct (rstrip_by p t); [destruct (p c)|]; simpl; auto.
Qed.
End StringFacts.

Lemma strip_rstrip s : strip (rstrip_by isspace s) = strip s.
Proof.
  unfold strip. rewrite lstrip_rstrip, rstrip_by_idem. reflexivity.
Qed.

Lemma equals_signs_all n : PyStr.all_chars (is_char "=") (equals_signs n) = true.
Proof. induction n; simpl; auto. Qed.

Lemma equals_signs_nospace n :
  PyStr.all_chars (fun c => negb (isspace c)) (equals_signs n) = true.
Proof. induction n; simpl; auto. Qed.

Lemma parse_function_header h n body :
  header_spelling h ->
  head_is (is_char "=") body = false ->
  startswith (lower (strip body)) "f(x)" = false ->
  Grapher.parse_function (h +:+ equals_signs n +:+ body)
  = Grapher.parse_function body.
Proof.
  intros Hh Hb Hs.
  assert (E : strip (h +:+ equals_signs n +:+ body)
              = h +:+ equals_signs n +:+ rstrip_by isspace body).
  { unfold strip.
    replace (lstrip_by isspace (h +:+ equals_signs n +:+ body))
      with (h +:+ equals_signs n +:+ body)
      by (destruct Hh as [->|[->|[->| ->]]]; reflexivity).
    rewrite rstrip_by_app
      by (destruct Hh as [->|[->|[->| ->]]]; reflexivity).
    rewrite rstrip_by_app by apply equals_signs_nospace. reflexivity. }
  unfold Grapher.parse_function. rewrite E, Hs.
  replace (startswith (lower (h +:+ equals_signs n +:+ rstrip_by isspace body)) "f(x)")
    with true by (destruct Hh as [->|[->|[->| ->]]]; reflexivity).
  replace (slice_from 4 (h +:+ equals_signs n +:+ rstrip_by isspace body))
    with (equals_signs n +:+ rstrip_by isspace body)
    by (destruct Hh as [->|[->|[->| ->]]]; reflexivity).
  rewrite lstrip_by_app by apply equals_signs_all.
  rewrite lstrip_by_head by (apply head_is_rstrip_by; assumption).
  rewrite strip_rstrip. reflexivity.
Qed.

(** ** The substitutions as one pass *)

Section OnePass.
Variable first : ascii -> bool.
Variable second : string -> option nat.
Hypothesis second_clear :
  forall t n, second t = Some n -> none_first first n t = true.

Lemma sub_star_insert s : forall k,
  none_first first k s = true ->
  sub_star first second k s = insert_stars (boundary first second) s.
Proof.
  induction s as [|a t IH]; intros k Hk; [reflexivity|].
  destruct k as [|k]; simpl.
  - unfold boundary, matches. destruct (first a); simpl.
    + destruct (second t) as [n|] eqn:E.
      * rewrite (IH n) by eauto. reflexivity.
      * rewrite (IH 0%nat) by (destruct t; reflexivity). reflexivity.
    + rewrite (IH 0%nat) by (destruct t; reflexivity). reflexivity.
  - simpl in Hk. apply andb_prop in Hk as [Ha Hk].
    apply negb_true_iff in Ha. unfold boundary. rewrite Ha. simpl.
    rewrite (IH k) by assumption. reflexivity.
Qed.

Lemma sub_star_one_pass s :
  sub_star first second 0 s = insert_stars (boundary first second) s.
Proof. apply sub_star_insert. destruct s; reflexivity. Qed.
End OnePass.

Lemma one_char_clear (first q : ascii -> bool) :
  (forall c, q c = true -> first c = false) ->
  forall t n, one_char q t = Some n -> none_first first n t = true.
Proof.
  intros H [|b t] n; simpl; [discriminate|].
  destruct (q b) eqn:E; [|discriminate]. intros [= <-]. simpl.
  rewrite (H b E). reflexivity.
Qed.

Lemma insert_stars_ext b b' s :
  (forall a t, b a t = b' a t) -> insert_stars b s = insert_stars b' s.
Proof.
  intros H. induction s as [|a t IH]; simpl; [reflexivity|].
  rewrite H, IH. reflexivity.
Qed.

Lemma head_is_insert_stars q b t :
  head_is q (insert_stars b t) = head_is q t.
Proof. destruct t as [|a t]; simpl; [reflexivity|]. destruct (b a t); reflexivity. Qed.

Lemma matches_one_char q t : matches (one_char q) t = head_is q t.
Proof. destruct t as [|a t]; unfold matches; simpl; [reflexivity|]. destruct (q a); reflexivity. Qed.

Lemma startswith_insert_stars b w : forall t,
  (forall c t', Calculator.char_in c w = true -> b c t' = false) ->
  startswith (insert_stars b t) w = startswith t w.
Proof.
  induction w as [|c w IH]; intros t H; [reflexivity|].
  destruct t as [|a t]; [reflexivity|]. simpl.
  destruct (Ascii.eqb a c) eqn:E.
  - apply Ascii.eqb_eq in E. subst a.
    rewrite (H c t) by (simpl; rewrite Ascii.eqb_refl; reflexivity).
    simpl. rewrite Ascii.eqb_refl. simpl. apply IH.
    intros d t' Hd. apply H. simpl. rewrite Hd. apply orb_true_r.
  - destruct (b a t); simpl; rewrite E; reflexivity.
Qed.

Lemma compose_passes b1 f2 s2 s :
  f2 "*"%char = false ->
  (forall t, matches s2 (String "*" t) = false) ->
  (forall t, matches s2 (insert_stars b1 t) = matches s2 t) ->
  insert_stars (boundary f2 s2) (insert_stars b1 s)
  = insert_stars (fun a t => b1 a t || boundary f2 s2 a t) s.
Proof.
  intros Hstar Hafter Hstable.
  induction s as [|a t IH]; [reflexivity|].
  cbn [insert_stars]. destruct (b1 a t) eqn:E1; cbn [insert_stars orb].
  - unfold boundary at 1. rewrite Hafter, andb_false_r.
    unfold boundary at 1. rewrite Hstar. cbn [andb]. do 2 f_equal. exact IH.
  - assert (boundary f2 s2 a (insert_stars b1 t) = boundary f2 s2 a t) as ->
      by (unfold boundary; rewrite Hstable; reflexivity).
    destruct (boundary f2 s2 a t); [do 2 f_equal | f_equal]; exact IH.
Qed.

Lemma startswith_clear first w : forall t,
  startswith t w = true ->
  PyStr.all_chars (fun c => negb (first c)) w = true ->
  none_first first (String.length w) t = true.
Proof.
  induction w as [|c w IH]; intros t Ht Hw; [reflexivity|].
  destruct t as [|a t]; [discriminate|]. simpl in *.
  apply andb_prop in Ht as [Ha Ht]. apply andb_prop in Hw as [Hc Hw].
  apply Ascii.eqb_eq in Ha. subst a. rewrite Hc. simpl. auto.
Qed.

Lemma one_of_words_clear first ws :
  List.forallb (PyStr.all_chars (fun c => negb (first c))) ws = true ->
  forall t n, one_of_words ws t = Some n -> none_first first n t = true.
Proof.
  induction ws as [|w ws IH]; intros Hws t n; simpl; [discriminate|].
  simpl in Hws. apply andb_prop in Hws as [Hw Hws].
  destruct (startswith t w) eqn:E.
  - intros [= <-]. apply startswith_clear; assumption.
  - apply IH. assumption.
Qed.

Lemma one_of_words_insert_stars b ws : forall t,
  (forall w c t', In w ws -> Calculator.char_in c w = true -> b c t' = false) ->
  one_of_words ws (insert_stars b t) = one_of_words ws t.
Proof.
  induction ws as [|w ws IH]; intros t H; [reflexivity|]. simpl.
  rewrite startswith_insert_stars by (intros c t'; apply H; left; reflexivity).
  rewrite IH by (intros w' c t' Hin; apply H; right; assumption).
  reflexivity.
Qed.

Ltac clear_one_char :=
  apply one_char_clear; intros c Hc;
  first [ unfold PyStr.is_char in Hc; apply Ascii.eqb_eq in Hc; subst c;
          reflexivity
        | unfold PyStr.is_char; apply Ascii.eqb_neq; intros <-;
          vm_compute in Hc; discriminate Hc ].

Ltac stable_head :=
  intros; rewrite ?matches_one_char, ?head_is_insert_stars; reflexivity.

Lemma prepare_expression_one_pass expression :
  Calculator._prepare_expression expression
  = insert_stars calculator_boundary (calculator_text expression).
Proof.
  unfold Calculator._prepare_expression. fold (calculator_text expression).
  rewrite !sub_star_one_pass by clear_one_char.
  rewrite (compose_passes (boundary isdigit _)) by (reflexivity || stable_head).
  rewrite compose_passes by (reflexivity || stable_head).
  apply insert_stars_ext. intros a t. unfold boundary, calculator_boundary.
  rewrite !matches_one_char. reflexivity.
Qed.

Lemma matches_words t :
  matches (one_of_words ("sin" :: "cos" :: "tan" :: "sqrt" :: nil)) t
  = startswith t "sin" || startswith t "cos" || startswith t "tan"
    || startswith t "sqrt".
Proof.
  unfold matches, one_of_words.
  destruct (startswith t "sin"), (startswith t "cos"),
    (startswith t "tan"), (startswith t "sqrt"); reflexivity.
Qed.

Lemma parse_function_one_pass func_string :
  Grapher.parse_function func_string
  = insert_stars grapher_boundary (grapher_text func_string).
Proof.
  unfold Grapher.parse_function. fold (grapher_text func_string).
  rewrite (sub_star_one_pass isdigit (one_char (is_char "x"))) by clear_one_char.
  rewrite (sub_star_one_pass isdigit (one_of_words _))
    by (apply one_of_words_clear; reflexivity).
  rewrite !sub_star_one_pass by clear_one_char.
  rewrite (compose_passes (boundary isdigit (one_char _)));
    [| reflexivity | intros; rewrite !matches_words; reflexivity
     | intros t; unfold matches; rewrite one_of_words_insert_stars; [reflexivity|] ].
  2:{ intros w c t' Hin Hc. unfold boundary.
      assert (isdigit c = false) as ->; [|reflexivity].
      simpl in Hin. destruct Hin as [<-|[<-|[<-|[<-|[]]]]]; char_cases Hc. }
  rewrite (compose_passes _ (is_char "x")) by (reflexivity || stable_head).
  rewrite (compose_passes _ _ (one_char (fun c => is_char "x" c || _)))
    by (reflexivity || stable_head).
  rewrite compose_passes by (reflexivity || stable_head).
  apply insert_stars_ext. intros a t. unfold boundary, grapher_boundary.
  rewrite !matches_one_char, matches_words. reflexivity.
Qed.

(** ** The parser, one unfolding at a time *)

Section ParserEquations.
Variable f : nat.

Lemma parse_sum_S ts :
  parse_sum (S f) ts
  = match parse_term f ts with
    | Some (l, r) => parse_sum_rest f l r
    | None => None
    end.
Proof. reflexivity. Qed.

Lemma parse_sum_rest_S l ts :
  parse_sum_rest (S f) l ts
  = match ts with
    | TPlus :: r =>
        match parse_term f r with
        | Some (e, r') => parse_sum_rest f (BinOp l Add e) r'
        | None => None
        end
    | TMinus :: r =>
        match parse_term f r with
        | Some (e, r') => parse_sum_rest f (BinOp l Sub e) r'
        | None => None
        end
    | _ => Some (l, ts)
    end.
Proof. reflexivity. Qed.

Lemma parse_term_S ts :
  parse_term (S f) ts
  = match parse_factor f ts with
    | Some (l, r) => parse_term_rest f l r
    | None => None
    end.
Proof. reflexivity. Qed.

Lemma parse_term_rest_S l ts :
  parse_term_rest (S f) l ts
  = match ts with
    | TStar :: r =>
        match parse_factor f r with
        | Some (e, r') => parse_term_rest f (BinOp l Mult e) r'
        | None => None
        end
    | TSlash :: r =>
        match parse_factor f r with
        | Some (e, r') => parse_term_rest f (BinOp l Div e) r'
        | None => None
        end
    | TDoubleSlash :: r =>
        match parse_factor f r with
        | Some (e, r') => parse_term_rest f (BinOp l FloorDiv e) r'
        | None => None
        end
    | _ => Some (l, ts)
    end.
Proof. reflexivity. Qed.

Lemma parse_factor_S ts :
  parse_factor (S f) ts
  = match ts with
    | TPlus :: r =>
        match parse_factor f r with
        | Some (e, r') => Some (UnaryOp UAdd e, r')
        | None => None
        end
    | TMinus :: r =>
        match parse_factor f r with
        | Some (e, r') => Some (UnaryOp USub e, r')
        | None => None
        end
    | _ => parse_power f ts
    end.
Proof. reflexivity. Qed.

Lemma parse_power_S ts :
  parse_power (S f) ts
  = match parse_primary f ts with
    | Some (b, TDoubleStar :: r) =>
        match parse_factor f r with
        | Some (e, r') => Some (BinOp b Pow e, r')
        | None => None
        end
    | other => other
    end.
Proof. reflexivity. Qed.

Lemma parse_primary_S ts :
  parse_primary (S f) ts
  = match parse_atom f ts with
    | Some (a, r) => parse_trailers f a r
    | None => None
    end.
Proof. reflexivity. Qed.

Lemma parse_trailers_S a ts :
  parse_trailers (S f) a ts
  = match ts with
    | TLPar :: TRPar :: r => parse_trailers f (Call a nil) r
    | TLPar :: r =>
        match parse_args f r with
        | Some (args, r') => parse_trailers f (Call a args) r'
        | None => None
        end
    | _ => Some (a, ts)
    end.
Proof. reflexivity. Qed.

Lemma parse_args_S ts :
  parse_args (S f) ts
  = match parse_sum f ts with
    | Some (e, TComma :: r) =>
        match parse_args f r with
        | Some (es, r') => Some (e :: es, r')
        | None => None
        end
    | Some (e, TRPar :: r) => Some (e :: nil, r)
    | _ => None
    end.
Proof. reflexivity. Qed.

Lemma parse_atom_S ts :
  parse_atom (S f) ts
  = match ts with
    | TNumber v :: r => Some (Constant v, r)
    | TName id :: r => Some (Name id, r)
    | TLPar :: r =>
        match parse_sum f r with
        | Some (e, TRPar :: r') => Some (e, r')
        | _ => None
        end
    | _ => None
    end.
Proof. reflexivity. Qed.
End ParserEquations.

Lemma parser_monotone_all f : parser_monotone f.
Proof.
  induction f as [|f IH].
  - constructor; intros ? **; discriminate.
  - constructor.
    + intros ts r H. rewrite parse_sum_S in *. more_fuel IH.
      apply (mono_sum_rest _ IH); assumption.
    + intros l ts r H. rewrite parse_sum_rest_S in *. more_fuel IH;
        first [assumption | apply (mono_sum_rest _ IH); assumption].
    + intros ts r H. rewrite parse_term_S in *. more_fuel IH.
      apply (mono_term_rest _ IH); assumption.
    + intros l ts r H. rewrite parse_term_rest_S in *. more_fuel IH;
        first [assumption | apply (mono_term_rest _ IH); assumption].
    + intros ts r H. rewrite parse_factor_S in *. more_fuel IH;
        first [assumption | apply (mono_power _ IH); assumption].
    + intros ts r H. rewrite parse_power_S in *. more_fuel IH; assumption.
    + intros ts r H. rewrite parse_primary_S in *. more_fuel IH.
      apply (mono_trailers _ IH); assumption.
    + intros a ts r H. rewrite parse_trailers_S in *. more_fuel IH;
        first [assumption | apply (mono_trailers _ IH); assumption].
    + intros ts r H. rewrite parse_args_S in *. more_fuel IH; assumption.
    + intros ts r H. rewrite parse_atom_S in *. more_fuel IH; assumption.
Qed.

Lemma more_fuel_le {A B : Type} (p : nat -> A -> option B) :
  (forall f, monotone p f) ->
  forall f f' x r, f <= f' -> p f x = Some r -> p f' x = Some r.
Proof. intros Hp f f' x r Hle. induction Hle; auto. intros. apply Hp. auto. Qed.

Lemma more_fuel_le2 {A B C : Type} (p : nat -> A -> B -> option C) :
  (forall f, monotone2 p f) ->
  forall f f' x y r, f <= f' -> p f x y = Some r -> p f' x y = Some r.
Proof. intros Hp f f' x y r Hle. induction Hle; auto. intros. apply Hp. auto. Qed.

Lemma sum_rest_le f f' l ts r :
  f <= f' -> parse_sum_rest f l ts = Some r -> parse_sum_rest f' l ts = Some r.
Proof.
  apply (more_fuel_le2 parse_sum_rest).
  intros g. apply mono_sum_rest, parser_monotone_all.
Qed.

Lemma term_rest_le f f' l ts r :
  f <= f' -> parse_term_rest f l ts = Some r -> parse_term_rest f' l ts = Some r.
Proof.
  apply (more_fuel_le2 parse_term_rest).
  intros g. apply mono_term_rest, parser_monotone_all.
Qed.

(** ** PEMDAS: the parser reads the usual notation as intended *)

Lemma trailers_stop f e rest :
  after_primary rest = true -> parse_trailers (S f) e rest = Some (e, rest).
Proof. intros H. rewrite parse_trailers_S. by_head rest H. Qed.

Lemma term_rest_stop f e rest :
  after_term rest = true -> parse_term_rest (S f) e rest = Some (e, rest).
Proof. intros H. rewrite parse_term_rest_S. by_head rest H. Qed.

Lemma sum_rest_stop f e rest :
  after_sum rest = true -> parse_sum_rest (S f) e rest = Some (e, rest).
Proof. intros H. rewrite parse_sum_rest_S. by_head rest H. Qed.

Lemma after_term_power rest : after_term rest = true -> after_power rest = true.
Proof. intros H. by_head rest H. Qed.
Lemma after_power_primary rest : after_power rest = true -> after_primary rest = true.
Proof. intros H. by_head rest H. Qed.
Lemma after_sum_term rest : after_sum rest = true -> after_term rest = true.
Proof. intros H. by_head rest H. Qed.

Lemma factor_of_primary ts e :
  starts_atom ts = true -> reads_primary ts e -> reads_factor ts e.
Proof.
  intros Hts Hp rest f Hrest Hf.
  destruct f as [|[|f]]; [lia | lia |].
  rewrite parse_factor_S.
  assert (parse_power (S f) (ts ++ rest) = Some (e, rest)) as E.
  { rewrite parse_power_S, Hp; [by_head rest Hrest | | lia].
    apply after_power_primary; assumption. }
  destruct ts as [|[] ts]; try discriminate Hts; exact E.
Qed.

Lemma term_of_factor ts e : reads_factor ts e -> reads_term ts e.
Proof.
  intros Hf rest res g f Hrest Hres Hfuel.
  rewrite parse_term_S, Hf; [| assumption | lia].
  apply (term_rest_le g); [lia | assumption].
Qed.

Lemma whole_term ts e : reads_term ts e -> reads_whole_term ts e.
Proof.
  intros Ht rest f Hrest Hfuel. destruct f as [|f]; [lia|].
  apply (Ht rest (e, rest) 1%nat).
  - apply after_term_power; assumption.
  - apply term_rest_stop; assumption.
  - lia.
Qed.

Lemma sum_of_term ts e : reads_term ts e -> reads_sum ts e.
Proof.
  intros Ht rest res g f Hrest Hres Hfuel.
  rewrite parse_sum_S, (whole_term ts e Ht); [| assumption | lia].
  apply (sum_rest_le g); [lia | assumption].
Qed.

Lemma whole_sum ts e : reads_sum ts e -> reads_whole_sum ts e.
Proof.
  intros Hs rest f Hrest Hfuel. destruct f as [|f]; [lia|].
  apply (Hs rest (e, rest) 1%nat).
  - apply after_sum_term; assumption.
  - apply sum_rest_stop; assumption.
  - lia.
Qed.

Lemma primary_of_parenthesised ts e :
  reads_sum ts e -> reads_primary (TLPar :: ts ++ TRPar :: nil) e.
Proof.
  intros Hs rest f Hrest Hfuel. apply whole_sum in Hs.
  simpl length in Hfuel. rewrite length_app in Hfuel. simpl in Hfuel.
  destruct f as [|[|f]]; [lia | lia |].
  rewrite parse_primary_S, parse_atom_S. simpl app. rewrite <- app_assoc. simpl app.
  rewrite Hs; [| reflexivity | lia].
  apply trailers_stop; assumption.
Qed.

Lemma show_eq lvl a :
  show lvl a
  = if (lvl <=? level a)%nat then show 0 a
    else TLPar :: show 0 a ++ TRPar :: nil.
Proof. destruct a as [v|b|b|l [] r]; reflexivity. Qed.

Lemma show_parenthesised lvl a :
  (level a < lvl)%nat -> show lvl a = TLPar :: show 0 a ++ TRPar :: nil.
Proof.
  intros H. rewrite show_eq. apply Nat.leb_gt in H. rewrite H. reflexivity.
Qed.

Lemma show_plain lvl a : (lvl <= level a)%nat -> show lvl a = show 0 a.
Proof.
  intros H. rewrite show_eq. apply Nat.leb_le in H. rewrite H. reflexivity.
Qed.

Lemma starts_atom_parenthesised ts : starts_atom (TLPar :: ts) = true.
Proof. reflexivity. Qed.

Lemma reads_from_sum a :
  level a = 0%nat -> reads_sum (show 0 a) (tree a) -> reads a.
Proof.
  intros L H.
  assert (reads_primary (TLPar :: show 0 a ++ TRPar :: nil) (tree a)) as Hp
    by (apply primary_of_parenthesised; assumption).
  constructor; [assumption | | |]; rewrite show_parenthesised by lia;
    auto using term_of_factor, factor_of_primary.
Qed.

Lemma reads_from_term a :
  level a = 1%nat -> reads_term (show 0 a) (tree a) -> reads a.
Proof.
  intros L H.
  assert (reads_primary (TLPar :: show 0 a ++ TRPar :: nil) (tree a)) as Hp
    by (apply primary_of_parenthesised, sum_of_term; assumption).
  constructor; [auto using sum_of_term | rewrite show_plain by lia; assumption | |];
    rewrite show_parenthesised by lia; auto using factor_of_primary.
Qed.

Lemma reads_from_factor a :
  (level a = 2 \/ level a = 3)%nat -> reads_factor (show 0 a) (tree a) -> reads a.
Proof.
  intros L H.
  assert (reads_primary (TLPar :: show 0 a ++ TRPar :: nil) (tree a)) as Hp
    by (apply primary_of_parenthesised, sum_of_term, term_of_factor; assumption).
  constructor;
    [ auto using sum_of_term, term_of_factor
    | rewrite show_plain by lia; auto using term_of_factor
    | rewrite show_plain by lia; assumption
    | rewrite show_parenthesised by lia; assumption ].
Qed.

Lemma reads_from_primary a :
  level a = 4%nat -> starts_atom (show 0 a) = true ->
  reads_primary (show 0 a) (tree a) -> reads a.
Proof.
  intros L Hs H.
  constructor; rewrite ?show_plain by lia;
    auto using sum_of_term, term_of_factor, factor_of_primary.
Qed.

Lemma starts_atom_show4 a : starts_atom (show 4 a) = true.
Proof. destruct a as [v|b|b|l [] r]; reflexivity. Qed.

Lemma starts_atom_app ts rest :
  starts_atom ts = true -> starts_atom (ts ++ rest) = true.
Proof. destruct ts as [|[] ts]; simpl; auto; discriminate. Qed.

Lemma reads_all a : reads a.
Proof.
  induction a as [v|b IH|b IH|l IHl op r IHr].
  - apply reads_from_primary; [reflexivity | reflexivity |].
    intros rest f Hrest Hfuel. simpl in *.
    destruct f as [|[|f]]; [lia | lia |].
    rewrite parse_primary_S, parse_atom_S. apply trailers_stop; assumption.
  - apply reads_from_primary; [reflexivity | reflexivity |].
    apply (primary_of_parenthesised _ _ (at_sum _ IH)).
  - apply reads_from_factor; [left; reflexivity|].
    intros rest f Hrest Hfuel. change (show 0 (Neg b)) with (TMinus :: show 2 b) in *.
    simpl in *. destruct f as [|f]; [lia|].
    rewrite parse_factor_S, (at_factor _ IH); [reflexivity | assumption | lia].
  - destruct op.
    + (* l + r *)
      apply reads_from_sum; [reflexivity|].
      intros rest res g f Hrest Hres Hfuel.
      change (show 0 (Bin l Plus r)) with (show 0 l ++ TPlus :: show 1 r) in *.
      rewrite length_app in Hfuel. simpl in Hfuel |- *.
      rewrite <- app_assoc. simpl app.
      apply (at_sum _ IHl _ res (S (Nat.max g (9 * length (show 1 r) + 4))));
        [reflexivity | | lia].
      rewrite parse_sum_rest_S, (whole_term _ _ (at_term _ IHr)); [| assumption | lia].
      apply (sum_rest_le g); [lia | assumption].
    + apply reads_from_sum; [reflexivity|].
      intros rest res g f Hrest Hres Hfuel.
      change (show 0 (Bin l Minus r)) with (show 0 l ++ TMinus :: show 1 r) in *.
      rewrite length_app in Hfuel. simpl in Hfuel |- *.
      rewrite <- app_assoc. simpl app.
      apply (at_sum _ IHl _ res (S (Nat.max g (9 * length (show 1 r) + 4))));
        [reflexivity | | lia].
      rewrite parse_sum_rest_S, (whole_term _ _ (at_term _ IHr)); [| assumption | lia].
      apply (sum_rest_le g); [lia | assumption].
    + apply reads_from_term; [reflexivity|].
      intros rest res g f Hrest Hres Hfuel.
      change (show 0 (Bin l Times r)) with (show 1 l ++ TStar :: show 2 r) in *.
      rewrite length_app in Hfuel. simpl in Hfuel |- *.
      rewrite <- app_assoc. simpl app.
      apply (at_term _ IHl _ res (S (Nat.max g (9 * length (show 2 r) + 2))));
        [reflexivity | | lia].
      rewrite parse_term_rest_S, (at_factor _ IHr); [| assumption | lia].
      apply (term_rest_le g); [lia | assumption].
    + apply reads_from_term; [reflexivity|].
      intros rest res g f Hrest Hres Hfuel.
      change (show 0 (Bin l Divide r)) with (show 1 l ++ TSlash :: show 2 r) in *.
      rewrite length_app in Hfuel. simpl in Hfuel |- *.
      rewrite <- app_assoc. simpl app.
      apply (at_term _ IHl _ res (S (Nat.max g (9 * length (show 2 r) + 2))));
        [reflexivity | | lia].
      rewrite parse_term_rest_S, (at_factor _ IHr); [| assumption | lia].
      apply (term_rest_le g); [lia | assumption].
    + apply reads_from_factor; [right; reflexivity|].
      intros rest f Hrest Hfuel.
      change (show 0 (Bin l Power r)) with (show 4 l ++ TDoubleStar :: show 2 r) in *.
      rewrite length_app in Hfuel. simpl in Hfuel |- *.
      rewrite <- app_assoc. simpl app.
      destruct f as [|[|f]]; [lia | lia |].
      assert (parse_power (S f) (show 4 l ++ TDoubleStar :: show 2 r ++ rest)
              = Some (tree (Bin l Power r), rest)) as E.
      { rewrite parse_power_S, (at_primary _ IHl); [| reflexivity | lia].
        rewrite (at_factor _ IHr); [reflexivity | assumption | lia]. }
      rewrite parse_factor_S.
      pose proof (starts_atom_show4 l) as Hl.
      destruct (show 4 l) as [|[] ts]; try discriminate Hl; exact E.
Qed.

Lemma parse_show a : parse (show 0 a) = Some (tree a).
Proof.
  unfold parse.
  pose proof (whole_sum _ _ (at_sum _ (reads_all a)) nil
                (9 * S (length (show 0 a)))%nat eq_refl) as H.
  rewrite app_nil_r in H. rewrite H by lia. reflexivity.
Qed.

(** ** What a call leaves behind *)

Lemma evaluate_expression_inv (ev : evaluator) self expression r :
  Calculator.evaluate_expression ev self expression = r ->
  match r with
  | Returned f self' =>
      is_finite f = true
      /\ self' = {| Calculator.last_result := VFloat f;
                    Calculator.math_context := Calculator.math_context self |}
  | Raised _ self' => self' = self
  | NotModelled => True
  end.
Proof.
  unfold Calculator.evaluate_expression, Calculator.handle. intros H.
  case_scrutinee H; subst r; auto.
  all: split; auto; unfold is_finite;
    match goal with E : _ || _ = false |- _ => rewrite E end; reflexivity.
Qed.

Lemma evaluate_inv (ev : evaluator) self expression x r :
  Grapher.evaluate ev self expression x = r ->
  match r with
  | Returned (Some y) self' => is_finite y = true /\ self' = self
  | Returned None self' => self' = self
  | Raised exn self' => Grapher.caught exn = false /\ self' = self
  | NotModelled => True
  end.
Proof.
  unfold Grapher.evaluate, Grapher.handle. intros H.
  case_scrutinee H; subst r; auto.
  all: split; auto; unfold is_finite;
    match goal with E : negb _ && negb _ = true |- _ =>
      apply andb_prop in E as [E1 E2];
      apply negb_true_iff in E1, E2; rewrite E1, E2 end; reflexivity.
Qed.

Lemma sample_inv (ev : evaluator) self expression x_min step indices :
  forall x_values y_values r,
  Grapher.sample ev self expression x_min step indices x_values y_values = r ->
  Forall (fun y => is_finite y = true) y_values ->
  match r with
  | Returned (_, ys) self' =>
      Forall (fun y => is_finite y = true) ys /\ self' = self
  | Raised exn self' => self' = self
  | NotModelled => True
  end.
Proof.
  induction indices as [|i indices IH]; simpl; intros xs ys r H Hys.
  - subst r. auto.
  - destruct (float_of_int i) as [fi|exn|]; [| subst r; reflexivity | subst r; exact I].
    destruct (Grapher.evaluate ev self expression
                (VFloat (x_min + fi * step)%float)) as [[y|] self'|exn self'|] eqn:E;
      apply evaluate_inv in E.
    + destruct E as [Hy ->]. apply (IH _ _ _ H).
      apply Forall_app. split; [assumption|]. constructor; [assumption|constructor].
    + subst self'. apply (IH _ _ _ H Hys).
    + subst r. apply E.
    + subst r. exact I.
Qed.

Lemma generate_plot_data_inv (ev : evaluator) self func_string x_min x_max n r :
  Grapher.generate_plot_data ev self func_string x_min x_max n = r ->
  match r with
  | Returned (xs, ys) self' =>
      xs <> nil /\ Forall (fun y => is_finite y = true) ys /\ self' = self
  | Raised exn self' => self' = self
  | NotModelled => True
  end.
Proof.
  unfold Grapher.generate_plot_data. intros H.
  destruct (binary_op Div _ _) as [[ | step | ]| exn |];
    try (subst r; exact I); [| subst r; reflexivity].
  destruct (Grapher.sample _ _ _ _ _ _ _ _) as [[xs ys] self'|exn self'|] eqn:E;
    apply sample_inv in E; try (now constructor).
  - destruct E as [Hys ->]. destruct xs; subst r; [reflexivity|].
    repeat split; [discriminate | assumption].
  - subst r. assumption.
  - subst r. exact I.
Qed.

Lemma float_of_int_returns i f : float_of_int i = Returns f -> f = nearest_float i.
Proof.
  unfold float_of_int. destruct (is_infinity (nearest_float i)); [discriminate|].
  intros [= <-]. reflexivity.
Qed.

Lemma combine_snoc {A B} (xs : list A) (ys : list B) x y :
  length xs = length ys ->
  combine (xs ++ x :: nil) (ys ++ y :: nil) = combine xs ys ++ (x, y) :: nil.
Proof.
  revert ys. induction xs as [|a xs IH]; intros [|b ys] H; try discriminate H.
  - reflexivity.
  - simpl. rewrite IH by (simpl in H; lia). reflexivity.
Qed.

Lemma sample_series (ev : evaluator) self expression x_min step indices :
  forall x_values y_values xs ys self',
  Grapher.sample ev self expression x_min step indices x_values y_values
  = Returned (xs, ys) self' ->
  length x_values = length y_values ->
  length xs = length ys
  /\ combine xs ys
     = (combine x_values y_values
        ++ flat_map (kept ev self expression) (sample_points x_min step indices)).
Proof.
  induction indices as [|i indices IH]; simpl; intros x_values y_values xs ys self' H L.
  - injection H as <- <- _. rewrite app_nil_r. auto.
  - destruct (float_of_int i) as [fi| |] eqn:Ei; try discriminate H.
    apply float_of_int_returns in Ei. subst fi. unfold kept at 1.
    destruct (Grapher.evaluate ev self expression
                (VFloat (x_min + nearest_float i * step)%float))
      as [[y|] self1|exn self1|] eqn:E; try discriminate H;
      apply evaluate_inv in E.
    + destruct E as [_ ->].
      apply IH in H; [| rewrite !length_app; simpl; lia].
      destruct H as [H1 H2]. split; [assumption|].
      rewrite H2, combine_snoc by assumption. rewrite <- app_assoc. reflexivity.
    + subst self1. apply IH in H; assumption.
Qed.

Lemma balanced_show a : forall lvl depth rest,
  balanced depth (show lvl a ++ rest) = balanced depth rest.
Proof.
  assert (wrap : forall body : list token,
            (forall depth rest, balanced depth (body ++ rest) = balanced depth rest) ->
            forall depth rest,
            balanced depth ((TLPar :: body ++ TRPar :: nil) ++ rest)
            = balanced depth rest).
  { intros body H depth rest. simpl. rewrite <- app_assoc, H. reflexivity. }
  assert (plain : forall a,
            (forall depth rest, balanced depth (show 0 a ++ rest) = balanced depth rest) ->
            forall lvl depth rest,
            balanced depth (show lvl a ++ rest) = balanced depth rest).
  { intros b H lvl depth rest. rewrite show_eq.
    destruct (lvl <=? level b)%nat; [apply H | apply wrap, H]. }
  induction a as [v|b IH|b IH|l IHl op r IHr]; apply plain; intros depth rest.
  - reflexivity.
  - apply (wrap (show 0 b) (IH 0%nat)).
  - change (show 0 (Neg b)) with (TMinus :: show 2 b). simpl. apply IH.
  - destruct op; simpl; rewrite <- app_assoc, IHl; simpl; apply IHr.
Qed.

Lemma show_not_nil lvl a : show lvl a <> nil.
Proof.
  rewrite show_eq. destruct (lvl <=? level a)%nat; [|discriminate].
  destruct a as [v|b|b|l op r]; try discriminate.
  pose proof (show_eq 0 l) as E0. pose proof (show_eq 1 l) as E1.
  pose proof (show_eq 4 l) as E4.
  destruct op; simpl; intros H; apply app_eq_nil in H as [_ H]; discriminate H.
Qed.

(** The series [generate_plot_data] returns: the pairs of the points
    [x_min + i * step], [i] in [range(num_points)], at which evaluation gave
    a value, in the order of [i]; it is not empty. *)
Lemma generate_plot_data_series (ev : evaluator) self func_string x_min x_max
    num_points xs ys self' :
  Grapher.generate_plot_data ev self func_string x_min x_max num_points
  = Returned (xs, ys) self' ->
  exists divisor,
    float_of_int (num_points - 1) = Returns divisor
    /\ length xs = length ys
    /\ xs <> nil
    /\ combine xs ys
       = flat_map (kept ev self (Grapher.parse_function func_string))
           (sample_points x_min ((x_max - x_min) / divisor)
              (Grapher.range num_points)).
Proof.
  intros H. pose proof (generate_plot_data_inv _ _ _ _ _ _ _ H) as [Hne _].
  unfold Grapher.generate_plot_data in H. simpl in H.
  destruct (float_of_int (num_points - 1)) as [d| |]; try discriminate H.
  simpl in H. destruct (is_zero d); [discriminate H|].
  exists d. split; [reflexivity|].
  destruct (Grapher.sample _ _ _ _ _ _ _ _) as [[xs1 ys1] self1| |] eqn:E;
    try discriminate H.
  assert ((xs1, ys1) = (xs, ys)) as [= -> ->]
    by (destruct xs1; [discriminate H | injection H as <- <- _; reflexivity]).
  apply sample_series in E; [| reflexivity]. destruct E as [L C].
  auto.
Qed.

(** * Further properties of the code *)

(** ** The parenthesis check *)

Lemma first_chars_nil n : first_chars n "" = "".
Proof. destruct n; reflexivity. Qed.

Lemma first_chars_0 s : first_chars 0 s = "".
Proof. destruct s; reflexivity. Qed.

Lemma first_chars_S n c t : first_chars (S n) (String c t) = String c (first_chars n t).
Proof. reflexivity. Qed.

(** The loop of [_validate_expression], started at a count that is not
    negative: it stops at the first prefix whose count is, and otherwise
    returns the count of the whole text. *)
Lemma count_parens_excess s : forall k,
  (0 <= k)%Z ->
  match Calculator.count_parens k s with
  | Returns r =>
      r = (k + excess s)%Z
      /\ forall n, (0 <= k + excess (first_chars n s))%Z
  | Raises exn =>
      exn = ValueError ExtraClosingParenthesis
      /\ exists n, (k + excess (first_chars n s) < 0)%Z
  | Unmodelled => False
  end.
Proof.
  induction s as [|c t IH]; intros k Hk.
  - simpl. split; [lia|]. intros n. rewrite first_chars_nil. simpl. lia.
  - cbn [Calculator.count_parens excess].
    set (d := (if Ascii.eqb c "(" then 1 else if Ascii.eqb c ")" then -1 else 0)%Z).
    replace (if Ascii.eqb c "(" then (k + 1)%Z
             else if Ascii.eqb c ")" then (k - 1)%Z else k) with (k + d)%Z
      by (subst d; destruct (Ascii.eqb c "("), (Ascii.eqb c ")"); lia).
    destruct (k + d <? 0)%Z eqn:E.
    + split; [reflexivity|]. exists 1%nat.
      rewrite first_chars_S, first_chars_0. cbn [excess]. fold d.
      apply Z.ltb_lt in E. lia.
    + apply Z.ltb_ge in E. specialize (IH (k + d)%Z E).
      destruct (Calculator.count_parens (k + d) t) as [r|exn|].
      * destruct IH as [-> IH]. split; [lia|]. intros [|n].
        -- rewrite first_chars_0. simpl. lia.
        -- rewrite first_chars_S. cbn [excess]. fold d. specialize (IH n). lia.
      * destruct IH as [-> [n IH]]. split; [reflexivity|]. exists (S n).
        rewrite first_chars_S. cbn [excess]. fold d. lia.
      * exact IH.
Qed.

Lemma validate_returns_allowed expression r :
  Calculator._validate_expression expression = Returns r ->
  all_chars Calculator.allowed expression = true.
Proof.
  unfold Calculator._validate_expression.
  destruct (String.eqb expression ""); [discriminate|].
  destruct (all_chars Calculator.allowed expression); [reflexivity|discriminate].
Qed.

Lemma validate_raises_reported expression :
  match Calculator._validate_expression expression with
  | Raises exn => exists msg, exn = ValueError msg /\ reported msg = true
  | _ => True
  end.
Proof.
  unfold Calculator._validate_expression.
  destruct (negb _); [eexists; split; reflexivity|].
  pose proof (count_parens_excess expression 0 ltac:(lia)) as H.
  destruct (Calculator.count_parens 0 expression) as [r|exn|]; simpl;
    [|destruct H as [-> _]; eexists; split; reflexivity|exact I].
  destruct (negb _); [eexists; split; reflexivity|exact I].
Qed.

(** X1: [_validate_expression] returns [True] or raises one of its three
    errors, and each outcome tells what the text is like: [True] for a
    non-empty text of allowed characters in which no prefix has more closing
    than opening parentheses and the whole text has as many of each;
    "Invalid characters" for the empty text and for a text with a
    character outside the class; "extra closing parenthesis" when some
    prefix has more closing than opening ones; "missing closing
    parenthesis" when no prefix has, and the whole text has more opening
    ones.  It never returns [False]. *)
Theorem validate_expression_outcomes expression :
  match Calculator._validate_expression expression with
  | Returns r =>
      r = true
      /\ expression <> ""
      /\ all_chars Calculator.allowed expression = true
      /\ (forall n, (0 <= excess (first_chars n expression))%Z)
      /\ excess expression = 0%Z
  | Raises exn =>
      (exn = ValueError
               (InvalidCharacters (remove_chars Calculator.allowed expression))
       /\ (expression = "" \/ all_chars Calculator.allowed expression = false))
      \/ (exn = ValueError ExtraClosingParenthesis
          /\ expression <> ""
          /\ all_chars Calculator.allowed expression = true
          /\ exists n, (excess (first_chars n expression) < 0)%Z)
      \/ (exn = ValueError MissingClosingParenthesis
          /\ expression <> ""
          /\ all_chars Calculator.allowed expression = true
          /\ (forall n, (0 <= excess (first_chars n expression))%Z)
          /\ (0 < excess expression)%Z)
  | Unmodelled => False
  end.
Proof.
  unfold Calculator._validate_expression.
  destruct (String.eqb expression "") eqn:Ee; simpl.
  { left. split; [reflexivity|]. left. apply String.eqb_eq, Ee. }
  apply String.eqb_neq in Ee.
  destruct (all_chars Calculator.allowed expression) eqn:Ea; simpl.
  2:{ left. split; [reflexivity|]. right. reflexivity. }
  pose proof (count_parens_excess expression 0 ltac:(lia)) as H.
  destruct (Calculator.count_parens 0 expression) as [r|exn|]; simpl.
  - destruct H as [-> H]. rewrite Z.add_0_l.
    destruct (excess expression =? 0)%Z eqn:E0; simpl.
    + apply Z.eqb_eq in E0. repeat split; auto.
    + apply Z.eqb_neq in E0. right. right. repeat split; auto.
      specialize (H (String.length expression)).
      assert (first_chars (String.length expression) expression = expression) as Hf.
      { clear. induction expression as [|c t IH]; [reflexivity|].
        simpl. rewrite first_chars_S, IH. reflexivity. }
      rewrite Hf in H. lia.
  - destruct H as [-> [n H]]. right. left. repeat split; auto. exists n. lia.
  - exact H.
Qed.

(** ** What preparation leaves behind *)

Section NoBoundaryLeft.
Variable b : ascii -> string -> bool.
Hypothesis star_first : forall t, b "*"%char t = false.
Hypothesis star_second : forall a t, b a (String "*" t) = false.
Hypothesis stable : forall a t, b a (insert_stars b t) = b a t.

Lemma insert_stars_no_boundary s : has_boundary b (insert_stars b s) = false.
Proof.
  induction s as [|a t IH]; [reflexivity|]. cbn [insert_stars].
  destruct (b a t) eqn:E; cbn [has_boundary].
  - rewrite star_second, star_first, IH. reflexivity.
  - rewrite stable, E, IH. reflexivity.
Qed.
End NoBoundaryLeft.

Lemma insert_stars_fixed b s : has_boundary b s = false -> insert_stars b s = s.
Proof.
  induction s as [|a t IH]; [reflexivity|]. cbn [has_boundary insert_stars].
  intros H. apply orb_false_elim in H as [-> H]. rewrite IH by exact H.
  reflexivity.
Qed.

Lemma calculator_boundary_stable a t :
  calculator_boundary a (insert_stars calculator_boundary t)
  = calculator_boundary a t.
Proof. unfold calculator_boundary. rewrite !head_is_insert_stars. reflexivity. Qed.

Lemma grapher_boundary_word w t :
  In w ("sin" :: "cos" :: "tan" :: "sqrt" :: nil) ->
  startswith (insert_stars grapher_boundary t) w = startswith t w.
Proof.
  intros Hin. apply startswith_insert_stars. intros c t' Hc.
  assert (isdigit c = false /\ is_char "x" c = false /\ is_char ")" c = false)
    as (Hd & Hx & Hp).
  { simpl in Hin. destruct Hin as [<-|[<-|[<-|[<-|[]]]]];
      repeat split; char_cases Hc. }
  unfold grapher_boundary. rewrite Hd, Hx, Hp. reflexivity.
Qed.

Lemma grapher_boundary_stable a t :
  grapher_boundary a (insert_stars grapher_boundary t) = grapher_boundary a t.
Proof.
  unfold grapher_boundary at 1 3. rewrite !head_is_insert_stars.
  rewrite !grapher_boundary_word by (simpl; auto).
  reflexivity.
Qed.

Lemma prepare_expression_no_boundary expression :
  has_boundary calculator_boundary (Calculator._prepare_expression expression)
  = false.
Proof.
  rewrite prepare_expression_one_pass. apply insert_stars_no_boundary.
  - reflexivity.
  - intros a t. unfold calculator_boundary. simpl. rewrite !andb_false_r.
    reflexivity.
  - apply calculator_boundary_stable.
Qed.

Lemma parse_function_no_boundary func_string :
  has_boundary grapher_boundary (Grapher.parse_function func_string) = false.
Proof.
  rewrite parse_function_one_pass. apply insert_stars_no_boundary.
  - reflexivity.
  - intros a t. unfold grapher_boundary. simpl. rewrite !andb_false_r.
    reflexivity.
  - apply grapher_boundary_stable.
Qed.

(** X2: After preparation no place is left at which the substitutions would
    insert a multiplication sign: in the text [_prepare_expression] returns
    no digit stands before [(] and no [)] before a digit or [(]; in the text
    [parse_function] returns no digit stands before [x] or one of
    [sin cos tan sqrt], no [x] before [(], and no [)] before [x], [(] or a
    digit. *)
Theorem no_implicit_multiplication_left :
  (forall expression,
     has_boundary calculator_boundary
       (Calculator._prepare_expression expression) = false)
  /\ (forall func_string,
        has_boundary grapher_boundary (Grapher.parse_function func_string)
        = false).
Proof.
  split; [exact prepare_expression_no_boundary|exact parse_function_no_boundary].
Qed.

(** *** Characters that do not survive *)

Lemma char_in_app c u v :
  Calculator.char_in c (u +:+ v) = Calculator.char_in c u || Calculator.char_in c v.
Proof.
  induction u as [|a u IH]; [reflexivity|]. simpl. rewrite IH.
  apply orb_assoc.
Qed.

Lemma char_in_insert_stars c b s :
  c <> "*"%char ->
  Calculator.char_in c (insert_stars b s) = Calculator.char_in c s.
Proof.
  intros Hc. apply Ascii.eqb_neq in Hc.
  induction s as [|a t IH]; [reflexivity|]. cbn [insert_stars].
  destruct (b a t); cbn [Calculator.char_in]; rewrite ?Hc, IH; reflexivity.
Qed.

Lemma char_in_replace_gone c w s :
  Calculator.char_in c w = false ->
  Calculator.char_in c (replace_char c w s) = false.
Proof.
  intros Hw. induction s as [|a t IH]; [reflexivity|]. simpl.
  destruct (Ascii.eqb a c) eqn:E.
  - rewrite char_in_app, Hw, IH. reflexivity.
  - simpl. rewrite Ascii.eqb_sym, E, IH. reflexivity.
Qed.

Lemma char_in_replace_other c a w s :
  Calculator.char_in c w = false ->
  Calculator.char_in c s = false ->
  Calculator.char_in c (replace_char a w s) = false.
Proof.
  intros Hw. induction s as [|d t IH]; [reflexivity|]. simpl. intros H.
  apply orb_false_elim in H as [Hd H].
  destruct (Ascii.eqb d a).
  - rewrite char_in_app, Hw, IH by exact H. reflexivity.
  - simpl. rewrite Hd, IH by exact H. reflexivity.
Qed.

Lemma prepare_expression_no_caret expression :
  Calculator.char_in "^" (Calculator._prepare_expression expression) = false
  /\ Calculator.char_in Calculator.times_sign
       (Calculator._prepare_expression expression) = false
  /\ Calculator.char_in Calculator.division_sign
       (Calculator._prepare_expression expression) = false.
Proof.
  rewrite prepare_expression_one_pass. unfold calculator_text.
  rewrite !char_in_insert_stars by discriminate.
  repeat split.
  - apply char_in_replace_other; [reflexivity|].
    apply char_in_replace_other; [reflexivity|].
    apply char_in_replace_gone. reflexivity.
  - apply char_in_replace_other; [reflexivity|].
    apply char_in_replace_gone. reflexivity.
  - apply char_in_replace_gone. reflexivity.
Qed.

(** X3: The text handed to the interpreter holds no caret: [_prepare_expression]
    returns a text without [^], the multiplication sign U+00D7 and the
    division sign U+00F7, [parse_function] one without [^]. *)
Theorem prepared_text_has_no_caret :
  (forall expression,
     Calculator.char_in "^" (Calculator._prepare_expression expression) = false
     /\ Calculator.char_in Calculator.times_sign
          (Calculator._prepare_expression expression) = false
     /\ Calculator.char_in Calculator.division_sign
          (Calculator._prepare_expression expression) = false)
  /\ (forall func_string,
        Calculator.char_in "^" (Grapher.parse_function func_string) = false).
Proof.
  split; [exact prepare_expression_no_caret|].
  intros func_string. rewrite parse_function_one_pass. unfold grapher_text.
  rewrite char_in_insert_stars by discriminate.
  apply char_in_replace_gone. reflexivity.
Qed.

(** *** Parentheses *)

Lemma count_parens_skip c t k :
  no_parenthesis c = true -> (0 <= k)%Z ->
  Calculator.count_parens k (String c t) = Calculator.count_parens k t.
Proof.
  unfold no_parenthesis. intros H Hk. apply andb_prop in H as [H1 H2].
  apply negb_true_iff in H1, H2. cbn [Calculator.count_parens].
  rewrite H1, H2. destruct (k <? 0)%Z eqn:E; [|reflexivity].
  apply Z.ltb_lt in E. lia.
Qed.

Lemma count_parens_skip_app w t k :
  all_chars no_parenthesis w = true -> (0 <= k)%Z ->
  Calculator.count_parens k (w +:+ t) = Calculator.count_parens k t.
Proof.
  induction w as [|c w IH]; [reflexivity|].
  cbn [all_chars]. intros H Hk. apply andb_prop in H as [Hc Hw].
  change (String c w +:+ t) with (String c (w +:+ t)).
  rewrite count_parens_skip by assumption. auto.
Qed.

(** One step of the loop: the count after [c], if the loop goes on. *)
Lemma count_parens_step c t k :
  exists k',
    Calculator.count_parens k (String c t)
    = (if (k' <? 0)%Z then Raises (ValueError ExtraClosingParenthesis)
       else Calculator.count_parens k' t)
    /\ (no_parenthesis c = true -> k' = k)
    /\ forall t', Calculator.count_parens k (String c t')
       = (if (k' <? 0)%Z then Raises (ValueError ExtraClosingParenthesis)
          else Calculator.count_parens k' t').
Proof.
  eexists. split; [reflexivity|]. split; [|reflexivity].
  unfold no_parenthesis. intros H. apply andb_prop in H as [H1 H2].
  apply negb_true_iff in H1, H2. rewrite H1, H2. reflexivity.
Qed.

Lemma count_parens_insert_stars b s : forall k,
  (0 <= k)%Z ->
  Calculator.count_parens k (insert_stars b s) = Calculator.count_parens k s.
Proof.
  induction s as [|a t IH]; intros k Hk; [reflexivity|].
  cbn [insert_stars]. destruct (count_parens_step a t k) as (k' & E & _ & E').
  rewrite E. destruct (b a t); rewrite E'.
  - destruct (k' <? 0)%Z eqn:L; [reflexivity|]. apply Z.ltb_ge in L.
    rewrite count_parens_skip by (reflexivity || assumption). auto.
  - destruct (k' <? 0)%Z eqn:L; [reflexivity|]. apply Z.ltb_ge in L. auto.
Qed.

Lemma count_parens_replace c w s : forall k,
  no_parenthesis c = true -> all_chars no_parenthesis w = true ->
  (0 <= k)%Z ->
  Calculator.count_parens k (replace_char c w s) = Calculator.count_parens k s.
Proof.
  induction s as [|a t IH]; intros k Hc Hw Hk; [reflexivity|].
  cbn [replace_char]. destruct (Ascii.eqb a c) eqn:E.
  - apply Ascii.eqb_eq in E. subst a.
    rewrite count_parens_skip_app, count_parens_skip by assumption. auto.
  - destruct (count_parens_step a t k) as (k' & E1 & _ & E').
    rewrite E1, E'. destruct (k' <? 0)%Z eqn:L; [reflexivity|].
    apply Z.ltb_ge in L. auto.
Qed.

Lemma count_parens_lstrip p s k :
  (forall c, p c = true -> no_parenthesis c = true) -> (0 <= k)%Z ->
  Calculator.count_parens k (lstrip_by p s) = Calculator.count_parens k s.
Proof.
  intros Hp Hk. induction s as [|a t IH]; [reflexivity|]. cbn [lstrip_by].
  destruct (p a) eqn:E; [|reflexivity].
  rewrite count_parens_skip by auto. exact IH.
Qed.

Lemma count_parens_rstrip p s : forall k,
  (forall c, p c = true -> no_parenthesis c = true) -> (0 <= k)%Z ->
  Calculator.count_parens k (rstrip_by p s) = Calculator.count_parens k s.
Proof.
  induction s as [|a t IH]; intros k Hp Hk; [reflexivity|].
  cbn [rstrip_by].
  destruct (count_parens_step a t k) as (k' & E & Hsame & E').
  rewrite E. destruct (rstrip_by p t) as [|d r] eqn:Er.
  - destruct (p a) eqn:Ea.
    + rewrite (Hsame (Hp a Ea)).
      destruct (k <? 0)%Z eqn:L; [apply Z.ltb_lt in L; lia|].
      rewrite <- (IH k Hp Hk). reflexivity.
    + rewrite E'. destruct (k' <? 0)%Z eqn:L; [reflexivity|].
      apply Z.ltb_ge in L. rewrite <- (IH k' Hp L). reflexivity.
  - rewrite E'. destruct (k' <? 0)%Z eqn:L; [reflexivity|].
    apply Z.ltb_ge in L. rewrite <- (IH k' Hp L). reflexivity.
Qed.

Lemma isspace_no_parenthesis c : isspace c = true -> no_parenthesis c = true.
Proof.
  intros H. unfold no_parenthesis.
  destruct (Ascii.eqb c "(") eqn:E1.
  { apply Ascii.eqb_eq in E1. subst c. discriminate H. }
  destruct (Ascii.eqb c ")") eqn:E2.
  { apply Ascii.eqb_eq in E2. subst c. discriminate H. }
  reflexivity.
Qed.

Lemma all_chars_insert_stars p b s :
  p "*"%char = true -> all_chars p (insert_stars b s) = all_chars p s.
Proof.
  intros Hp. induction s as [|a t IH]; [reflexivity|]. cbn [insert_stars].
  destruct (b a t); cbn [all_chars]; rewrite ?Hp, IH; reflexivity.
Qed.

Lemma all_chars_app p u v :
  all_chars p (u +:+ v) = all_chars p u && all_chars p v.
Proof.
  induction u as [|a u IH]; [reflexivity|].
  change (String a u +:+ v) with (String a (u +:+ v)). cbn [all_chars].
  rewrite IH. apply andb_assoc.
Qed.

Lemma all_chars_replace p c w s :
  all_chars p w = true -> all_chars p s = true ->
  all_chars p (replace_char c w s) = true.
Proof.
  intros Hw. induction s as [|a t IH]; [reflexivity|]. cbn [all_chars replace_char].
  intros H. apply andb_prop in H as [Ha H]. destruct (Ascii.eqb a c).
  - rewrite all_chars_app, Hw, IH by exact H. reflexivity.
  - cbn [all_chars]. rewrite Ha, IH by exact H. reflexivity.
Qed.

Lemma all_chars_lstrip p q s :
  all_chars p s = true -> all_chars p (lstrip_by q s) = true.
Proof.
  induction s as [|a t IH]; [reflexivity|]. cbn [lstrip_by]. intros H.
  destruct (q a); [|exact H]. cbn [all_chars] in H.
  apply andb_prop in H as [_ H]. auto.
Qed.

Lemma all_chars_rstrip p q s :
  all_chars p s = true -> all_chars p (rstrip_by q s) = true.
Proof.
  induction s as [|a t IH]; [reflexivity|]. cbn [all_chars rstrip_by].
  intros H. apply andb_prop in H as [Ha H]. specialize (IH H).
  destruct (rstrip_by q t) as [|d r].
  - destruct (q a); [reflexivity|]. cbn [all_chars]. rewrite Ha. reflexivity.
  - cbn [all_chars] in *. rewrite Ha, IH. reflexivity.
Qed.

Lemma replace_char_not_nil c w s :
  w <> "" -> s <> "" -> replace_char c w s <> "".
Proof.
  intros Hw Hs. destruct s as [|a t]; [contradiction|]. cbn [replace_char].
  destruct (Ascii.eqb a c); [|discriminate].
  destruct w; [contradiction|discriminate].
Qed.

Lemma insert_stars_not_nil b s : s <> "" -> insert_stars b s <> "".
Proof.
  intros Hs. destruct s as [|a t]; [contradiction|]. cbn [insert_stars].
  destruct (b a t); discriminate.
Qed.

Lemma count_parens_prepare expression :
  Calculator.count_parens 0 (Calculator._prepare_expression expression)
  = Calculator.count_parens 0 expression.
Proof.
  rewrite prepare_expression_one_pass. unfold calculator_text, strip.
  rewrite count_parens_insert_stars by lia.
  rewrite !count_parens_replace by (reflexivity || lia).
  rewrite count_parens_rstrip by (apply isspace_no_parenthesis || lia).
  apply count_parens_lstrip; [apply isspace_no_parenthesis | lia].
Qed.

(** X4: Preparation keeps the parentheses: the loop of [_validate_expression],
    which [evaluate_expression] runs on the text as given, comes to the
    same on the text [_prepare_expression] makes of it; and the prepared
    text of an expression that passed the two checks of
    [evaluate_expression] would pass [_validate_expression] itself. *)
Theorem prepared_text_is_valid expression :
  Calculator.count_parens 0 (Calculator._prepare_expression expression)
  = Calculator.count_parens 0 expression
  /\ (validated expression ->
      Calculator._validate_expression (Calculator._prepare_expression expression)
      = Returns true).
Proof.
  split; [apply count_parens_prepare|]. intros [Hne Hv].
  pose proof (validate_returns_allowed _ _ Hv) as Ha.
  apply orb_false_elim in Hne as [_ Hne]. apply String.eqb_neq in Hne.
  unfold Calculator._validate_expression in Hv |- *.
  rewrite count_parens_prepare.
  assert (String.eqb (Calculator._prepare_expression expression) "" = false) as ->.
  { apply String.eqb_neq. rewrite prepare_expression_one_pass.
    apply insert_stars_not_nil. unfold calculator_text.
    repeat (apply replace_char_not_nil; [discriminate|]). exact Hne. }
  assert (all_chars Calculator.allowed (Calculator._prepare_expression expression)
          = true) as ->.
  { rewrite prepare_expression_one_pass, all_chars_insert_stars by reflexivity.
    unfold calculator_text, strip.
    repeat (apply all_chars_replace; [reflexivity|]).
    apply all_chars_rstrip, all_chars_lstrip, Ha. }
  destruct (String.eqb expression ""); [discriminate Hv|].
  rewrite Ha in Hv. exact Hv.
Qed.

(** *** Preparing twice *)

Lemma last_is_cons p a t : t <> "" -> last_is p (String a t) = last_is p t.
Proof. destruct t; [contradiction|reflexivity]. Qed.

Lemma last_is_app p u v : v <> "" -> last_is p (u +:+ v) = last_is p v.
Proof.
  intros Hv. induction u as [|a u IH]; [reflexivity|].
  change (String a u +:+ v) with (String a (u +:+ v)).
  rewrite last_is_cons; [exact IH|]. destruct u; [exact Hv|discriminate].
Qed.

Lemma append_empty w : w +:+ "" = w.
Proof.
  induction w as [|a w IH]; [reflexivity|].
  change (String a w +:+ "") with (String a (w +:+ "")). rewrite IH.
  reflexivity.
Qed.

Lemma rstrip_by_last p s : last_is p s = false -> rstrip_by p s = s.
Proof.
  induction s as [|a t IH]; [reflexivity|]. destruct t as [|d r].
  - simpl. intros ->. reflexivity.
  - intros H. rewrite last_is_cons in H by discriminate.
    remember (String d r) as u eqn:Eu. simpl. rewrite (IH H), Eu. reflexivity.
Qed.

Lemma last_is_rstrip_by p s : last_is p (rstrip_by p s) = false.
Proof.
  induction s as [|a t IH]; [reflexivity|]. cbn [rstrip_by].
  destruct (rstrip_by p t) as [|d r].
  - destruct (p a) eqn:E; [reflexivity|]. simpl. exact E.
  - rewrite last_is_cons by discriminate. exact IH.
Qed.

Lemma head_is_lstrip_by p s : head_is p (lstrip_by p s) = false.
Proof.
  induction s as [|a t IH]; [reflexivity|]. cbn [lstrip_by].
  destruct (p a) eqn:E; [exact IH|]. simpl. exact E.
Qed.

Lemma strip_ends s :
  head_is isspace (strip s) = false /\ last_is isspace (strip s) = false.
Proof.
  unfold strip. split.
  - apply head_is_rstrip_by, head_is_lstrip_by.
  - apply last_is_rstrip_by.
Qed.

Lemma strip_fixed s :
  head_is isspace s = false -> last_is isspace s = false -> strip s = s.
Proof.
  intros Hh Hl. unfold strip. rewrite lstrip_by_head by exact Hh.
  apply rstrip_by_last, Hl.
Qed.

Lemma replace_char_ends p c w s :
  w <> "" -> head_is p w = false -> last_is p w = false ->
  (head_is p s = false -> head_is p (replace_char c w s) = false)
  /\ (last_is p s = false -> last_is p (replace_char c w s) = false).
Proof.
  intros Hw Hh Hl. split.
  - destruct s as [|a t]; [reflexivity|]. cbn [replace_char]. intros H.
    destruct (Ascii.eqb a c); [|exact H].
    destruct w as [|d w]; [contradiction|]. exact Hh.
  - induction s as [|a t IH]; [reflexivity|]. cbn [replace_char].
    destruct t as [|d r].
    + intros H. cbn [replace_char]. destruct (Ascii.eqb a c).
      * rewrite append_empty. exact Hl.
      * exact H.
    + intros H. rewrite last_is_cons in H by discriminate.
      assert (replace_char c w (String d r) <> "") as Hne
        by (apply replace_char_not_nil; [exact Hw|discriminate]).
      destruct (Ascii.eqb a c).
      * rewrite last_is_app by exact Hne. auto.
      * rewrite last_is_cons by exact Hne. auto.
Qed.

Lemma last_is_insert_stars p b s :
  (forall a, b a "" = false) ->
  last_is p (insert_stars b s) = last_is p s.
Proof.
  intros Hb. induction s as [|a t IH]; [reflexivity|]. cbn [insert_stars].
  destruct t as [|d r].
  - rewrite Hb. reflexivity.
  - assert (insert_stars b (String d r) <> "") as Hne
      by (apply insert_stars_not_nil; discriminate).
    rewrite (last_is_cons p a (String d r)) by discriminate.
    destruct (b a (String d r)).
    + rewrite (last_is_cons p a) by discriminate.
      rewrite (last_is_cons p "*") by exact Hne. exact IH.
    + rewrite (last_is_cons p a) by exact Hne. exact IH.
Qed.

Lemma replace_char_absent c w s :
  Calculator.char_in c s = false -> replace_char c w s = s.
Proof.
  induction s as [|a t IH]; [reflexivity|]. cbn [Calculator.char_in replace_char].
  intros H. apply orb_false_elim in H as [Ha H].
  rewrite Ascii.eqb_sym, Ha, IH by exact H. reflexivity.
Qed.

(** X5: [_prepare_expression] changes nothing in a text it has prepared. *)
Theorem prepare_expression_idempotent expression :
  Calculator._prepare_expression (Calculator._prepare_expression expression)
  = Calculator._prepare_expression expression.
Proof.
  destruct (prepare_expression_no_caret expression) as (H1 & H2 & H3).
  pose proof (prepare_expression_no_boundary expression) as Hb.
  set (prepared := Calculator._prepare_expression expression) in *.
  rewrite (prepare_expression_one_pass prepared). unfold calculator_text.
  assert (strip prepared = prepared) as ->.
  { subst prepared. rewrite prepare_expression_one_pass.
    destruct (strip_ends expression) as [Hh Hl].
    apply strip_fixed.
    - rewrite head_is_insert_stars. unfold calculator_text.
      repeat (apply replace_char_ends; [discriminate|reflexivity|reflexivity|]).
      exact Hh.
    - rewrite last_is_insert_stars
        by (intros a; unfold calculator_boundary; simpl;
            rewrite !andb_false_r; reflexivity).
      unfold calculator_text.
      repeat (apply replace_char_ends; [discriminate|reflexivity|reflexivity|]).
      exact Hl. }
  rewrite (replace_char_absent "^") by exact H1.
  rewrite (replace_char_absent Calculator.times_sign) by exact H2.
  rewrite (replace_char_absent Calculator.division_sign) by exact H3.
  apply insert_stars_fixed, Hb.
Qed.

(** ** White space around an expression *)

Lemma rstrip_by_all p s :
  all_chars p s = true -> rstrip_by p s = "".
Proof.
  induction s as [|a t IH]; [reflexivity|]. cbn [all_chars rstrip_by].
  intros H. apply andb_prop in H as [Ha H]. rewrite (IH H), Ha. reflexivity.
Qed.

Lemma rstrip_by_trailing p s after :
  all_chars p after = true -> rstrip_by p (s +:+ after) = rstrip_by p s.
Proof.
  intros H. induction s as [|a t IH].
  - simpl. apply rstrip_by_all, H.
  - change (String a t +:+ after) with (String a (t +:+ after)).
    cbn [rstrip_by]. rewrite IH. reflexivity.
Qed.

Lemma strip_outer before s after :
  all_chars isspace before = true -> all_chars isspace after = true ->
  strip (before +:+ s +:+ after) = strip s.
Proof.
  intros Hb Ha. unfold strip. rewrite lstrip_by_app by exact Hb.
  rewrite <- !lstrip_rstrip. rewrite rstrip_by_trailing by exact Ha.
  reflexivity.
Qed.

Lemma all_chars_weaken (p q : ascii -> bool) s :
  (forall c, p c = true -> q c = true) ->
  all_chars p s = true -> all_chars q s = true.
Proof.
  intros Hpq. induction s as [|a t IH]; [reflexivity|]. cbn [all_chars].
  intros H. apply andb_prop in H as [Ha H]. rewrite (Hpq a Ha), IH by exact H.
  reflexivity.
Qed.

Lemma isspace_allowed c : isspace c = true -> Calculator.allowed c = true.
Proof.
  intros H. unfold Calculator.allowed. rewrite H.
  rewrite orb_true_r. reflexivity.
Qed.

Lemma remove_chars_app p u v :
  remove_chars p (u +:+ v) = remove_chars p u +:+ remove_chars p v.
Proof.
  induction u as [|a u IH]; [reflexivity|].
  change (String a u +:+ v) with (String a (u +:+ v)). cbn [remove_chars].
  rewrite IH. destruct (p a); reflexivity.
Qed.

Lemma remove_chars_all p s : all_chars p s = true -> remove_chars p s = "".
Proof.
  induction s as [|a t IH]; [reflexivity|]. cbn [all_chars remove_chars].
  intros H. apply andb_prop in H as [-> H]. auto.
Qed.

Lemma count_parens_trailing after s : forall k,
  all_chars no_parenthesis after = true -> (0 <= k)%Z ->
  Calculator.count_parens k (s +:+ after) = Calculator.count_parens k s.
Proof.
  induction s as [|a t IH]; intros k Ha Hk.
  - change ("" +:+ after) with after. 
    rewrite <- (append_empty after). apply count_parens_skip_app; assumption.
  - change (String a t +:+ after) with (String a (t +:+ after)).
    destruct (count_parens_step a t k) as (k' & E & _ & E').
    rewrite E, E'. destruct (k' <? 0)%Z eqn:L; [reflexivity|].
    apply Z.ltb_ge in L. auto.
Qed.

Lemma strip_nil_all s : strip s = "" -> all_chars isspace s = true.
Proof.
  unfold strip. intros H.
  assert (forall t, rstrip_by isspace t = "" -> all_chars isspace t = true) as Hr.
  { induction t as [|a t IH]; [reflexivity|]. cbn [rstrip_by all_chars].
    destruct (rstrip_by isspace t) as [|d r]; [|discriminate].
    destruct (isspace a); [|discriminate]. intros _. apply IH. reflexivity. }
  apply Hr in H. clear Hr. induction s as [|a t IH]; [reflexivity|].
  cbn [lstrip_by all_chars] in *. destruct (isspace a) eqn:E; [auto|].
  cbn [all_chars] in H. rewrite E in H. discriminate H.
Qed.

Lemma blank_test s :
  String.eqb s "" || String.eqb (strip s) "" = String.eqb (strip s) "".
Proof. destruct s; reflexivity. Qed.

(** X6: White space before and after an expression changes nothing:
    [evaluate_expression] gives the same result, the same error and the
    same state, although its validation reads the text as given. *)
Theorem evaluate_expression_ignores_outer_space (ev : evaluator) self before
    expression after :
  all_chars isspace before = true ->
  all_chars isspace after = true ->
  Calculator.evaluate_expression ev self (before +:+ expression +:+ after)
  = Calculator.evaluate_expression ev self expression.
Proof.
  intros Hb Ha. unfold Calculator.evaluate_expression.
  rewrite !blank_test, (strip_outer before expression after Hb Ha).
  destruct (String.eqb (strip expression) "") eqn:Es; [reflexivity|].
  assert (Calculator._prepare_expression (before +:+ expression +:+ after)
          = Calculator._prepare_expression expression) as ->.
  { unfold Calculator._prepare_expression.
    rewrite (strip_outer before expression after Hb Ha). reflexivity. }
  assert (Calculator._validate_expression (before +:+ expression +:+ after)
          = Calculator._validate_expression expression) as ->; [|reflexivity].
  assert (expression <> "") as Hne by (intros ->; discriminate Es).
  unfold Calculator._validate_expression.
  assert (String.eqb (before +:+ expression +:+ after) "" = false) as ->.
  { apply String.eqb_neq. destruct before; [|discriminate].
    destruct expression; [contradiction|discriminate]. }
  apply String.eqb_neq in Hne. rewrite Hne.
  rewrite !all_chars_app, !remove_chars_app.
  rewrite (all_chars_weaken _ _ _ isspace_allowed Hb),
    (all_chars_weaken _ _ _ isspace_allowed Ha), andb_true_r.
  rewrite (remove_chars_all _ _ (all_chars_weaken _ _ _ isspace_allowed Hb)),
    (remove_chars_all _ _ (all_chars_weaken _ _ _ isspace_allowed Ha)),
    append_empty.
  rewrite count_parens_skip_app
    by (lia || exact (all_chars_weaken _ _ _ isspace_no_parenthesis Hb)).
  rewrite count_parens_trailing
    by (lia || exact (all_chars_weaken _ _ _ isspace_no_parenthesis Ha)).
  reflexivity.
Qed.

Lemma evaluate_expression_ignores_outer_space_witness :
  Calculator.evaluate_expression Py.eval Calculator.__init__ "  2+3*4 "
  = Calculator.evaluate_expression Py.eval Calculator.__init__ "2+3*4".
Proof.
  exact (evaluate_expression_ignores_outer_space Py.eval Calculator.__init__
           "  " "2+3*4" " " eq_refl eq_refl).
Defined.

(** ** The two signs that are rewritten and refused *)

Lemma char_in_not_all p c s :
  p c = false -> Calculator.char_in c s = true -> all_chars p s = false.
Proof.
  intros Hp. induction s as [|a t IH]; [discriminate|].
  cbn [Calculator.char_in all_chars]. intros H.
  apply orb_prop in H as [H|H].
  - apply Ascii.eqb_eq in H. subst a. rewrite Hp. reflexivity.
  - rewrite (IH H). apply andb_false_r.
Qed.

(** X7: [_prepare_expression] rewrites the multiplication sign U+00D7 and the
    division sign U+00F7, but [evaluate_expression] validates the text as
    given, and the class of allowed characters holds neither: an
    expression with one of the two signs is refused with "Invalid
    characters in expression" and never reaches the interpreter. *)
Theorem evaluate_expression_refuses_the_signs (ev : evaluator) self expression :
  Calculator.char_in Calculator.times_sign expression
  || Calculator.char_in Calculator.division_sign expression = true ->
  Calculator.evaluate_expression ev self expression
  = Raised (ValueError
              (InvalidCharacters (remove_chars Calculator.allowed expression)))
      self.
Proof.
  intros H.
  assert (exists c, Calculator.allowed c = false /\ isspace c = false
                    /\ Calculator.char_in c expression = true)
    as (c & Hc & Hs & Hin).
  { apply orb_prop in H as [H|H]; eexists; (split; [|split; [|exact H]]);
      reflexivity. }
  unfold Calculator.evaluate_expression. rewrite blank_test.
  destruct (String.eqb (strip expression) "") eqn:Es.
  { apply String.eqb_eq, strip_nil_all in Es.
    rewrite (char_in_not_all _ _ _ Hs Hin) in Es. discriminate Es. }
  unfold Calculator._validate_expression.
  rewrite (char_in_not_all _ _ _ Hc Hin), andb_false_r. reflexivity.
Qed.

Lemma evaluate_expression_refuses_the_signs_witness :
  Calculator.evaluate_expression Py.eval Calculator.__init__
    (String "2" (String Calculator.times_sign "3"))
  = Raised (ValueError (InvalidCharacters (String Calculator.times_sign "")))
      Calculator.__init__.
Proof.
  exact (evaluate_expression_refuses_the_signs Py.eval Calculator.__init__
           (String "2" (String Calculator.times_sign "3")) eq_refl).
Defined.

(** ** The errors of [evaluate_expression] *)

(** X8: Whatever the interpreter does, [evaluate_expression] raises nothing but
    [ValueError], with the message of one of its checks or of one of its
    [except] clauses; "Expression did not evaluate to a number" and
    "Result is undefined" are raised inside the [try] and so reach the
    caller only inside "Could not evaluate expression: ...". *)
Theorem evaluate_expression_raises_value_errors (ev : evaluator) self
    expression :
  match Calculator.evaluate_expression ev self expression with
  | Raised exn _ => exists msg, exn = ValueError msg /\ reported msg = true
  | _ => True
  end.
Proof.
  assert (forall exn,
            match Calculator.handle self exn with
            | Raised exn' _ =>
                exists msg, exn' = ValueError msg /\ reported msg = true
            | _ => True
            end) as Hh.
  { intros exn. destruct exn; simpl; eexists; split; reflexivity. }
  unfold Calculator.evaluate_expression.
  destruct (String.eqb expression "" || String.eqb (strip expression) "").
  { eexists. split; reflexivity. }
  pose proof (validate_raises_reported expression) as Hv.
  destruct (Calculator._validate_expression expression) as [r|exn|];
    [|exact Hv|exact I].
  destruct (ev _ _) as [[n|f|b]|exn|]; try exact I; try apply Hh.
  - destruct (to_float (VInt n)) as [f|exn|]; try exact I; try apply Hh.
    destruct (is_nan f || is_infinity f); [apply Hh|exact I].
  - cbn [to_float]. destruct (is_nan f || is_infinity f); [apply Hh|exact I].
Qed.

(** ** The four operations *)

Lemma store_inv self computed :
  match Calculator.store self computed with
  | Returned result self' =>
      computed = Returns result /\ self' = keeping result self
  | Raised exn self' => computed = Raises exn /\ self' = self
  | NotModelled => computed = Unmodelled
  end.
Proof. destruct computed; simpl; auto. Qed.

(** The operators [+ - * /] are modelled on all values. *)
Lemma binary_op_modelled op a b :
  In op (Add :: Sub :: Mult :: Div :: nil) -> binary_op op a b <> Unmodelled.
Proof.
  intros Hop.
  assert (forall m n, int_op op m n <> Unmodelled) as Hi.
  { intros m n. simpl in Hop.
    destruct Hop as [<-|[<-|[<-|[<-|[]]]]]; simpl; try discriminate.
    unfold int_truediv. destruct (n =? 0)%Z; [discriminate|].
    destruct (is_infinity _); discriminate. }
  assert (forall x y, float_op op x y <> Unmodelled) as Hf.
  { intros x y. simpl in Hop.
    destruct Hop as [<-|[<-|[<-|[<-|[]]]]]; simpl; try discriminate.
    destruct (is_zero y); discriminate. }
  assert (forall n, float_of_int n <> Unmodelled) as Hc.
  { intros n. unfold float_of_int. destruct (is_infinity _); discriminate. }
  destruct a as [m|x|f], b as [n|y|g]; simpl; try discriminate; auto.
  - destruct (float_of_int m) eqn:E; simpl; try discriminate; auto.
    exfalso. exact (Hc m E).
  - destruct (float_of_int n) eqn:E; simpl; try discriminate; auto.
    exfalso. exact (Hc n E).
Qed.

(** [a / b] raises no [ValueError], and what it returns is a float. *)
Lemma true_division a b :
  match binary_op Div a b with
  | Returns r => exists f, r = VFloat f
  | Raises exn => forall msg, exn <> ValueError msg
  | Unmodelled => False
  end.
Proof.
  destruct a as [m|x|f], b as [n|y|g]; simpl; try discriminate.
  - unfold int_truediv. destruct (n =? 0)%Z; simpl; [discriminate|].
    destruct (is_infinity _); simpl; [discriminate|eauto].
  - unfold float_of_int. destruct (is_infinity _); simpl; [discriminate|].
    destruct (is_zero y); [discriminate|eauto].
  - unfold float_of_int. destruct (is_infinity _); simpl; [discriminate|].
    destruct (is_zero _); [discriminate|eauto].
  - destruct (is_zero y); [discriminate|eauto].
Qed.

(** X9: [calculate] either calls the method of one of the four operators or
    raises "Invalid operator" for any other text.  The method leaves the
    calculator as it was when it raises, and otherwise stores what it
    returns in [last_result] and changes nothing else. *)
Theorem calculate_outcomes self a operator b :
  match Calculator.calculate self a operator b with
  | Calculator.Calculated (Returned result self') =>
      In operator operators /\ self' = keeping result self
  | Calculator.Calculated (Raised exn self') =>
      In operator operators /\ self' = self
  | Calculator.Calculated NotModelled => False
  | Calculator.InvalidOperator operator' self' =>
      operator' = operator /\ ~ In operator operators /\ self' = self
  end.
Proof.
  assert (forall op, In op (Add :: Sub :: Mult :: Div :: nil) ->
            match Calculator.store self (binary_op op a b) with
            | Returned result self' => self' = keeping result self
            | Raised exn self' => self' = self
            | NotModelled => False
            end) as Hs.
  { intros op Hop. pose proof (store_inv self (binary_op op a b)) as H.
    destruct (Calculator.store self (binary_op op a b)); try apply H.
    exact (binary_op_modelled op a b Hop H). }
  unfold Calculator.calculate, operators.
  destruct (String.eqb operator "+") eqn:E1.
  { apply String.eqb_eq in E1. subst operator.
    specialize (Hs Add ltac:(simpl; auto)). unfold Calculator.add.
    destruct (Calculator.store _ _); simpl; auto. }
  destruct (String.eqb operator "-") eqn:E2.
  { apply String.eqb_eq in E2. subst operator.
    specialize (Hs Sub ltac:(simpl; auto)). unfold Calculator.subtract.
    destruct (Calculator.store _ _); simpl; auto. }
  destruct (String.eqb operator "*") eqn:E3.
  { apply String.eqb_eq in E3. subst operator.
    specialize (Hs Mult ltac:(simpl; auto)). unfold Calculator.multiply.
    destruct (Calculator.store _ _); simpl; auto. }
  destruct (String.eqb operator "/") eqn:E4.
  { apply String.eqb_eq in E4. subst operator.
    specialize (Hs Div ltac:(simpl; auto)). unfold Calculator.divide.
    destruct (Calculator.equals_zero b); [simpl; auto 6|].
    destruct (Calculator.store _ _); simpl; auto 6. }
  apply String.eqb_neq in E1, E2, E3, E4.
  split; [reflexivity|]. split; [|reflexivity].
  simpl. intros [H|[H|[H|[H|[]]]]]; congruence.
Qed.

(** X10: [divide] raises a [ValueError] exactly for a divisor equal to zero (the
    int [0] and the floats [0.0] and [-0.0]), whatever the dividend is,
    and then it is "Cannot divide by zero" and nothing is stored; for any
    other divisor it stores and returns the quotient, which is a float also
    for two ints, or passes on the error of the division. *)
Theorem divide_checks_the_divisor self a b :
  match Calculator.divide self a b with
  | Raised (ValueError msg) self' =>
      Calculator.equals_zero b = true /\ msg = CannotDivideByZero
      /\ self' = self
  | Raised exn self' =>
      Calculator.equals_zero b = false /\ binary_op Div a b = Raises exn
      /\ self' = self
  | Returned result self' =>
      Calculator.equals_zero b = false /\ binary_op Div a b = Returns result
      /\ (exists f, result = VFloat f) /\ self' = keeping result self
  | NotModelled => False
  end.
Proof.
  unfold Calculator.divide. destruct (Calculator.equals_zero b); [auto|].
  pose proof (true_division a b) as H.
  destruct (binary_op Div a b) as [r|exn|]; simpl; [auto| |exact H].
  destruct exn; auto. exfalso. exact (H msg eq_refl).
Qed.

(** X21: No method writes [math_context], and [clear] takes back what the others
    wrote: whatever has been called on a calculator, its context is the one
    [__init__] built, and [clear] leaves it as [__init__] does. *)
Theorem clear_resets_the_calculator (ev : evaluator) self :
  used ev self ->
  Calculator.math_context self = Calculator.math_context Calculator.__init__
  /\ Calculator.clear self = Calculator.__init__.
Proof.
  intros H.
  assert (Calculator.math_context self
          = Calculator.math_context Calculator.__init__) as Hc.
  { assert (forall s computed s',
              left_behind (Calculator.store s computed) = Some s' ->
              Calculator.math_context s' = Calculator.math_context s) as Hs.
    { intros s computed s' E. pose proof (store_inv s computed) as Hi.
      destruct (Calculator.store s computed); simpl in E;
        try discriminate E; injection E as <-.
      - destruct Hi as [_ ->]. reflexivity.
      - destruct Hi as [_ ->]. reflexivity. }
    assert (forall s a b s',
              left_behind (Calculator.divide s a b) = Some s' ->
              Calculator.math_context s' = Calculator.math_context s) as Hd.
    { intros s a b s' E. unfold Calculator.divide in E.
      destruct (Calculator.equals_zero b); [|exact (Hs _ _ _ E)].
      injection E as <-. reflexivity. }
    induction H as [ | self a b self' _ IH E | self a b self' _ IH E
                   | self a b self' _ IH E | self a b self' _ IH E
                   | self _ IH | self a operator b self' _ IH E
                   | self expression self' _ IH E ].
    - reflexivity.
    - rewrite <- IH. exact (Hs _ _ _ E).
    - rewrite <- IH. exact (Hs _ _ _ E).
    - rewrite <- IH. exact (Hs _ _ _ E).
    - rewrite <- IH. exact (Hd _ _ _ _ E).
    - exact IH.
    - rewrite <- IH. unfold Calculator.calculate in E.
      repeat match type of E with
             | context [if ?c then _ else _] => destruct c
             end;
        first [exact (Hs _ _ _ E) | exact (Hd _ _ _ _ E)
              | injection E as <-; reflexivity].
    - rewrite <- IH.
      pose proof (evaluate_expression_inv ev self expression _ eq_refl) as Hi.
      destruct (Calculator.evaluate_expression ev self expression);
        simpl in E; try discriminate E; injection E as <-.
      + destruct Hi as [_ ->]. reflexivity.
      + rewrite Hi. reflexivity. }
  split; [exact Hc|]. unfold Calculator.clear. rewrite Hc. reflexivity.
Qed.

Lemma clear_resets_the_calculator_witness :
  Calculator.math_context (stored 14 Calculator.__init__)
  = Calculator.math_context Calculator.__init__
  /\ Calculator.clear (stored 14 Calculator.__init__) = Calculator.__init__.
Proof.
  apply (clear_resets_the_calculator Py.eval).
  apply (used_evaluate_expression Py.eval Calculator.__init__ "2+3*4").
  - apply used_init.
  - vm_compute. reflexivity.
Defined.

(** ** The text of an arithmetic expression *)

Lemma text_eq power lvl a :
  text power lvl a
  = if (lvl <=? level (reading a))%nat then text power 0 a
    else String "(" (text power 0 a +:+ ")").
Proof. destruct a as [n|b|b|l [] r]; reflexivity. Qed.

Lemma append_assoc (a b c : string) : (a +:+ b) +:+ c = a +:+ (b +:+ c).
Proof.
  induction a as [|x a IH]; [reflexivity|].
  change (String x a +:+ b) with (String x (a +:+ b)).
  change (String x (a +:+ b) +:+ c) with (String x ((a +:+ b) +:+ c)).
  rewrite IH. reflexivity.
Qed.

Lemma append_cons x (a b : string) : String x a +:+ b = String x (a +:+ b).
Proof. reflexivity. Qed.

Lemma append_length (a b : string) :
  String.length (a +:+ b) = (String.length a + String.length b)%nat.
Proof.
  induction a as [|x a IH]; [reflexivity|]. rewrite append_cons. simpl.
  rewrite IH. reflexivity.
Qed.

Lemma after_operand_cases rest :
  after_operand rest = true ->
  rest = ""
  \/ exists c r, rest = String c r
       /\ (c = "+" \/ c = "-" \/ c = "*" \/ c = "/" \/ c = ")" \/ c = "^")%char.
Proof.
  destruct rest as [|c r]; [auto|]. intros H. right. exists c, r.
  split; [reflexivity|].
  change (Ascii.eqb c "+" || (Ascii.eqb c "-" || (Ascii.eqb c "*"
          || (Ascii.eqb c "/" || (Ascii.eqb c ")" || (Ascii.eqb c "^"
          || false))))) = true) in H.
  repeat match type of H with
         | (_ || _)%bool = true => apply orb_prop in H as [H|H]
         end;
    try discriminate H; apply Ascii.eqb_eq in H; auto 10.
Qed.

Ltac after_operand_case H :=
  apply after_operand_cases in H
    as [->|(? & ? & -> & [->|[->|[->|[->|[->| ->]]]]])].

Lemma starts_operand_cases s :
  starts_operand s = true ->
  exists c r, s = String c r
    /\ (isdigit c = true \/ c = "."%char \/ c = "("%char \/ c = "-"%char).
Proof.
  destruct s as [|c r]; [discriminate|]. intros H.
  change (isdigit c || Ascii.eqb "." c || Ascii.eqb "(" c || Ascii.eqb "-" c
          = true) in H.
  exists c, r. split; [reflexivity|].
  repeat match type of H with
         | (_ || _)%bool = true => apply orb_prop in H as [H|H]
         end;
    auto; apply Ascii.eqb_eq in H; auto.
Qed.

(** *** Numerals *)

Lemma span_digits ds rest :
  all_chars isdigit ds = true -> head_is isdigit rest = false ->
  span isdigit (ds +:+ rest) = (ds, rest).
Proof.
  intros Hd Hr. induction ds as [|c ds IH].
  - destruct rest as [|c r]; [reflexivity|]. simpl in *. rewrite Hr. reflexivity.
  - rewrite append_cons. cbn [all_chars] in Hd. apply andb_prop in Hd as [Hc Hd].
    cbn [span]. rewrite Hc, (IH Hd). reflexivity.
Qed.

Lemma scan_whole ds rest :
  well_formed (Whole ds) = true -> after_operand rest = true ->
  scan_number (ds +:+ rest) = Returns (VInt (digits_value 0 ds), rest).
Proof.
  intros Hw Hr. unfold well_formed in Hw.
  apply andb_prop in Hw as [Hw Hz]. apply andb_prop in Hw as [_ Hd].
  unfold scan_number.
  rewrite (span_digits ds rest Hd)
    by (after_operand_case Hr; reflexivity).
  assert (match rest with
          | String "." t => let (fp, r) := span isdigit t in (true, fp, r)
          | _ => (false, EmptyString, rest)
          end = (false, EmptyString, rest)) as ->
    by (after_operand_case Hr; reflexivity).
  assert (scan_exponent rest = None) as ->
    by (after_operand_case Hr; reflexivity).
  assert (head_is (fun c => is_alpha c || non_ascii c) rest = false) as ->
    by (after_operand_case Hr; reflexivity).
  destruct (head_is (is_char "0") ds) eqn:E0; simpl in Hz.
  - rewrite Hz. reflexivity.
  - reflexivity.
Qed.

Lemma scan_point ip fp rest :
  well_formed (Point ip fp) = true -> after_operand rest = true ->
  scan_number ((ip +:+ String "." fp) +:+ rest)
  = Returns (value_of (Point ip fp), rest).
Proof.
  intros Hw Hr. unfold well_formed in Hw.
  apply andb_prop in Hw as [Hw Hf]. apply andb_prop in Hw as [_ Hi].
  unfold scan_number. rewrite append_assoc.
  rewrite (span_digits ip _ Hi) by reflexivity.
  rewrite append_cons.
  rewrite (span_digits fp rest Hf)
    by (after_operand_case Hr; reflexivity).
  assert (scan_exponent rest = None) as ->
    by (after_operand_case Hr; reflexivity).
  assert (head_is (fun c => is_alpha c || non_ascii c) rest = false) as ->
    by (after_operand_case Hr; reflexivity).
  reflexivity.
Qed.

(** A numeral starts with a digit, or with its point and a digit. *)
Lemma well_formed_head n rest :
  well_formed n = true ->
  exists c r, spelling n +:+ rest = String c r
    /\ (isdigit c = true \/ c = "."%char /\ head_is isdigit r = true).
Proof.
  destruct n as [ds|ip fp]; simpl; intros H.
  - apply andb_prop in H as [H _]. apply andb_prop in H as [Hne Hd].
    destruct ds as [|c r]; [discriminate Hne|]. simpl in Hd.
    apply andb_prop in Hd as [Hc _]. rewrite append_cons. eauto.
  - apply andb_prop in H as [H Hf]. apply andb_prop in H as [Hne Hd].
    destruct ip as [|c r].
    + destruct fp as [|d fp]; [discriminate Hne|]. simpl in Hf.
      apply andb_prop in Hf as [Hd' _].
      exists "."%char, (String d fp +:+ rest). split; [reflexivity|].
      right. split; [reflexivity|exact Hd'].
    + simpl in Hd. apply andb_prop in Hd as [Hc _].
      rewrite !append_cons. eauto.
Qed.

Lemma isdigit_not_blank c :
  isdigit c = true -> Ascii.eqb c " " || Ascii.eqb c "009" = false.
Proof.
  intros H. destruct (Ascii.eqb c " ") eqn:E1.
  { apply Ascii.eqb_eq in E1. subst c. discriminate H. }
  destruct (Ascii.eqb c "009") eqn:E2; [|reflexivity].
  apply Ascii.eqb_eq in E2. subst c. discriminate H.
Qed.

Lemma tokenize_numeral n rest f :
  well_formed n = true -> after_operand rest = true ->
  tokenize (S f) (spelling n +:+ rest)
  = ts ← tokenize f rest; Returns (TNumber (value_of n) :: ts).
Proof.
  intros Hw Hr.
  assert (scan_number (spelling n +:+ rest) = Returns (value_of n, rest)) as Hs.
  { destruct n as [ds|ip fp]; [apply scan_whole | apply scan_point];
      assumption. }
  destruct (well_formed_head n rest Hw) as (c & r & E & [Hc|[-> Hc]]).
  - rewrite E in *. cbn [tokenize].
    rewrite (isdigit_not_blank c Hc), Hc. cbn [orb]. rewrite Hs. reflexivity.
  - rewrite E in *. cbn [tokenize].
    change (Ascii.eqb "." " " || Ascii.eqb "." "009") with false.
    change (isdigit ".") with false. change (Ascii.eqb "." ".") with true.
    rewrite Hc. cbn [orb andb]. rewrite Hs. reflexivity.
Qed.

(** *** Tokens *)

Lemma starts_operand_text power lvl a rest :
  well_typed a = true -> starts_operand (text power lvl a +:+ rest) = true.
Proof.
  intros Hw. rewrite text_eq.
  destruct (lvl <=? level (reading a))%nat; [|reflexivity].
  revert rest. induction a as [n|b IH|b IH|l IHl op r IHr]; intros rest.
  - destruct (well_formed_head n rest Hw) as (c & t & E & [Hc|[-> _]]);
      change (text power 0 (Number n)) with (spelling n); rewrite E;
      unfold starts_operand; cbn [head_is]; [rewrite Hc|]; reflexivity.
  - reflexivity.
  - reflexivity.
  - simpl in Hw. apply andb_prop in Hw as [Hl _].
    assert (forall k, starts_operand (text power k l +:+ sign power op
                                      +:+ text power (match op with
                                                      | Plus | Minus => 1
                                                      | _ => 2 end) r
                                      +:+ rest) = true) as H.
    { intros k. rewrite (text_eq power k l).
      destruct (k <=? level (reading l))%nat; [|reflexivity]. apply IHl, Hl. }
    destruct op; cbn [text reading level Nat.leb]; rewrite !append_assoc;
      apply H.
Qed.

Lemma tokenize_sign op t f :
  starts_operand t = true ->
  tokenize (S f) (sign "**" op +:+ t)
  = ts ← tokenize f t; Returns (token_of op :: ts).
Proof.
  intros H. apply starts_operand_cases in H as (c & r & -> & [H|[->|[->| ->]]]).
  2,3,4: destruct op; reflexivity.
  destruct op; try reflexivity;
    destruct c as [[] [] [] [] [] [] [] []]; try discriminate H; reflexivity.
Qed.

Lemma outcome_bind_assoc {A B C : Type} (m : outcome A) (g : A -> outcome B)
    (h : B -> outcome C) :
  (m ≫= g) ≫= h = m ≫= (fun a => g a ≫= h).
Proof. destruct m; reflexivity. Qed.

Lemma tokenize_closing rest f :
  tokenize (S f) (String ")" rest) = ts ← tokenize f rest; Returns (TRPar :: ts).
Proof. reflexivity. Qed.

Lemma tokenize_opening rest f :
  tokenize (S f) (String "(" rest) = ts ← tokenize f rest; Returns (TLPar :: ts).
Proof. reflexivity. Qed.

Lemma tokenize_minus rest f :
  tokenize (S f) (String "-" rest) = ts ← tokenize f rest; Returns (TMinus :: ts).
Proof. reflexivity. Qed.

(** The tokens of the text of an expression are the ones [show] gives, each
    token costing one unit of fuel. *)
Lemma tokenize_parenthesised (body : string) (shown : list token) :
  (forall rest f, after_operand rest = true ->
     tokenize (length shown + f) (body +:+ rest)
     = ts ← tokenize f rest; Returns (shown ++ ts)) ->
  forall rest f, after_operand rest = true ->
  tokenize (length (TLPar :: shown ++ TRPar :: nil) + f)
    (String "(" (body +:+ ")") +:+ rest)
  = ts ← tokenize f rest; Returns ((TLPar :: shown ++ TRPar :: nil) ++ ts).
Proof.
  intros H rest f Hr.
  rewrite append_cons, append_assoc. cbn [length].
  rewrite length_app. cbn [length].
  replace (S (length shown + 1) + f)%nat with (S (length shown + S f)) by lia.
  rewrite tokenize_opening.
  change (")" +:+ rest) with (String ")" rest).
  rewrite (H (String ")" rest) (S f)) by reflexivity.
  rewrite tokenize_closing. destruct (tokenize f rest) as [ts| |]; simpl;
    [|reflexivity|reflexivity].
  rewrite <- app_assoc. reflexivity.
Qed.

Lemma tokenize_text a : forall lvl rest f,
  well_typed a = true -> after_operand rest = true ->
  tokenize (length (show lvl (reading a)) + f) (text "**" lvl a +:+ rest)
  = ts ← tokenize f rest; Returns (show lvl (reading a) ++ ts).
Proof.
  assert (wrap : forall b,
            (forall rest f, after_operand rest = true ->
               tokenize (length (show 0 (reading b)) + f)
                 (text "**" 0 b +:+ rest)
               = ts ← tokenize f rest; Returns (show 0 (reading b) ++ ts)) ->
            forall lvl rest f, after_operand rest = true ->
            tokenize (length (show lvl (reading b)) + f)
              (text "**" lvl b +:+ rest)
            = ts ← tokenize f rest; Returns (show lvl (reading b) ++ ts)).
  { intros b H lvl rest f Hr. rewrite text_eq, show_eq.
    destruct (lvl <=? level (reading b))%nat; [apply H, Hr|].
    apply tokenize_parenthesised; assumption. }
  induction a as [n|b IH|b IH|l IHl op r IHr]; intros lvl rest f Hw Hr;
    apply wrap; try assumption; clear lvl rest f Hr; intros rest f Hr.
  - apply tokenize_numeral; assumption.
  - change (text "**" 0 (Parenthesised b))
      with (String "(" (text "**" 0 b +:+ ")")).
    change (show 0 (reading (Parenthesised b)))
      with (TLPar :: show 0 (reading b) ++ TRPar :: nil).
    apply tokenize_parenthesised; [|assumption].
    intros rest' f' Hr'. apply IH; assumption.
  - change (text "**" 0 (Negated b)) with (String "-" (text "**" 2 b)).
    change (show 0 (reading (Negated b)))
      with (TMinus :: show 2 (reading b)).
    rewrite append_cons. cbn [length plus]. rewrite tokenize_minus.
    rewrite (IH 2%nat rest f Hw Hr).
    destruct (tokenize f rest); reflexivity.
  - simpl in Hw. apply andb_prop in Hw as [Hl Hwr].
    assert (forall kl kr,
              text "**" 0 (Binary l op r)
              = text "**" kl l +:+ sign "**" op +:+ text "**" kr r ->
              show 0 (reading (Binary l op r))
              = show kl (reading l) ++ token_of op :: show kr (reading r) ->
              tokenize (length (show 0 (reading (Binary l op r))) + f)
                (text "**" 0 (Binary l op r) +:+ rest)
              = ts ← tokenize f rest;
                Returns (show 0 (reading (Binary l op r)) ++ ts)) as H.
    { intros kl kr -> ->. rewrite !append_assoc, length_app. cbn [length].
      rewrite <- Nat.add_assoc.
      rewrite (IHl kl _ _ Hl)
        by (destruct op; reflexivity).
      cbn [plus].
      rewrite tokenize_sign by (apply starts_operand_text, Hwr).
      rewrite (IHr kr rest f Hwr Hr).
      destruct (tokenize f rest) as [ts| |]; simpl; [|reflexivity|reflexivity].
      rewrite <- app_assoc. reflexivity. }
    destruct op; [apply (H 0%nat 1%nat) | apply (H 0%nat 1%nat)
                 | apply (H 1%nat 2%nat) | apply (H 1%nat 2%nat)
                 | apply (H 4%nat 2%nat)]; reflexivity.
Qed.

(** *** Induction on the text *)

(** What holds of the numerals, and of a text in parentheses, behind a minus
    sign or on both sides of an operator when it holds of the texts inside,
    holds of the text of every expression. *)
Section TextInduction.
Variable power : string.
Variable P : string -> Prop.
Hypothesis P_number : forall n, well_formed n = true -> P (spelling n).
Hypothesis P_parenthesised : forall u, P u -> P (String "(" (u +:+ ")")).
Hypothesis P_negated : forall u, P u -> P (String "-" u).
Hypothesis P_binary :
  forall u op v, P u -> P v -> P (u +:+ sign power op +:+ v).

Lemma text_induction a :
  forall lvl, well_typed a = true -> P (text power lvl a).
Proof.
  assert (wrap : forall b lvl, P (text power 0 b) -> P (text power lvl b)).
  { intros b lvl H. rewrite text_eq.
    destruct (lvl <=? level (reading b))%nat; auto. }
  induction a as [n|b IH|b IH|l IHl op r IHr]; intros lvl Hw; apply wrap.
  - apply P_number, Hw.
  - exact (P_parenthesised _ (IH 0%nat Hw)).
  - exact (P_negated _ (IH 2%nat Hw)).
  - simpl in Hw. apply andb_prop in Hw as [Hl Hr].
    destruct op.
    + exact (P_binary _ Plus _ (IHl 0%nat Hl) (IHr 1%nat Hr)).
    + exact (P_binary _ Minus _ (IHl 0%nat Hl) (IHr 1%nat Hr)).
    + exact (P_binary _ Times _ (IHl 1%nat Hl) (IHr 2%nat Hr)).
    + exact (P_binary _ Divide _ (IHl 1%nat Hl) (IHr 2%nat Hr)).
    + exact (P_binary _ Power _ (IHl 4%nat Hl) (IHr 2%nat Hr)).
Qed.
End TextInduction.

(** *** The characters of a text *)

Lemma all_chars_spelling (p : ascii -> bool) n :
  (forall c, isdigit c = true -> p c = true) -> p "."%char = true ->
  well_formed n = true -> all_chars p (spelling n) = true.
Proof.
  intros Hd Hp Hw. destruct n as [ds|ip fp]; simpl in Hw |- *.
  - apply andb_prop in Hw as [Hw _]. apply andb_prop in Hw as [_ Hw].
    apply (all_chars_weaken isdigit); assumption.
  - apply andb_prop in Hw as [Hw Hf]. apply andb_prop in Hw as [_ Hi].
    rewrite all_chars_app. cbn [all_chars].
    rewrite (all_chars_weaken isdigit p ip Hd Hi), Hp,
      (all_chars_weaken isdigit p fp Hd Hf).
    reflexivity.
Qed.

Lemma all_chars_text (p : ascii -> bool) power lvl a :
  (forall c, isdigit c = true -> p c = true) ->
  all_chars p ".+-*/()" = true -> all_chars p power = true ->
  well_typed a = true -> all_chars p (text power lvl a) = true.
Proof.
  intros Hd Hp Hpow. cbn [all_chars] in Hp.
  repeat match type of Hp with
         | (_ && _)%bool = true => apply andb_prop in Hp as [? Hp]
         end.
  apply (text_induction power (fun u => all_chars p u = true)).
  - intros n. apply all_chars_spelling; assumption.
  - intros u Hu. cbn [all_chars]. rewrite all_chars_app, Hu. cbn [all_chars].
    repeat match goal with H : p _ = true |- _ => rewrite H; clear H end.
    reflexivity.
  - intros u Hu. cbn [all_chars]. rewrite Hu.
    repeat match goal with H : p _ = true |- _ => rewrite H; clear H end.
    reflexivity.
  - intros u op v Hu Hv. rewrite !all_chars_app, Hu, Hv.
    destruct op; cbn [sign all_chars]; rewrite ?Hpow;
      repeat match goal with H : p _ = true |- _ => rewrite H; clear H end;
      reflexivity.
Qed.

Lemma arithmetic_text power lvl a :
  all_chars arithmetic_char power = true -> well_typed a = true ->
  all_chars arithmetic_char (text power lvl a) = true.
Proof.
  apply all_chars_text; [|reflexivity].
  intros c Hc. unfold arithmetic_char. rewrite Hc. reflexivity.
Qed.

Lemma all_chars_absent (p : ascii -> bool) c s :
  all_chars p s = true -> p c = false -> Calculator.char_in c s = false.
Proof.
  intros Hs Hc. induction s as [|a s IH]; [reflexivity|].
  cbn [all_chars] in Hs. apply andb_prop in Hs as [Ha Hs].
  cbn [Calculator.char_in]. rewrite (IH Hs), orb_false_r.
  apply Ascii.eqb_neq. intros ->. congruence.
Qed.

Lemma all_chars_ends (p q : ascii -> bool) s :
  all_chars p s = true -> (forall c, p c = true -> q c = false) ->
  head_is q s = false /\ last_is q s = false.
Proof.
  intros Hs Hpq. split.
  - destruct s as [|c s]; [reflexivity|]. cbn [all_chars] in Hs.
    apply andb_prop in Hs as [Hc _]. apply Hpq, Hc.
  - induction s as [|c s IH]; [reflexivity|]. cbn [all_chars] in Hs.
    apply andb_prop in Hs as [Hc Hs]. destruct s as [|d s].
    + apply Hpq, Hc.
    + rewrite last_is_cons by discriminate. apply IH, Hs.
Qed.

Lemma arithmetic_char_cases c :
  arithmetic_char c = true ->
  isspace c = false /\ c <> Calculator.times_sign
  /\ c <> Calculator.division_sign /\ Calculator.allowed c = true.
Proof.
  unfold arithmetic_char. intros H. apply orb_prop in H as [H|H].
  - unfold Calculator.allowed. rewrite H.
    destruct c as [[] [] [] [] [] [] [] []]; try discriminate H;
      repeat split; try reflexivity; discriminate.
  - cbn [Calculator.char_in] in H.
    repeat match type of H with
           | (_ || _)%bool = true => apply orb_prop in H as [H|H]
           end;
      try discriminate H; apply Ascii.eqb_eq in H; subst c;
      repeat split; try reflexivity; discriminate.
Qed.

Lemma text_not_empty power lvl a :
  well_typed a = true -> text power lvl a <> "".
Proof.
  intros Hw E. pose proof (starts_operand_text power lvl a "" Hw) as H.
  rewrite E in H. discriminate H.
Qed.

(** *** Preparation of a text *)

Lemma replace_char_app c w u v :
  replace_char c w (u +:+ v) = replace_char c w u +:+ replace_char c w v.
Proof.
  induction u as [|a u IH]; [reflexivity|]. rewrite append_cons.
  cbn [replace_char]. destruct (Ascii.eqb a c).
  - rewrite IH, append_assoc. reflexivity.
  - rewrite IH. reflexivity.
Qed.

Lemma replace_caret_spelling n :
  well_formed n = true -> replace_char "^" "**" (spelling n) = spelling n.
Proof.
  intros Hw. apply replace_char_absent.
  apply (all_chars_absent (fun c => isdigit c || is_char "." c)); [|reflexivity].
  apply all_chars_spelling; [|reflexivity|exact Hw].
  intros c ->. reflexivity.
Qed.

Lemma replace_caret_text a : forall lvl,
  well_typed a = true ->
  replace_char "^" "**" (text "^" lvl a) = text "**" lvl a.
Proof.
  assert (wrap : forall b,
            replace_char "^" "**" (text "^" 0 b) = text "**" 0 b ->
            forall lvl,
            replace_char "^" "**" (text "^" lvl b) = text "**" lvl b).
  { intros b H lvl. rewrite (text_eq "^"), (text_eq "**").
    destruct (lvl <=? level (reading b))%nat; [exact H|].
    cbn [replace_char]. change (Ascii.eqb "(" "^") with false. cbv iota.
    rewrite replace_char_app, H. reflexivity. }
  induction a as [n|b IH|b IH|l IHl op r IHr]; intros lvl Hw; apply wrap.
  - apply replace_caret_spelling, Hw.
  - change (text "^" 0 (Parenthesised b))
      with (String "(" (text "^" 0 b +:+ ")")).
    cbn [replace_char]. change (Ascii.eqb "(" "^") with false. cbv iota.
    rewrite replace_char_app, (IH 0%nat Hw). reflexivity.
  - change (text "^" 0 (Negated b)) with (String "-" (text "^" 2 b)).
    cbn [replace_char]. change (Ascii.eqb "-" "^") with false. cbv iota.
    rewrite (IH 2%nat Hw). reflexivity.
  - simpl in Hw. apply andb_prop in Hw as [Hl Hr].
    assert (forall kl kr,
              replace_char "^" "**"
                (text "^" kl l +:+ sign "^" op +:+ text "^" kr r)
              = text "**" kl l +:+ sign "**" op +:+ text "**" kr r) as H.
    { intros kl kr. rewrite !replace_char_app, (IHl kl Hl), (IHr kr Hr).
      destruct op; reflexivity. }
    destruct op; [apply (H 0%nat 1%nat) | apply (H 0%nat 1%nat)
                 | apply (H 1%nat 2%nat) | apply (H 1%nat 2%nat)
                 | apply (H 4%nat 2%nat)].
Qed.

Lemma has_boundary_digits ds rest :
  all_chars isdigit ds = true -> head_is (is_char "(") rest = false ->
  has_boundary calculator_boundary (ds +:+ rest)
  = has_boundary calculator_boundary rest.
Proof.
  intros Hd Hr. induction ds as [|c ds IH]; [reflexivity|].
  cbn [all_chars] in Hd. apply andb_prop in Hd as [Hc Hd].
  rewrite append_cons. cbn [has_boundary]. rewrite (IH Hd).
  assert (calculator_boundary c (ds +:+ rest) = false) as ->; [|reflexivity].
  unfold calculator_boundary.
  assert (is_char ")" c = false) as ->.
  { apply Ascii.eqb_neq. intros <-. discriminate Hc. }
  assert (head_is (is_char "(") (ds +:+ rest) = false) as ->.
  { destruct ds as [|d ds]; [exact Hr|]. cbn [all_chars] in Hd.
    apply andb_prop in Hd as [Hd' _]. rewrite append_cons. cbn [head_is].
    apply Ascii.eqb_neq. intros <-. discriminate Hd'. }
  rewrite andb_false_r. reflexivity.
Qed.

Lemma after_operand_no_boundary c rest :
  after_operand rest = true ->
  (isdigit c = true \/ c = ")"%char) ->
  calculator_boundary c rest = false.
Proof.
  intros Hr Hc. unfold calculator_boundary.
  assert (head_is isdigit rest = false) as ->
    by (after_operand_case Hr; reflexivity).
  assert (head_is (is_char "(") rest = false) as ->
    by (after_operand_case Hr; reflexivity).
  rewrite !andb_false_r. reflexivity.
Qed.

Lemma has_boundary_text a : forall lvl rest,
  well_typed a = true -> after_operand rest = true ->
  has_boundary calculator_boundary (text "**" lvl a +:+ rest)
  = has_boundary calculator_boundary rest.
Proof.
  intros lvl rest Hw. revert rest.
  apply (text_induction "**"
           (fun u => forall rest, after_operand rest = true ->
              has_boundary calculator_boundary (u +:+ rest)
              = has_boundary calculator_boundary rest)); [| | | |exact Hw].
  - intros n Hn rest Hr.
    assert (head_is (is_char "(") rest = false) as Hp
      by (after_operand_case Hr; reflexivity).
    destruct n as [ds|ip fp]; simpl in Hn |- *.
    + apply andb_prop in Hn as [Hn _]. apply andb_prop in Hn as [_ Hn].
      apply has_boundary_digits; assumption.
    + apply andb_prop in Hn as [Hn Hf]. apply andb_prop in Hn as [_ Hi].
      rewrite append_assoc, has_boundary_digits by (assumption || reflexivity).
      rewrite append_cons. cbn [has_boundary].
      change (calculator_boundary "." (fp +:+ rest)) with false.
      apply has_boundary_digits; assumption.
  - intros u Hu rest Hr. rewrite append_cons, append_assoc.
    cbn [has_boundary]. change (calculator_boundary "(" ?t) with false.
    rewrite (Hu (")" +:+ rest)) by reflexivity.
    change (")" +:+ rest) with (String ")" rest). cbn [has_boundary].
    rewrite after_operand_no_boundary by auto. reflexivity.
  - intros u Hu rest Hr. rewrite append_cons. cbn [has_boundary].
    change (calculator_boundary "-" ?t) with false. apply Hu, Hr.
  - intros u op v Hu Hv rest Hr. rewrite !append_assoc.
    rewrite Hu by (destruct op; reflexivity).
    destruct op; cbn [sign]; rewrite ?append_cons; cbn [has_boundary];
      repeat match goal with
             | |- context [calculator_boundary ?c ?t] =>
                 change (calculator_boundary c t) with false
             end;
      apply Hv, Hr.
Qed.

(** Preparation turns the text as it is typed into the same text in
    Python's notation, and inserts nothing. *)
Lemma prepare_text a :
  well_typed a = true ->
  Calculator._prepare_expression (text "^" 0 a) = text "**" 0 a.
Proof.
  intros Hw. rewrite prepare_expression_one_pass. unfold calculator_text.
  pose proof (arithmetic_text "^" 0 a eq_refl Hw) as Hc.
  pose proof (arithmetic_text "**" 0 a eq_refl Hw) as Hp.
  destruct (all_chars_ends arithmetic_char isspace _ Hc) as [Hh Hl].
  { intros c H. apply arithmetic_char_cases, H. }
  rewrite strip_fixed by assumption.
  rewrite replace_caret_text by exact Hw.
  rewrite (replace_char_absent Calculator.times_sign),
    (replace_char_absent Calculator.division_sign).
  - apply insert_stars_fixed.
    rewrite <- (append_empty (text "**" 0 a)).
    apply (has_boundary_text a 0 "" Hw). reflexivity.
  - apply (all_chars_absent arithmetic_char); [exact Hp|reflexivity].
  - apply (all_chars_absent arithmetic_char); [exact Hp|reflexivity].
Qed.

(** *** The checks on a text *)

Lemma count_parens_text power a : forall lvl k rest,
  all_chars no_parenthesis power = true ->
  well_typed a = true -> (0 <= k)%Z ->
  Calculator.count_parens k (text power lvl a +:+ rest)
  = Calculator.count_parens k rest.
Proof.
  intros lvl k rest Hpow Hw. revert k rest.
  apply (text_induction power
           (fun u => forall k rest, (0 <= k)%Z ->
              Calculator.count_parens k (u +:+ rest)
              = Calculator.count_parens k rest)); [| | | |exact Hw].
  - intros n Hn k rest Hk. apply count_parens_skip_app; [|exact Hk].
    apply all_chars_spelling; [|reflexivity|exact Hn].
    intros c Hc. unfold no_parenthesis.
    destruct c as [[] [] [] [] [] [] [] []]; try discriminate Hc; reflexivity.
  - intros u Hu k rest Hk. rewrite append_cons, append_assoc.
    cbn [Calculator.count_parens]. change (Ascii.eqb "(" "(") with true.
    cbv iota. destruct (k + 1 <? 0)%Z eqn:E; [apply Z.ltb_lt in E; lia|].
    rewrite Hu by lia. change (")" +:+ rest) with (String ")" rest).
    cbn [Calculator.count_parens]. change (Ascii.eqb ")" "(") with false.
    change (Ascii.eqb ")" ")") with true. cbv iota.
    replace (k + 1 - 1)%Z with k by lia.
    destruct (k <? 0)%Z eqn:E'; [apply Z.ltb_lt in E'; lia|]. reflexivity.
  - intros u Hu k rest Hk. rewrite append_cons.
    rewrite count_parens_skip by (reflexivity || assumption). apply Hu, Hk.
  - intros u op v Hu Hv k rest Hk. rewrite !append_assoc, Hu by exact Hk.
    rewrite count_parens_skip_app; [apply Hv, Hk| |exact Hk].
    destruct op; (reflexivity || exact Hpow).
Qed.

Lemma validated_text a :
  well_typed a = true -> validated (text "^" 0 a).
Proof.
  intros Hw. pose proof (text_not_empty "^" 0 a Hw) as Hne.
  pose proof (arithmetic_text "^" 0 a eq_refl Hw) as Hc.
  destruct (all_chars_ends arithmetic_char isspace _ Hc) as [Hh Hl].
  { intros c H. apply arithmetic_char_cases, H. }
  apply String.eqb_neq in Hne. split.
  - rewrite strip_fixed, Hne by assumption. reflexivity.
  - unfold Calculator._validate_expression. rewrite Hne.
    rewrite (all_chars_weaken arithmetic_char Calculator.allowed _
               (fun c H => proj2 (proj2 (proj2 (arithmetic_char_cases c H))))
               Hc).
    cbn [negb andb]. rewrite <- (append_empty (text "^" 0 a)).
    rewrite count_parens_text by (reflexivity || assumption || lia).
    reflexivity.
Qed.

(** *** Evaluation of a text *)

Lemma replace_char_length c s :
  (String.length (replace_char c "**" s) <= 2 * String.length s)%nat.
Proof.
  induction s as [|a s IH]; [simpl; lia|]. cbn [replace_char].
  destruct (Ascii.eqb a c); rewrite ?append_length; cbn [String.length]; lia.
Qed.

Lemma show_length a : forall lvl,
  well_typed a = true ->
  (length (show lvl (reading a)) <= String.length (text "**" lvl a))%nat.
Proof.
  assert (wrap : forall b,
            (length (show 0 (reading b)) <= String.length (text "**" 0 b))%nat ->
            forall lvl,
            (length (show lvl (reading b))
             <= String.length (text "**" lvl b))%nat).
  { intros b H lvl. rewrite text_eq, show_eq.
    destruct (lvl <=? level (reading b))%nat; [exact H|].
    cbn [length String.length]. rewrite length_app, append_length. simpl. lia. }
  induction a as [n|b IH|b IH|l IHl op r IHr]; intros lvl Hw; apply wrap.
  - destruct (well_formed_head n "" Hw) as (c & t & E & _).
    change (text "**" 0 (Number n)) with (spelling n).
    rewrite append_empty in E. rewrite E. simpl. lia.
  - change (text "**" 0 (Parenthesised b))
      with (String "(" (text "**" 0 b +:+ ")")).
    change (show 0 (reading (Parenthesised b)))
      with (TLPar :: show 0 (reading b) ++ TRPar :: nil).
    cbn [length String.length]. rewrite length_app, append_length.
    specialize (IH 0%nat Hw). simpl. lia.
  - change (text "**" 0 (Negated b)) with (String "-" (text "**" 2 b)).
    change (show 0 (reading (Negated b)))
      with (TMinus :: show 2 (reading b)).
    specialize (IH 2%nat Hw). simpl. lia.
  - simpl in Hw. apply andb_prop in Hw as [Hl Hr].
    assert (forall kl kr,
              (length (show kl (reading l) ++ token_of op :: show kr (reading r))
               <= String.length
                    (text "**" kl l +:+ sign "**" op +:+ text "**" kr r))%nat)
      as H.
    { intros kl kr. rewrite length_app, !append_length. cbn [length].
      specialize (IHl kl Hl). specialize (IHr kr Hr).
      destruct op; simpl; lia. }
    destruct op; [apply (H 0%nat 1%nat) | apply (H 0%nat 1%nat)
                 | apply (H 1%nat 2%nat) | apply (H 1%nat 2%nat)
                 | apply (H 4%nat 2%nat)].
Qed.

(** Python reads the text of an expression, in its notation, as the tree of
    the expression. *)
Lemma eval_text a locals :
  well_typed a = true ->
  (String.length (text "**" 0 a) <= longest_source)%nat ->
  Py.eval (text "**" 0 a) locals = eval_expr locals (tree (reading a)).
Proof.
  intros Hw Hlen. unfold Py.eval.
  destruct (longest_source <? String.length (text "**" 0 a))%nat eqn:E;
    [apply Nat.ltb_lt in E; lia|].
  pose proof (show_length a 0 Hw) as Hs.
  pose proof (tokenize_text a 0 ""
                (S (String.length (text "**" 0 a))
                 - length (show 0 (reading a))) Hw eq_refl) as Ht.
  rewrite append_empty in Ht.
  replace (length (show 0 (reading a))
           + (S (String.length (text "**" 0 a)) - length (show 0 (reading a))))%nat
    with (S (String.length (text "**" 0 a))) in Ht by lia.
  rewrite Ht.
  destruct (S (String.length (text "**" 0 a)) - length (show 0 (reading a)))%nat
    as [|f] eqn:Ef; [lia|].
  cbn [tokenize]. cbn [mbind]. simpl. rewrite app_nil_r.
  pose proof (balanced_show (reading a) 0 0 nil) as Hb.
  rewrite app_nil_r in Hb. rewrite Hb. cbn [balanced negb].
  pose proof (show_not_nil 0 (reading a)) as Hn.
  destruct (show 0 (reading a)) as [|t ts] eqn:Eshow; [contradiction|].
  rewrite <- Eshow, parse_show. reflexivity.
Qed.

(** The calculator's answer on the text of an expression, as it is typed,
    is its answer with the interpreter that evaluates the expression's
    tree. *)
Lemma evaluate_expression_text self a :
  well_typed a = true ->
  (String.length (text "^" 0 a) <= longest_typed)%nat ->
  Calculator.evaluate_expression Py.eval self (text "^" 0 a)
  = Calculator.evaluate_expression (evaluator_of (reading a)) self
      (text "^" 0 a).
Proof.
  intros Hw Hlen. unfold Calculator.evaluate_expression.
  rewrite (prepare_text a Hw), eval_text; [reflexivity|exact Hw|].
  rewrite <- (replace_caret_text a 0 Hw).
  pose proof (replace_char_length "^" (text "^" 0 a)) as H.
  unfold longest_typed, longest_source in *. lia.
Qed.

(** ** The grapher and what the text writes *)

(** [evaluate] writes nothing itself: it leaves what the text left. *)
Lemma evaluate_leaves {S : Type} (grapher : S -> Grapher.Grapher)
    (eval : Frames.interpreter S) s expression x_value :
  match Frames.evaluate grapher eval s expression x_value with
  | NotModelled => True
  | r =>
      left_by r
      = left_by (eval expression
                   (<["x" := x_value]> (Grapher.math_context (grapher s))) s)
  end.
Proof.
  unfold Frames.evaluate, Frames.handle.
  destruct (eval expression _ s) as [[n|f|b] s'|exn s'|]; cbn [to_float];
    try exact I.
  - destruct (float_of_int n) as [f|exn|]; [| |exact I].
    + destruct (negb (is_nan f) && negb (is_infinity f)); reflexivity.
    + destruct (Grapher.caught exn); reflexivity.
  - destruct (negb (is_nan f) && negb (is_infinity f)); reflexivity.
  - reflexivity.
  - destruct (Grapher.caught exn); reflexivity.
Qed.

Lemma evaluate_keeps {S : Type} (grapher : S -> Grapher.Grapher)
    (eval : Frames.interpreter S) (J : S -> Prop) s expression x_value :
  kept_by eval J -> J s ->
  match Frames.evaluate grapher eval s expression x_value with
  | Returned _ s' | Raised _ s' => J s'
  | NotModelled => True
  end.
Proof.
  intros HJ Hs.
  pose proof (evaluate_leaves grapher eval s expression x_value) as H.
  specialize (HJ expression
                (<["x" := x_value]> (Grapher.math_context (grapher s))) s Hs).
  destruct (Frames.evaluate grapher eval s expression x_value) as [y s'|exn s'|];
    [| |exact I];
    destruct (eval expression _ s) as [v s''|exn' s''|];
    try discriminate H; injection H as ->; exact HJ.
Qed.

Lemma evaluate_finite {S : Type} (grapher : S -> Grapher.Grapher)
    (eval : Frames.interpreter S) s expression x_value y s' :
  Frames.evaluate grapher eval s expression x_value = Returned (Some y) s' ->
  is_finite y = true.
Proof.
  unfold Frames.evaluate, Frames.handle. intros H.
  case_scrutinee H; try discriminate H; injection H as <- <-;
    unfold is_finite;
    match goal with E : negb _ && negb _ = true |- _ =>
      apply andb_prop in E as [E1 E2];
      apply negb_true_iff in E1, E2; rewrite E1, E2 end; reflexivity.
Qed.

(** The loop keeps what the text keeps and the appending of a point with a
    finite y keeps. *)
Lemma sample_keeps {W : Type} (grapher : W -> Grapher.Grapher)
    (eval : Frames.interpreter (Frames.frames W))
    (J : Frames.frames W -> Prop) expression x_min step :
  kept_by eval J ->
  (forall x y fr, is_finite y = true -> J fr -> J (Frames.append x y fr)) ->
  forall indices fr,
    J fr ->
    match Frames.sample grapher eval fr expression x_min step indices with
    | Returned _ fr' | Raised _ fr' => J fr'
    | NotModelled => True
    end.
Proof.
  intros HJ Happ. induction indices as [|i indices IH]; intros fr Hfr.
  - exact Hfr.
  - cbn [Frames.sample].
    destruct (float_of_int i) as [fi|exn|]; [|exact Hfr|exact I].
    pose proof (evaluate_keeps (fun fr => grapher (Frames.objects fr)) eval J
                  fr expression (VFloat (x_min + fi * step)%float) HJ Hfr)
      as Hk.
    destruct (Frames.evaluate _ eval fr expression _)
      as [[y|] fr'|exn fr'|] eqn:E; [| |exact Hk|exact I].
    + apply IH, Happ; [|exact Hk]. apply (evaluate_finite _ _ _ _ _ _ _ E).
    + apply IH, Hk.
Qed.

(** [generate_plot_data] writes nothing of what its caller can reach: a
    property of it that no run of the text undoes holds afterwards. *)
Lemma generate_plot_data_keeps {W : Type} (grapher : W -> Grapher.Grapher)
    (eval : Frames.interpreter (Frames.frames W)) (inv : W -> Prop)
    w func_string x_min x_max num_points :
  kept_by eval (fun fr => inv (Frames.objects fr)) -> inv w ->
  match Frames.generate_plot_data grapher eval w func_string x_min x_max
          num_points with
  | Returned _ w' | Raised _ w' => inv w'
  | NotModelled => True
  end.
Proof.
  intros HI Hw. unfold Frames.generate_plot_data.
  destruct (binary_op Div _ _) as [[n|step|b]|exn|]; try exact I; try exact Hw.
  pose proof (sample_keeps grapher eval (fun fr => inv (Frames.objects fr))
                (Grapher.parse_function func_string) x_min step HI
                (fun _ _ _ _ H => H) (Grapher.range num_points)
                {| Frames.x_values := nil; Frames.y_values := nil;
                   Frames.objects := w |} Hw) as H.
  destruct (Frames.sample _ _ _ _ _ _ _) as [[] fr'|exn fr'|]; [| |exact I].
  - destruct (Frames.x_values fr'); exact H.
  - exact H.
Qed.

(** The y values [generate_plot_data] returns are finite if no run of the
    text puts another one in the list. *)
Lemma generate_plot_data_finite {W : Type} (grapher : W -> Grapher.Grapher)
    (eval : Frames.interpreter (Frames.frames W))
    w func_string x_min x_max num_points xs ys w' :
  kept_by eval (fun fr => finite_values (Frames.y_values fr)) ->
  Frames.generate_plot_data grapher eval w func_string x_min x_max num_points
  = Returned (xs, ys) w' ->
  finite_values ys.
Proof.
  intros HJ. unfold Frames.generate_plot_data.
  destruct (binary_op Div _ _) as [[n|step|b]|exn|]; try discriminate.
  pose proof (sample_keeps grapher eval
                (fun fr => finite_values (Frames.y_values fr))
                (Grapher.parse_function func_string) x_min step HJ) as H.
  assert (forall x y (fr : Frames.frames W),
            is_finite y = true -> finite_values (Frames.y_values fr) ->
            finite_values (Frames.y_values (Frames.append x y fr))) as Happ.
  { intros x y fr Hy Hfr. apply List.Forall_app. split; [exact Hfr|].
    constructor; [exact Hy|constructor]. }
  specialize (H Happ (Grapher.range num_points)
                {| Frames.x_values := nil; Frames.y_values := nil;
                   Frames.objects := w |} (List.Forall_nil _)).
  destruct (Frames.sample _ _ _ _ _ _ _) as [[] fr'|exn fr'|];
    try discriminate.
  destruct (Frames.x_values fr'); [discriminate|].
  intros [= _ <- _]. exact H.
Qed.

(** *** Texts that write nothing *)

Lemma pure_writes_nothing {S : Type} (ev : evaluator) :
  writes_nothing (@Frames.pure S ev).
Proof.
  intros source locals s. unfold Frames.pure.
  destruct (ev source locals); auto.
Qed.

Lemma writes_nothing_keeps {S : Type} (eval : Frames.interpreter S) J :
  writes_nothing eval -> kept_by eval J.
Proof.
  intros H source locals s Hs. specialize (H source locals s).
  destruct (eval source locals s); subst; auto.
Qed.

Lemma evaluate_pure {S : Type} (grapher : S -> Grapher.Grapher)
    (ev : evaluator) s expression x_value :
  Frames.evaluate grapher (Frames.pure ev) s expression x_value
  = leaving s (Grapher.evaluate ev (grapher s) expression x_value).
Proof.
  unfold Frames.evaluate, Grapher.evaluate, Frames.pure, Frames.handle,
    Grapher.handle.
  destruct (ev expression _) as [[n|f|b]|exn|]; cbn [to_float leaving];
    try reflexivity.
  - destruct (float_of_int n) as [f|exn|]; [| |reflexivity].
    + destruct (negb (is_nan f) && negb (is_infinity f)); reflexivity.
    + destruct (Grapher.caught exn); reflexivity.
  - destruct (negb (is_nan f) && negb (is_infinity f)); reflexivity.
  - destruct (Grapher.caught exn); reflexivity.
Qed.

Lemma sample_pure {W : Type} (grapher : W -> Grapher.Grapher)
    (ev : evaluator) w expression x_min step indices :
  forall xs ys,
  match Frames.sample grapher (Frames.pure ev)
          {| Frames.x_values := xs; Frames.y_values := ys;
             Frames.objects := w |} expression x_min step indices,
        Grapher.sample ev (grapher w) expression x_min step indices xs ys with
  | Returned _ fr, Returned (xs', ys') _ =>
      fr = {| Frames.x_values := xs'; Frames.y_values := ys';
              Frames.objects := w |}
  | Raised exn fr, Raised exn' _ => exn = exn' /\ Frames.objects fr = w
  | NotModelled, NotModelled => True
  | _, _ => False
  end.
Proof.
  induction indices as [|i indices IH]; intros xs ys;
    cbn [Frames.sample Grapher.sample]; [reflexivity|].
  destruct (float_of_int i) as [fi|exn|]; [|split; reflexivity|exact I].
  rewrite evaluate_pure. cbn [Frames.objects].
  pose proof (evaluate_inv ev (grapher w) expression
                (VFloat (x_min + fi * step)%float) _ eq_refl) as Hs.
  destruct (Grapher.evaluate ev (grapher w) expression _)
    as [[y|] g|exn g|]; cbn [leaving].
  - destruct Hs as [_ ->]. apply IH.
  - subst g. apply IH.
  - split; reflexivity.
  - exact I.
Qed.

(** On a text that writes nothing the grapher does as the module [Grapher]
    has it, and leaves what its caller can reach as it was. *)
Lemma generate_plot_data_pure {W : Type} (grapher : W -> Grapher.Grapher)
    (ev : evaluator) w func_string x_min x_max num_points :
  Frames.generate_plot_data grapher (Frames.pure ev) w func_string x_min
    x_max num_points
  = leaving w (Grapher.generate_plot_data ev (grapher w) func_string x_min
                 x_max num_points).
Proof.
  unfold Frames.generate_plot_data, Grapher.generate_plot_data.
  destruct (binary_op Div _ _) as [[n|step|b]|exn|]; try reflexivity.
  pose proof (sample_pure grapher ev w (Grapher.parse_function func_string)
                x_min step (Grapher.range num_points) nil nil) as H.
  destruct (Frames.sample _ _ _ _ _ _ _) as [[] fr|exn fr|];
    destruct (Grapher.sample _ _ _ _ _ _ _ _) as [[xs ys] g|exn' g|];
    try contradiction.
  - subst fr. cbn [Frames.x_values Frames.y_values Frames.objects].
    destruct xs; reflexivity.
  - destruct H as [-> ->]. reflexivity.
  - reflexivity.
Qed.

(** * The claims *)

(** ** Precedence and associativity *)



(** ** Implicit multiplication *)

(** C2, as the specification states it, fails: neither normalizer inserts a
    multiplication sign at every boundary the specification lists. *)
Lemma C2_counterexample :
  Calculator._prepare_expression "2sqrt(4)" = "2sqrt(4)"
  /\ has_boundary spec_boundary (Calculator._prepare_expression "2sqrt(4)") = true
  /\ Grapher.parse_function "2(x+1)" = "2(x+1)"
  /\ has_boundary spec_boundary (Grapher.parse_function "2(x+1)") = true.
Proof. repeat split; vm_compute; reflexivity. Qed.

(** C2, amended: the calculator's normalization inserts a multiplication
    sign at every boundary of its kinds (a digit before [(]; [)] before a
    digit or [(]), the grapher's at every boundary of its kinds (a digit
    before [x] or one of [sin cos tan sqrt]; [x] before [(]; [)] before [x],
    [(] or a digit), each in one pass over the text; so ["2(3+4)"] evaluates
    to 14 in the calculator, and ["2x+1"] compiled for the grapher and
    evaluated at 3 gives 7. *)
Theorem C2_implicit_multiplication :
  (forall expression,
     Calculator._prepare_expression expression
     = insert_stars calculator_boundary (calculator_text expression))
  /\ (forall func_string,
        Grapher.parse_function func_string
        = insert_stars grapher_boundary (grapher_text func_string))
  /\ (forall self,
        Calculator.evaluate_expression Py.eval self "2(3+4)"
        = Returned 14%float (stored 14 self))
  /\ Grapher.parse_function "2x+1" = "2*x+1"
  /\ Grapher.evaluate Py.eval Grapher.__init__
       (Grapher.parse_function "2x+1") (VInt 3)
     = Returned (Some 7%float) Grapher.__init__.
Proof.
  split; [exact prepare_expression_one_pass|].
  split; [exact parse_function_one_pass|].
  repeat split; vm_compute; reflexivity.
Qed.

(** ** Division by zero *)

(** C3, as the specification states it, fails: the right operand of the
    division is exactly zero, yet Python's error is the overflow of the
    left operand's conversion, and the calculator reports that. *)
Lemma C3_counterexample :
  Py.eval "0.0" ∅ = Returns (VFloat 0)
  /\ Calculator.evaluate_expression Py.eval Calculator.__init__ "10**400/0.0"
     = Raised (ValueError (CouldNotEvaluateExpression OverflowError))
         Calculator.__init__.
Proof. split; vm_compute; reflexivity. Qed.

Lemma binary_op_zero_division a b :
  is_zero_value b = true -> convertible a b ->
  binary_op Div a b = Raises ZeroDivisionError.
Proof.
  destruct a as [m|fa|ba], b as [n|fb|bb]; simpl; intros Hz Hc;
    try discriminate Hz;
    try match type of Hc with
        | exists _, Raises _ = _ => destruct Hc as [? Hf]; discriminate Hf
        end.
  - unfold int_truediv. rewrite Hz. reflexivity.
  - destruct Hc as [f ->]. simpl. rewrite Hz. reflexivity.
  - apply Z.eqb_eq in Hz. subst n. reflexivity.
  - rewrite Hz. reflexivity.
Qed.

(** C3, amended: whenever both operands of a division evaluate, the right
    one to exactly zero and the left one to an int dividing an int or to a
    number that converts to a float, the division raises
    [ZeroDivisionError]; whenever the interpreter raises it, the calculator
    fails with "Cannot divide by zero", as it does on ["5/0"], and
    single-point evaluation in the grapher returns no value ([None])
    instead of raising. *)
Theorem C3_division_by_zero locals l r a b :
  eval_expr locals l = Returns a ->
  eval_expr locals r = Returns b ->
  is_zero_value b = true ->
  convertible a b ->
  eval_expr locals (BinOp l Div r) = Raises ZeroDivisionError
  /\ (forall (ev : evaluator) self expression,
        validated expression ->
        ev (Calculator._prepare_expression expression)
          (Calculator.math_context self) = Raises ZeroDivisionError ->
        Calculator.evaluate_expression ev self expression
        = Raised (ValueError CannotDivideByZero) self)
  /\ (forall self,
        Calculator.evaluate_expression Py.eval self "5/0"
        = Raised (ValueError CannotDivideByZero) self)
  /\ (forall (ev : evaluator) self expression x,
        ev expression (<["x" := x]> (Grapher.math_context self))
        = Raises ZeroDivisionError ->
        Grapher.evaluate ev self expression x = Returned None self)
  /\ (forall x,
        Grapher.evaluate Py.eval Grapher.__init__ "5/0" (VFloat x)
        = Returned None Grapher.__init__).
Proof.
  intros Hl Hr Hz Hc. split.
  { simpl. rewrite Hl, Hr. simpl. apply binary_op_zero_division; assumption. }
  split.
  { intros ev self expression [Hne Hv] He.
    unfold Calculator.evaluate_expression. rewrite Hne, Hv, He. reflexivity. }
  split; [intros self; vm_compute; reflexivity|].
  split.
  { intros ev self expression x He. unfold Grapher.evaluate. rewrite He.
    reflexivity. }
  intros x. vm_compute. reflexivity.
Qed.

Lemma C3_witness :
  eval_expr ∅ (BinOp (Constant (VInt 5)) Div (Constant (VFloat 0)))
  = Raises ZeroDivisionError.
Proof.
  refine (proj1 (C3_division_by_zero ∅ (Constant (VInt 5)) (Constant (VFloat 0))
                   (VInt 5) (VFloat 0) eq_refl eq_refl eq_refl _)).
  exists 5%float. vm_compute. reflexivity.
Defined.

(** ** Finite results *)



(** ** Sampling *)

(** C5: [generate_plot_data] is to skip silently any point at which
    evaluation fails, without aborting the sample.  [evaluate] catches five
    kinds of exception only; a [TypeError] at a point, as for the function
    ["2(x+1)"], leaves [evaluate] and aborts the whole sample. *)
Theorem C5_sample_aborts_on_type_error :
  Grapher.parse_function "2(x+1)" = "2(x+1)"
  /\ Grapher.evaluate Py.eval Grapher.__init__ "2(x+1)" (VFloat (-1))
     = Raised TypeError Grapher.__init__
  /\ Grapher.generate_plot_data Py.eval Grapher.__init__ "2(x+1)" (-1) 1 3
     = Raised TypeError Grapher.__init__.
Proof. repeat split; vm_compute; reflexivity. Qed.

(** C6, as the specification states it, fails: with [x_min = x_max], or
    [x_min > x_max], and three points the call returns a series. *)
Lemma C6_counterexample :
  Grapher.generate_plot_data Py.eval Grapher.__init__ "x" 1 1 3
  = Returned ((1 :: 1 :: 1 :: nil)%float, (1 :: 1 :: 1 :: nil)%float)
      Grapher.__init__
  /\ Grapher.generate_plot_data Py.eval Grapher.__init__ "x" 2 1 3
     = Returned ((2 :: 1.5 :: 1 :: nil)%float, (2 :: 1.5 :: 1 :: nil)%float)
         Grapher.__init__.
Proof. split; vm_compute; reflexivity. Qed.

(** C6, amended: [generate_plot_data] checks neither the range nor the
    count.  For every call with a count below 2 it fails before any point
    is sampled, the interpreter never being consulted: when the step
    computation raises (it raises [ZeroDivisionError] for a count of 1) with
    that exception, otherwise, the series being empty, with "Could not
    evaluate function". *)
Theorem C6_count_below_two (ev : evaluator) self func_string x_min x_max
    num_points :
  (num_points < 2)%Z ->
  match step_of x_min x_max num_points with
  | Raises exn =>
      Grapher.generate_plot_data ev self func_string x_min x_max num_points
      = Raised exn self
  | _ =>
      Grapher.generate_plot_data ev self func_string x_min x_max num_points
      = Raised (ValueError (CouldNotEvaluateFunction func_string)) self
  end
  /\ (num_points = 1%Z ->
      step_of x_min x_max num_points = Raises ZeroDivisionError).
Proof.
  intros H. split.
  - unfold Grapher.generate_plot_data. fold (step_of x_min x_max num_points).
    assert (num_points = 1 \/ num_points <= 0)%Z as [-> | Hn] by lia.
    + reflexivity.
    + assert (Grapher.range num_points = nil) as R.
      { unfold Grapher.range. destruct num_points; try lia; reflexivity. }
      unfold step_of. simpl. unfold float_of_int.
      destruct (is_infinity (nearest_float (num_points - 1))); simpl;
        [reflexivity|].
      destruct (is_zero (nearest_float (num_points - 1))); [reflexivity|].
      rewrite R. reflexivity.
  - intros ->. reflexivity.
Qed.

Lemma C6_witness :
  Grapher.generate_plot_data Py.eval Grapher.__init__ "x" 0 1 0
  = Raised (ValueError (CouldNotEvaluateFunction "x")) Grapher.__init__.
Proof.
  exact (proj1 (C6_count_below_two Py.eval Grapher.__init__ "x" 0 1 0 eq_refl)).
Defined.

(** ** State *)

(** C7, as the specification states it, fails: a successful evaluation
    changes the calculator's [last_result]; and a function text can write
    the grapher's [math_context] while [evaluate] evaluates it. *)
Lemma C7_counterexample :
  Calculator.evaluate_expression Py.eval Calculator.__init__ "2+3"
  = Returned 5%float (stored 5 Calculator.__init__)
  /\ stored 5 Calculator.__init__ <> Calculator.__init__
  /\ Frames.evaluate id Frames.eval_in_evaluate Grapher.__init__
       Frames.rebinds_pi (VFloat 0)
     = Returned (Some 0%float) (Frames.rebind_pi Grapher.__init__)
  /\ Frames.rebind_pi Grapher.__init__ <> Grapher.__init__.
Proof.
  split; [vm_compute; reflexivity|]. split.
  { intros H. apply (f_equal Calculator.last_result) in H. discriminate H. }
  split; [vm_compute; reflexivity|].
  intros H.
  apply (f_equal (fun g => Grapher.math_context g !! "pi")) in H.
  vm_compute in H. discriminate H.
Qed.

(** C7, amended: an evaluation that fails leaves the calculator as it was;
    one that succeeds stores the returned value in [last_result] and changes
    nothing else.  The methods of the grapher write no field themselves:
    point evaluation leaves the grapher, and whatever else the evaluated
    text can reach, as the text left it; plot sampling keeps every
    property of what its caller can reach that no run of the text undoes;
    so both leave all of it as it was when the text writes nothing.
    (Function compilation has no access to the object.) *)
Theorem C7_state_after_a_call :
  (forall (ev : evaluator) self expression,
     match Calculator.evaluate_expression ev self expression with
     | Returned r self' => self' = stored r self
     | Raised _ self' => self' = self
     | NotModelled => True
     end)
  /\ (forall (S : Type) (grapher : S -> Grapher.Grapher)
             (eval : Frames.interpreter S) s expression x,
        match Frames.evaluate grapher eval s expression x with
        | NotModelled => True
        | r =>
            left_by r
            = left_by (eval expression
                         (<["x" := x]> (Grapher.math_context (grapher s))) s)
        end)
  /\ (forall (W : Type) (grapher : W -> Grapher.Grapher)
             (eval : Frames.interpreter (Frames.frames W)) (kept : W -> Prop)
             w func_string x_min x_max num_points,
        kept_by eval (fun fr => kept (Frames.objects fr)) ->
        kept w ->
        match Frames.generate_plot_data grapher eval w func_string x_min
                x_max num_points with
        | Returned _ w' | Raised _ w' => kept w'
        | NotModelled => True
        end)
  /\ (forall (S : Type) (grapher : S -> Grapher.Grapher)
             (eval : Frames.interpreter S) s expression x,
        writes_nothing eval ->
        match Frames.evaluate grapher eval s expression x with
        | Returned _ s' | Raised _ s' => s' = s
        | NotModelled => True
        end)
  /\ (forall (W : Type) (grapher : W -> Grapher.Grapher)
             (eval : Frames.interpreter (Frames.frames W))
             w func_string x_min x_max num_points,
        writes_nothing eval ->
        match Frames.generate_plot_data grapher eval w func_string x_min
                x_max num_points with
        | Returned _ w' | Raised _ w' => w' = w
        | NotModelled => True
        end).
Proof.
  split.
  { intros ev self expression.
    pose proof (evaluate_expression_inv ev self expression _ eq_refl) as H.
    destruct (Calculator.evaluate_expression ev self expression); auto.
    apply H. }
  split; [intros; apply evaluate_leaves|].
  split; [intros; apply generate_plot_data_keeps; assumption|].
  split.
  { intros S grapher eval s expression x Hq.
    apply (evaluate_keeps grapher eval (fun s' => s' = s));
      [apply writes_nothing_keeps, Hq|reflexivity]. }
  intros W grapher eval w func_string x_min x_max num_points Hq.
  apply (generate_plot_data_keeps grapher eval (fun w' => w' = w));
    [apply writes_nothing_keeps, Hq|reflexivity].
Qed.

(** ** The function header *)

(** C8: [parse_function] is to remove the header [f(x)=] if it is there
    ("Remove f(x)= prefix if present", says its comment, and so does the
    specification).  It tests for [f(x)] only: ["f(x)+1"] has no header,
    and [parse_function] takes the [f(x)] off all the same, so that the
    text is plotted as the constant 1 instead of being refused for the
    unknown name [f].  A text with the header is compiled as it is to be. *)
Theorem C8_header_without_equals_sign_is_stripped :
  startswith (lower (strip "f(x)+1")) "f(x)=" = false
  /\ Grapher.parse_function "f(x)+1" = "+1"
  /\ Grapher.generate_plot_data Py.eval Grapher.__init__ "f(x)+1" 0 1 3
     = Returned ((0 :: 0.5 :: 1 :: nil)%float, (1 :: 1 :: 1 :: nil)%float)
         Grapher.__init__
  /\ Grapher.evaluate Py.eval Grapher.__init__ "f(x)+1" (VFloat 0)
     = Returned None Grapher.__init__
  /\ Grapher.parse_function "f(x)=x+1" = "x+1".
Proof. repeat split; vm_compute; reflexivity. Qed.

(** ** Delegation to the interpreter *)

(** C9: the core is not to run code of the user.  [Grapher.evaluate] hands
    the function text to [eval] as it comes ("Evaluate the expression
    safely", says its comment): [parse_function] leaves the text
    [rebinds_pi] as it is, and its evaluation at a point binds [pi] to 3 in
    the context of the grapher, for every later evaluation.  Point
    evaluation consults the interpreter on any text whatever, without a
    check, and leaves what the text did.  The calculator checks the
    characters first, and evaluates what they allow: ["7//2"], whose floor
    division is no operator of the fixed grammar, gives 3. *)
Theorem C9_evaluate_runs_the_text_it_is_given :
  Grapher.parse_function Frames.rebinds_pi = Frames.rebinds_pi
  /\ Frames.evaluate id Frames.eval_in_evaluate Grapher.__init__
       Frames.rebinds_pi (VFloat 0)
     = Returned (Some 0%float) (Frames.rebind_pi Grapher.__init__)
  /\ Grapher.math_context Grapher.__init__ !! "pi"
     = Some (VFloat Calculator.pi)
  /\ Grapher.math_context (Frames.rebind_pi Grapher.__init__) !! "pi"
     = Some (VInt 3)
  /\ Frames.evaluate id Frames.eval_in_evaluate
       (Frames.rebind_pi Grapher.__init__) "pi" (VFloat 0)
     = Returned (Some 3%float) (Frames.rebind_pi Grapher.__init__)
  /\ (forall (S : Type) (grapher : S -> Grapher.Grapher)
             (eval : Frames.interpreter S) s expression x,
        match Frames.evaluate grapher eval s expression x with
        | NotModelled => True
        | r =>
            left_by r
            = left_by (eval expression
                         (<["x" := x]> (Grapher.math_context (grapher s))) s)
        end)
  /\ parse (TNumber (VInt 7) :: TDoubleSlash :: TNumber (VInt 2) :: nil)
     = Some (BinOp (Constant (VInt 7)) FloorDiv (Constant (VInt 2)))
  /\ in_fixed_grammar (BinOp (Constant (VInt 7)) FloorDiv (Constant (VInt 2)))
     = false
  /\ Calculator.evaluate_expression Py.eval Calculator.__init__ "7//2"
     = Returned 3%float (stored 3 Calculator.__init__).
Proof.
  do 5 (split; [vm_compute; reflexivity|]).
  split; [intros; apply evaluate_leaves|].
  repeat split; vm_compute; reflexivity.
Qed.

(** ** Failure is atomic *)

(** C10: for every input on which [evaluate_expression] fails, the
    calculator's [last_result] is unchanged. *)
Theorem C10_failure_keeps_last_result (ev : evaluator) self expression exn
    self' :
  Calculator.evaluate_expression ev self expression = Raised exn self' ->
  Calculator.last_result self' = Calculator.last_result self.
Proof.
  intros H. apply evaluate_expression_inv in H. rewrite H. reflexivity.
Qed.

Lemma C10_witness :
  Calculator.last_result (stored 7 Calculator.__init__) = VFloat 7.
Proof.
  exact (C10_failure_keeps_last_result Py.eval (stored 7 Calculator.__init__)
           "5/0" (ValueError CannotDivideByZero)
           (stored 7 Calculator.__init__) eq_refl).
Defined.

(** ** Point evaluation and sampling *)


Lemma flat_map_kept_length (ev : evaluator) self expression points :
  (length (flat_map (kept ev self expression) points) <= length points)%nat.
Proof.
  induction points as [|x points IH]; [apply Nat.le_refl|].
  cbn [flat_map]. rewrite length_app. unfold kept at 1.
  destruct (Grapher.evaluate ev self expression (VFloat x)) as [[y|] ?| |];
    simpl; lia.
Qed.

Lemma generate_plot_data_size (ev : evaluator) self func_string x_min x_max
    num_points xs ys self' :
  Grapher.generate_plot_data ev self func_string x_min x_max num_points
  = Returned (xs, ys) self' ->
  length xs = length ys /\ (1 <= length xs <= Z.to_nat num_points)%nat.
Proof.
  intros H.
  destruct (generate_plot_data_series _ _ _ _ _ _ _ _ _ H)
    as (divisor & _ & L & Hne & Hc).
  split; [exact L|]. split.
  - destruct xs; [contradiction|simpl; lia].
  - assert (length (combine xs ys) = length xs) as <-
      by (rewrite length_combine; lia).
    rewrite Hc. etransitivity; [apply flat_map_kept_length|].
    unfold sample_points, Grapher.range.
    rewrite !length_map, length_seq. apply Nat.le_refl.
Qed.

Lemma generate_plot_data_kept (ev : evaluator) self func_string x_min x_max
    num_points xs ys self' :
  Grapher.generate_plot_data ev self func_string x_min x_max num_points
  = Returned (xs, ys) self' ->
  exists step,
    step_of x_min x_max num_points = Returns (VFloat step)
    /\ combine xs ys
       = flat_map (kept ev self (Grapher.parse_function func_string))
           (sample_points x_min step (Grapher.range num_points))
    /\ length xs = length ys
    /\ (1 <= length xs <= Z.to_nat num_points)%nat.
Proof.
  intros H. destruct (generate_plot_data_size _ _ _ _ _ _ _ _ _ H) as [L Hn].
  destruct (generate_plot_data_series _ _ _ _ _ _ _ _ _ H)
    as (divisor & Hd & _ & _ & Hc).
  exists ((x_max - x_min) / divisor)%float.
  split; [|auto].
  unfold Grapher.generate_plot_data in H. unfold step_of.
  cbn [binary_op to_float] in *. rewrite Hd in *.
  cbn [mbind outcome_bind float_op] in *.
  destruct (is_zero divisor); [discriminate H|reflexivity].
Qed.

(** X12: What [generate_plot_data] returns for a function text that writes
    nothing: the pairs of the sample points [x_min + i * step], [i] in
    [range(num_points)], at which [evaluate] gave a value, in the order of
    [i]; as many x as y values, at least one and at most [num_points]; and
    what the caller of the grapher holds is as it was. *)
Theorem generate_plot_data_returns_the_kept_points {W : Type}
    (grapher : W -> Grapher.Grapher) (ev : evaluator) w func_string x_min
    x_max num_points xs ys w' :
  Frames.generate_plot_data grapher (Frames.pure ev) w func_string x_min x_max
    num_points
  = Returned (xs, ys) w' ->
  w' = w
  /\ exists step,
       step_of x_min x_max num_points = Returns (VFloat step)
       /\ combine xs ys
          = flat_map (kept ev (grapher w) (Grapher.parse_function func_string))
              (sample_points x_min step (Grapher.range num_points))
       /\ length xs = length ys
       /\ (1 <= length xs <= Z.to_nat num_points)%nat.
Proof.
  rewrite generate_plot_data_pure. intros H.
  destruct (Grapher.generate_plot_data ev (grapher w) func_string x_min x_max
              num_points) as [[xs' ys'] g|exn g|] eqn:E; try discriminate H.
  injection H as -> -> ->. split; [reflexivity|].
  exact (generate_plot_data_kept _ _ _ _ _ _ _ _ _ E).
Qed.

Lemma generate_plot_data_returns_the_kept_points_witness :
  Grapher.__init__ = Grapher.__init__
  /\ exists step,
       step_of 0 1 3 = Returns (VFloat step)
       /\ combine (0 :: 0.5 :: 1 :: nil)%float (1 :: 2 :: 3 :: nil)%float
          = flat_map (kept Py.eval Grapher.__init__
                        (Grapher.parse_function "2x+1"))
              (sample_points 0 step (Grapher.range 3))
       /\ length (0 :: 0.5 :: 1 :: nil)%float
          = length (1 :: 2 :: 3 :: nil)%float
       /\ (1 <= length (0 :: 0.5 :: 1 :: nil)%float <= Z.to_nat 3)%nat.
Proof.
  apply (generate_plot_data_returns_the_kept_points id Py.eval
           Grapher.__init__ "2x+1" 0 1 3 _ _ Grapher.__init__).
  vm_compute. reflexivity.
Defined.

(** ** The window: the list of plotted functions *)

Lemma position_spec {A : Type} (items : list A) index i :
  CalculatorApp.position items index = Some i ->
  (i < length items)%nat
  /\ ((0 <= index)%Z -> i = Z.to_nat index).
Proof.
  unfold CalculatorApp.position. intros H.
  destruct (index <? 0)%Z eqn:En;
    [apply Z.ltb_lt in En | apply Z.ltb_ge in En];
    destruct (_ && _) eqn:E; try discriminate H;
    apply andb_prop in E as [E1 E2]; apply Z.leb_le in E1;
    apply Z.ltb_lt in E2; injection H as <-; split; lia.
Qed.

Lemma position_in_range {A : Type} (items : list A) index :
  (0 <= index < Z.of_nat (length items))%Z ->
  CalculatorApp.position items index = Some (Z.to_nat index).
Proof.
  intros [H1 H2]. unfold CalculatorApp.position.
  destruct (index <? 0)%Z eqn:En; [apply Z.ltb_lt in En; lia|].
  apply Z.leb_le in H1. apply Z.ltb_lt in H2. rewrite H1, H2. reflexivity.
Qed.

Lemma getitem_in_range {A : Type} (items : list A) index :
  (0 <= index < Z.of_nat (length items))%Z ->
  exists a, CalculatorApp.getitem items index = Some a
            /\ nth_error items (Z.to_nat index) = Some a.
Proof.
  intros H. unfold CalculatorApp.getitem. rewrite position_in_range by exact H.
  destruct (nth_error items (Z.to_nat index)) as [a|] eqn:E; [eauto|].
  apply nth_error_None in E. lia.
Qed.

Lemma replace_nth_Forall {A : Type} (P : A -> Prop) i a items :
  P a -> Forall P items -> Forall P (CalculatorApp.replace_nth i a items).
Proof.
  intros Ha H. revert i. induction H as [|b items Hb H IH]; intros [|i];
    simpl; auto.
Qed.

Lemma remove_nth_Forall {A : Type} (P : A -> Prop) i items :
  Forall P items -> Forall P (CalculatorApp.remove_nth i items).
Proof.
  intros H. revert i. induction H as [|b items Hb H IH]; intros [|i];
    simpl; auto.
Qed.

Lemma next_color self :
  exists c,
    CalculatorApp._get_next_color self = Some c
    /\ nth_error CalculatorApp.PLOT_COLORS
         (length (CalculatorApp.plotted_functions self) mod 10) = Some c
    /\ In c CalculatorApp.PLOT_COLORS.
Proof.
  unfold CalculatorApp._get_next_color.
  set (n := length (CalculatorApp.plotted_functions self)).
  assert (0 <= Z.of_nat n mod Z.of_nat (length CalculatorApp.PLOT_COLORS)
          < Z.of_nat (length CalculatorApp.PLOT_COLORS))%Z as Hr
    by (apply Z.mod_pos_bound; simpl; lia).
  destruct (getitem_in_range _ _ Hr) as (c & Hg & Hn).
  exists c. split; [exact Hg|].
  assert (Z.to_nat (Z.of_nat n mod Z.of_nat (length CalculatorApp.PLOT_COLORS))
          = (n mod 10)%nat) as E.
  { change (Z.of_nat (length CalculatorApp.PLOT_COLORS)) with (Z.of_nat 10).
    rewrite <- Nat2Z.inj_mod. apply Nat2Z.id. }
  rewrite E in Hn. split; [exact Hn|]. apply nth_error_In in Hn. exact Hn.
Qed.

Lemma strip_idempotent s : strip (strip s) = strip s.
Proof. destruct (strip_ends s). apply strip_fixed; assumption. Qed.

(** *** A function text that writes nothing *)

Lemma evaluate_quiet {S : Type} (grapher : S -> Grapher.Grapher)
    (eval : Frames.interpreter S) s expression x_value :
  writes_nothing eval ->
  match Frames.evaluate grapher eval s expression x_value with
  | Returned _ s' | Raised _ s' => s' = s
  | NotModelled => True
  end.
Proof.
  intros Hq. apply (evaluate_keeps grapher eval (fun s' => s' = s));
    [apply writes_nothing_keeps, Hq|reflexivity].
Qed.

(** The loop then appends to the two lists only: as many x as y values, one
    for an index at most, and finite y values. *)
Lemma sample_quiet {W : Type} (grapher : W -> Grapher.Grapher)
    (eval : Frames.interpreter (Frames.frames W)) expression x_min step :
  writes_nothing eval ->
  forall indices fr,
    match Frames.sample grapher eval fr expression x_min step indices with
    | Returned _ fr' | Raised _ fr' =>
        Frames.objects fr' = Frames.objects fr
        /\ exists xs ys,
             Frames.x_values fr' = Frames.x_values fr ++ xs
             /\ Frames.y_values fr' = Frames.y_values fr ++ ys
             /\ length xs = length ys
             /\ (length xs <= length indices)%nat
             /\ finite_values ys
    | NotModelled => True
    end.
Proof.
  intros Hq.
  assert (forall fr : Frames.frames W,
            Frames.objects fr = Frames.objects fr
            /\ exists xs ys,
                 Frames.x_values fr = Frames.x_values fr ++ xs
                 /\ Frames.y_values fr = Frames.y_values fr ++ ys
                 /\ length xs = length ys /\ (length xs <= 0)%nat
                 /\ finite_values ys) as Hnil.
  { intros fr. split; [reflexivity|]. exists nil, nil.
    rewrite !app_nil_r. repeat split; auto. constructor. }
  induction indices as [|i indices IH]; intros fr; cbn [Frames.sample].
  - apply Hnil.
  - destruct (float_of_int i) as [fi|exn|]; [| |exact I].
    2:{ destruct (Hnil fr) as (Ho & xs & ys & Hx & Hy & L & Hl & Hf).
        split; [exact Ho|]. exists xs, ys. repeat split; auto. simpl. lia. }
    pose proof (evaluate_quiet (fun fr => grapher (Frames.objects fr)) eval fr
                  expression (VFloat (x_min + fi * step)%float) Hq) as He.
    destruct (Frames.evaluate _ eval fr expression _)
      as [[y|] fr'|exn fr'|] eqn:E; [| | |exact I]; subst fr'.
    + specialize (IH (Frames.append (x_min + fi * step)%float y fr)).
      apply evaluate_finite in E.
      destruct (Frames.sample _ _ _ _ _ _ _) as [[] fr'|exn fr'|];
        [| |exact I];
        destruct IH as (Ho & xs & ys & Hx & Hy & L & Hl & Hf);
        (split; [exact Ho|]);
        exists ((x_min + fi * step)%float :: xs), (y :: ys);
        cbn [Frames.append Frames.x_values Frames.y_values] in Hx, Hy;
        rewrite <- app_assoc in Hx, Hy;
        (repeat split; [exact Hx|exact Hy|simpl; lia|simpl; lia|]);
        constructor; assumption.
    + specialize (IH fr).
      destruct (Frames.sample _ _ _ _ _ _ _) as [[] fr'|exn fr'|];
        [| |exact I];
        destruct IH as (Ho & xs & ys & Hx & Hy & L & Hl & Hf);
        (split; [exact Ho|]); exists xs, ys; repeat split; auto; simpl; lia.
    + destruct (Hnil fr) as (Ho & xs & ys & Hx & Hy & L & Hl & Hf).
      split; [exact Ho|]. exists xs, ys. repeat split; auto. simpl. lia.
Qed.

(** [generate_plot_data] then leaves what its caller holds as it was, and
    returns as many x as y values, at least one and at most [num_points],
    with finite y values. *)
Lemma generate_plot_data_quiet {W : Type} (grapher : W -> Grapher.Grapher)
    (eval : Frames.interpreter (Frames.frames W)) w func_string x_min x_max
    num_points :
  writes_nothing eval ->
  match Frames.generate_plot_data grapher eval w func_string x_min x_max
          num_points with
  | Returned (xs, ys) w' =>
      w' = w /\ xs <> nil /\ length xs = length ys
      /\ (length xs <= Z.to_nat num_points)%nat /\ finite_values ys
  | Raised _ w' => w' = w
  | NotModelled => True
  end.
Proof.
  intros Hq. unfold Frames.generate_plot_data.
  destruct (binary_op Div _ _) as [[n|step|b]|exn|]; try exact I;
    try reflexivity.
  pose proof (sample_quiet grapher eval (Grapher.parse_function func_string)
                x_min step Hq (Grapher.range num_points)
                {| Frames.x_values := nil; Frames.y_values := nil;
                   Frames.objects := w |}) as H.
  destruct (Frames.sample _ _ _ _ _ _ _) as [[] fr'|exn fr'|]; [| |exact I];
    destruct H as (Ho & xs & ys & Hx & Hy & L & Hl & Hf);
    cbn [Frames.x_values Frames.y_values Frames.objects app] in *;
    [|exact Ho].
  rewrite Hx, Hy. destruct xs as [|x xs]; [exact Ho|].
  unfold Grapher.range in Hl. rewrite length_map, length_seq in Hl.
  split; [exact Ho|]. split; [discriminate|]. auto.
Qed.

(** What [generate_plot_data] returns makes an entry. *)
Lemma generate_plot_data_entry xs ys text c :
  xs <> nil -> length xs = length ys -> (length xs <= 500)%nat ->
  finite_values ys ->
  text <> "" -> strip text = text -> In c CalculatorApp.PLOT_COLORS ->
  plotted_ok {| CalculatorApp.func_string := text; CalculatorApp.x_vals := xs;
                CalculatorApp.y_vals := ys; CalculatorApp.color := c |}.
Proof. intros. repeat split; assumption. Qed.

(** *** [_add_or_update_function], outcome by outcome *)

Lemma update_and_redraw_inv update redraw self :
  exists shown,
    CalculatorApp.update_and_redraw update redraw self
    = CalculatorApp.Shows shown self
    /\ before_the_change shown = false
    /\ (shown = CalculatorApp.Nothing <->
        update self = CalculatorApp.Drawn /\ redraw self = CalculatorApp.Drawn).
Proof.
  unfold CalculatorApp.update_and_redraw.
  destruct (update self) as [|[]]; [destruct (redraw self) as [|[]]| |];
    eexists; (split; [reflexivity|]); (split; [reflexivity|]);
    split; try discriminate; try (intros [? ?]; discriminate); auto.
Qed.

Lemma add_or_update_inv fot x_min_var x_max_var update redraw
    (eval : Frames.interpreter (Frames.frames CalculatorApp.CalculatorApp))
    self :
  writes_nothing eval ->
  match CalculatorApp._add_or_update_function fot x_min_var x_max_var update
          redraw eval self with
  | CalculatorApp.Shows shown self' =>
      if before_the_change shown then self' = self
      else
        (shown = CalculatorApp.ErrorOccurred None /\ self' = self
         /\ match CalculatorApp.editing_index self with
            | Some index =>
                CalculatorApp.position (CalculatorApp.plotted_functions self)
                  index = None
            | None => False
            end)
        \/ (plotted_by self fot x_min_var x_max_var self'
            /\ (shown = CalculatorApp.Nothing <->
                update self' = CalculatorApp.Drawn
                /\ redraw self' = CalculatorApp.Drawn))
  | CalculatorApp.Escapes _ _ => False
  | CalculatorApp.Unknown => True
  end.
Proof.
  intros Hq. unfold CalculatorApp._add_or_update_function.
  set (text := strip (CalculatorApp.function_var self)).
  set (fs := CalculatorApp.plotted_functions self).
  assert (forall exn,
            match CalculatorApp.handle self exn with
            | CalculatorApp.Shows shown self' =>
                before_the_change shown = true /\ self' = self
            | _ => False
            end) as Hh.
  { intros exn. destruct exn; split; reflexivity. }
  assert (forall exn,
            match CalculatorApp.handle self exn with
            | CalculatorApp.Shows shown self' =>
                if before_the_change shown then self' = self
                else
                  (shown = CalculatorApp.ErrorOccurred None /\ self' = self
                   /\ match CalculatorApp.editing_index self with
                      | Some index => CalculatorApp.position fs index = None
                      | None => False
                      end)
                  \/ (plotted_by self fot x_min_var x_max_var self'
                      /\ (shown = CalculatorApp.Nothing <->
                          update self' = CalculatorApp.Drawn
                          /\ redraw self' = CalculatorApp.Drawn))
            | CalculatorApp.Escapes _ _ => False
            | CalculatorApp.Unknown => True
            end) as Hh'.
  { intros exn. specialize (Hh exn).
    destruct (CalculatorApp.handle self exn) as [shown self'| |];
      try contradiction. destruct Hh as [-> ->]. reflexivity. }
  destruct (String.eqb text "") eqn:Et; [reflexivity|].
  apply String.eqb_neq in Et.
  destruct (fot x_min_var) as [x_min|exn|] eqn:Emin; [|apply Hh'|exact I].
  destruct (fot x_max_var) as [x_max|exn|] eqn:Emax; [|apply Hh'|exact I].
  destruct (x_max <=? x_min)%float eqn:Er; [reflexivity|].
  destruct (CalculatorApp.editing_index self) as [index|] eqn:Ei.
  - unfold CalculatorApp.getitem, CalculatorApp.setitem.
    destruct (CalculatorApp.position fs index) as [i|] eqn:Ep.
    2:{ cbn [before_the_change]. left. auto. }
    destruct (nth_error fs i) as [old|] eqn:En.
    2:{ apply position_spec in Ep as [Ep _]. apply nth_error_None in En. lia. }
    pose proof (generate_plot_data_quiet CalculatorApp.grapher eval self text
                  x_min x_max 500 Hq) as Hg.
    destruct (Frames.generate_plot_data _ eval self text x_min x_max 500)
      as [[xs ys] self1|exn self1|]; [| |exact I].
    2:{ subst self1. apply Hh'. }
    destruct Hg as (-> & Hne & L & Hl & Hf). rewrite Ei. fold fs. rewrite Ep.
    destruct (update_and_redraw_inv update redraw
                (CalculatorApp._cancel_edit
                   (CalculatorApp.set_plotted_functions
                      (CalculatorApp.replace_nth i
                         {| CalculatorApp.func_string := text;
                            CalculatorApp.x_vals := xs;
                            CalculatorApp.y_vals := ys;
                            CalculatorApp.color := CalculatorApp.color old |}
                         fs) self))) as (shown & -> & -> & Hs).
    right. split; [|exact Hs]. split; [exact Et|].
    exists x_min, x_max, xs, ys. repeat split; auto.
    eexists. split; [reflexivity|]. rewrite Ei. eauto.
  - destruct (existsb _ fs) eqn:Ed; [reflexivity|].
    pose proof (generate_plot_data_quiet CalculatorApp.grapher eval self text
                  x_min x_max 500 Hq) as Hg.
    destruct (Frames.generate_plot_data _ eval self text x_min x_max 500)
      as [[xs ys] self1|exn self1|]; [| |exact I].
    2:{ subst self1. apply Hh'. }
    destruct Hg as (-> & Hne & L & Hl & Hf).
    destruct (next_color self) as (c & -> & Hn & _).
    assert (CalculatorApp.set_function_var ""
              (CalculatorApp.set_plotted_functions
                 (CalculatorApp.plotted_functions self
                  ++ {| CalculatorApp.func_string := text;
                        CalculatorApp.x_vals := xs;
                        CalculatorApp.y_vals := ys;
                        CalculatorApp.color := c |} :: nil) self)
            = after_plotting self
                (fs ++ {| CalculatorApp.func_string := text;
                          CalculatorApp.x_vals := xs;
                          CalculatorApp.y_vals := ys;
                          CalculatorApp.color := c |} :: nil)) as ->.
    { unfold after_plotting, CalculatorApp._cancel_edit,
        CalculatorApp.set_function_var, CalculatorApp.set_editing_index,
        CalculatorApp.set_plotted_functions. cbn. rewrite Ei. reflexivity. }
    destruct (update_and_redraw_inv update redraw
                (after_plotting self
                   (fs ++ {| CalculatorApp.func_string := text;
                             CalculatorApp.x_vals := xs;
                             CalculatorApp.y_vals := ys;
                             CalculatorApp.color := c |} :: nil)))
      as (shown & -> & -> & Hs).
    right. split; [|exact Hs]. split; [exact Et|].
    exists x_min, x_max, xs, ys. repeat split; auto.
    eexists. split; [reflexivity|]. rewrite Ei. split; [exact Ed|].
    exists c. split; [exact Hn|reflexivity].
Qed.
(** *** [_replot_all], outcome by outcome *)

Lemma set_plotted_functions_same self :
  CalculatorApp.set_plotted_functions (CalculatorApp.plotted_functions self) self
  = self.
Proof. destruct self. reflexivity. Qed.

(** The loop of [_replot_all], for function texts that write nothing: it
    plots every entry again under its text and its colour, in the order of
    the list. *)
Lemma replot_inv x_min x_max
    (eval : Frames.interpreter (Frames.frames CalculatorApp.replotting)) :
  writes_nothing eval ->
  forall entries st,
    match CalculatorApp.replot eval st x_min x_max entries with
    | Returned _ st' =>
        CalculatorApp.window st' = CalculatorApp.window st
        /\ exists added,
             CalculatorApp.new_plotted st'
             = CalculatorApp.new_plotted st ++ added
             /\ map CalculatorApp.func_string added
                = map CalculatorApp.func_string entries
             /\ map CalculatorApp.color added
                = map CalculatorApp.color entries
             /\ (Forall plotted_ok entries -> Forall plotted_ok added)
    | Raised _ st' => CalculatorApp.window st' = CalculatorApp.window st
    | NotModelled => True
    end.
Proof.
  intros Hq. induction entries as [|old entries IH]; intros st.
  - cbn [CalculatorApp.replot]. split; [reflexivity|]. exists nil.
    rewrite app_nil_r. auto.
  - cbn [CalculatorApp.replot].
    pose proof (generate_plot_data_quiet
                  (fun st => CalculatorApp.grapher (CalculatorApp.window st))
                  eval st (CalculatorApp.func_string old) x_min x_max 500 Hq)
      as Hg.
    destruct (Frames.generate_plot_data _ eval st _ x_min x_max 500)
      as [[xs ys] st1|exn st1|]; [| |exact I].
    2:{ subst st1. reflexivity. }
    destruct Hg as (-> & Hne & L & Hl & Hf).
    set (entry := {| CalculatorApp.func_string := CalculatorApp.func_string old;
                     CalculatorApp.x_vals := xs; CalculatorApp.y_vals := ys;
                     CalculatorApp.color := CalculatorApp.color old |}).
    specialize (IH {| CalculatorApp.new_plotted :=
                        CalculatorApp.new_plotted st ++ entry :: nil;
                      CalculatorApp.window := CalculatorApp.window st |}).
    destruct (CalculatorApp.replot eval _ x_min x_max entries)
      as [[] st'|exn st'|]; [| |exact I]; cbn [CalculatorApp.window] in IH.
    2:{ exact IH. }
    destruct IH as (Hw & added & Hn & Hfs & Hc & Hok).
    cbn [CalculatorApp.new_plotted] in Hn. rewrite <- app_assoc in Hn.
    split; [exact Hw|]. exists (entry :: added).
    split; [exact Hn|]. cbn [map]. rewrite Hfs, Hc.
    split; [reflexivity|]. split; [reflexivity|].
    intros Ho. inversion Ho as [|? ? Hold Ho']; subst.
    constructor; [|exact (Hok Ho')].
    destruct Hold as (H1 & H2 & _ & _ & _ & _ & H6).
    apply generate_plot_data_entry; assumption.
Qed.

(** [_replot_all], for function texts that write nothing. *)
Lemma replot_all_inv fot x_min_var x_max_var redraw
    (eval : Frames.interpreter (Frames.frames CalculatorApp.replotting)) self :
  writes_nothing eval ->
  match CalculatorApp._replot_all fot x_min_var x_max_var redraw eval self with
  | CalculatorApp.Shows shown self' =>
      if before_the_change shown then self' = self
      else
        replotted self self'
        /\ (shown = CalculatorApp.Nothing <->
            CalculatorApp.plotted_functions self = nil
            \/ redraw self' = CalculatorApp.Drawn)
  | CalculatorApp.Escapes (Some exn) self' =>
      self' = self /\ forall msg, exn <> ValueError msg
  | CalculatorApp.Escapes None self' =>
      replotted self self'
      /\ redraw self' = CalculatorApp.DrawingRaises false
  | CalculatorApp.Unknown => True
  end.
Proof.
  intros Hq. unfold CalculatorApp._replot_all.
  destruct (CalculatorApp.plotted_functions self) as [|p fs] eqn:Ef.
  { cbn [before_the_change]. split; [|split; auto].
    exists nil. rewrite <- Ef, set_plotted_functions_same.
    rewrite Ef. auto. }
  rewrite <- Ef.
  destruct (fot x_min_var) as [x_min|[]|]; try exact I;
    try (split; [reflexivity|discriminate]); try reflexivity.
  destruct (fot x_max_var) as [x_max|[]|]; try exact I;
    try (split; [reflexivity|discriminate]); try reflexivity.
  destruct (x_max <=? x_min)%float; [reflexivity|].
  pose proof (replot_inv x_min x_max eval Hq
                (CalculatorApp.plotted_functions self)
                {| CalculatorApp.new_plotted := nil;
                   CalculatorApp.window := self |}) as H.
  destruct (CalculatorApp.replot eval _ x_min x_max _) as [[] st|exn st|];
    [| |exact I]; cbn [CalculatorApp.window CalculatorApp.new_plotted app] in H.
  - destruct H as (Hw & added & Hn & Hfs & Hc & Hok). rewrite Hw, Hn.
    assert (replotted self (CalculatorApp.set_plotted_functions added self))
      as Hr by (exists added; auto).
    destruct (redraw (CalculatorApp.set_plotted_functions added self))
      as [|[]] eqn:Ed; cbn [before_the_change].
    + split; [exact Hr|]. split; auto.
    + split; [exact Hr|]. split; [discriminate|].
      intros [H|H]; [rewrite Ef in H; discriminate H|].
      rewrite Ed in H. discriminate H.
    + split; [exact Hr|exact Ed].
  - rewrite H. destruct exn; try (split; [reflexivity|discriminate]).
    reflexivity.
Qed.

(** *** What every window keeps *)

Lemma consistent_cancel_edit self fs :
  Forall plotted_ok fs -> CalculatorApp.grapher self = Grapher.__init__ ->
  consistent (CalculatorApp._cancel_edit
                (CalculatorApp.set_plotted_functions fs self)).
Proof. intros Hf Hg. repeat split; simpl; auto. Qed.

Lemma consistent_replotted self self' :
  replotted self self' -> consistent self -> consistent self'.
Proof.
  intros (new_plotted & -> & Hn & _ & Hok) (Hf & Hi & Hg).
  repeat split; simpl; auto.
  unfold editing_in_range in *. simpl.
  destruct (CalculatorApp.editing_index self); [|exact I].
  rewrite <- (length_map CalculatorApp.func_string), Hn, length_map.
  exact Hi.
Qed.
Lemma window_with_a_line_reachable :
  reachable float_of_default drawn drawn (Frames.pure Py.eval)
    (Frames.pure Py.eval) window_with_a_line.
Proof.
  apply (reach_add_or_update float_of_default drawn drawn (Frames.pure Py.eval)
           (Frames.pure Py.eval)
           (CalculatorApp.set_function_var "2x+1" CalculatorApp.__init__)
           "-10" "10" CalculatorApp.Nothing window_with_a_line).
  - apply reach_type_function, reach_init.
  - vm_compute. reflexivity.
Defined.

Lemma reachable_consistent float_of_text update redraw
    (eval : Frames.interpreter (Frames.frames CalculatorApp.CalculatorApp))
    (eval_replotting :
       Frames.interpreter (Frames.frames CalculatorApp.replotting)) self :
  writes_nothing eval -> writes_nothing eval_replotting ->
  reachable float_of_text update redraw eval eval_replotting self ->
  consistent self.
Proof.
  intros Hq Hq'.
  induction 1 as [ | self text _ IH | self text _ IH | self text _ IH
                   | self _ IH | self _ IH | self _ IH
                   | self selection _ IH | self _ IH
                   | self x_min_var x_max_var shown self' _ IH Hadd
                   | self selection _ IH
                   | self x_min_var x_max_var shown self' _ IH Hre
                   | self x_min_var x_max_var exn self' _ IH Hre
                   | self _ IH ].
  - repeat split; simpl; auto.
  - exact IH.
  - exact IH.
  - exact IH.
  - exact IH.
  - exact IH.
  - unfold CalculatorApp._toggle_sign.
    destruct (String.eqb (CalculatorApp.display_var self) ""); exact IH.
  - unfold CalculatorApp._on_function_select.
    destruct selection as [|index _]; [exact IH|].
    destruct (_ && _) eqn:E; [|exact IH].
    destruct (CalculatorApp.getitem _ index); [|exact IH].
    apply andb_prop in E as [E1 E2]. apply Z.leb_le in E1.
    apply Z.ltb_lt in E2. destruct IH as (Hf & _ & Hg).
    repeat split; simpl; auto.
  - destruct IH as (Hf & _ & Hg). repeat split; simpl; auto.
  - pose proof (add_or_update_inv float_of_text x_min_var x_max_var update
                  redraw eval self Hq) as H.
    rewrite Hadd in H.
    destruct (before_the_change shown); [subst self'; exact IH|].
    destruct H as [(_ & -> & _)|[H _]]; [exact IH|].
    destruct IH as (Hf & Hi & Hg).
    destruct H as (Hne & x_min & x_max & xs & ys & _ & _ & _ & Hnil & L & Hl
                   & Hfin & fs' & -> & Hfs).
    apply consistent_cancel_edit; [|exact Hg].
    destruct (CalculatorApp.editing_index self) as [index|].
    + destruct Hfs as (i & old & _ & Hold & ->).
      apply replace_nth_Forall; [|exact Hf].
      apply nth_error_In in Hold.
      pose proof (proj1 (List.Forall_forall _ _) Hf old Hold)
        as (_ & _ & _ & _ & _ & _ & Hc).
      apply generate_plot_data_entry; auto using strip_idempotent.
    + destruct Hfs as (_ & c & Hc & ->). apply Forall_app. split; [exact Hf|].
      constructor; [|constructor]. apply nth_error_In in Hc.
      apply generate_plot_data_entry; auto using strip_idempotent.
  - unfold CalculatorApp._remove_selected_function.
    destruct selection as [|index _]; [exact IH|].
    destruct (_ && _); [|exact IH]. simpl.
    destruct IH as (Hf & _ & Hg).
    apply consistent_cancel_edit; [|exact Hg]. apply remove_nth_Forall, Hf.
  - pose proof (replot_all_inv float_of_text x_min_var x_max_var redraw
                  eval_replotting self Hq') as H.
    rewrite Hre in H.
    destruct (before_the_change shown); [subst self'; exact IH|].
    destruct H as [H _]. exact (consistent_replotted _ _ H IH).
  - pose proof (replot_all_inv float_of_text x_min_var x_max_var redraw
                  eval_replotting self Hq') as H.
    rewrite Hre in H. destruct exn as [exn|].
    + destruct H as [-> _]. exact IH.
    + destruct H as [H _]. exact (consistent_replotted _ _ H IH).
  - destruct IH as (_ & _ & Hg). repeat split; simpl; auto.
Qed.



(** X14: In edit mode [_add_or_update_function] reads and writes
    [plotted_functions[editing_index]].  In every window the callbacks lead
    to, as long as the function texts write nothing, both accesses are in
    range: [editing_index] is [None] or the index of an entry, which can be
    read and replaced. *)
Theorem editing_index_is_never_out_of_range float_of_text update redraw
    (eval : Frames.interpreter (Frames.frames CalculatorApp.CalculatorApp))
    (eval_replotting :
       Frames.interpreter (Frames.frames CalculatorApp.replotting)) self
    entry :
  writes_nothing eval -> writes_nothing eval_replotting ->
  reachable float_of_text update redraw eval eval_replotting self ->
  match CalculatorApp.editing_index self with
  | Some index =>
      (exists old,
         CalculatorApp.getitem (CalculatorApp.plotted_functions self) index
         = Some old)
      /\ CalculatorApp.setitem (CalculatorApp.plotted_functions self) index
           entry
         = Some (CalculatorApp.replace_nth (Z.to_nat index) entry
                   (CalculatorApp.plotted_functions self))
  | None => True
  end.
Proof.
  intros Hq Hq' Hr.
  destruct (reachable_consistent _ _ _ _ _ _ Hq Hq' Hr) as (_ & Hi & _).
  unfold editing_in_range in Hi.
  destruct (CalculatorApp.editing_index self) as [index|]; [|exact I].
  destruct (getitem_in_range _ _ Hi) as (old & Hg & _).
  split; [eauto|]. unfold CalculatorApp.setitem.
  rewrite position_in_range by exact Hi. reflexivity.
Qed.

Lemma editing_index_is_never_out_of_range_witness :
  (exists old,
     CalculatorApp.getitem (CalculatorApp.plotted_functions window_in_edit_mode)
       0
     = Some old)
  /\ CalculatorApp.setitem (CalculatorApp.plotted_functions window_in_edit_mode)
       0 {| CalculatorApp.func_string := "x"; CalculatorApp.x_vals := nil;
            CalculatorApp.y_vals := nil; CalculatorApp.color := "#2196F3" |}
     = Some (CalculatorApp.replace_nth (Z.to_nat 0)
               {| CalculatorApp.func_string := "x"; CalculatorApp.x_vals := nil;
                  CalculatorApp.y_vals := nil;
                  CalculatorApp.color := "#2196F3" |}
               (CalculatorApp.plotted_functions window_in_edit_mode)).
Proof.
  exact (editing_index_is_never_out_of_range float_of_default drawn drawn
           (Frames.pure Py.eval) (Frames.pure Py.eval) window_in_edit_mode
           {| CalculatorApp.func_string := "x"; CalculatorApp.x_vals := nil;
              CalculatorApp.y_vals := nil; CalculatorApp.color := "#2196F3" |}
           (pure_writes_nothing Py.eval) (pure_writes_nothing Py.eval)
           (reach_select _ _ _ _ _ _ (0%Z :: nil) window_with_a_line_reachable)).
Defined.

(** X15: [_get_next_color] never fails: it gives the colour of the palette at
    the number of plotted functions modulo ten, whatever that number is; so
    ten functions more give the same colour again. *)
Theorem get_next_color_is_total self :
  (exists c,
     CalculatorApp._get_next_color self = Some c
     /\ nth_error CalculatorApp.PLOT_COLORS
          (length (CalculatorApp.plotted_functions self) mod 10) = Some c
     /\ In c CalculatorApp.PLOT_COLORS)
  /\ forall self',
       length (CalculatorApp.plotted_functions self')
       = (length (CalculatorApp.plotted_functions self) + 10)%nat ->
       CalculatorApp._get_next_color self' = CalculatorApp._get_next_color self.
Proof.
  split; [apply next_color|]. intros self' L.
  destruct (next_color self) as (c & -> & Hc & _).
  destruct (next_color self') as (c' & -> & Hc' & _).
  rewrite L in Hc'.
  replace ((length (CalculatorApp.plotted_functions self) + 10) mod 10)%nat
    with (length (CalculatorApp.plotted_functions self) mod 10)%nat in Hc'.
  - congruence.
  - symmetry. apply (Nat.Div0.mod_add _ 1 10).
Qed.





(** ** The window: the display *)

Lemma without_last_snoc s c : without_last (s +:+ String c "") = s.
Proof.
  induction s as [|a s IH]; [reflexivity|].
  change (String a s +:+ String c "") with (String a (s +:+ String c "")).
  cbn [without_last]. rewrite IH. destruct s; reflexivity.
Qed.

Lemma endswith_char_snoc s c : endswith_char (s +:+ String c "") c = true.
Proof.
  induction s as [|a s IH]; [apply Ascii.eqb_refl|].
  change (String a s +:+ String c "") with (String a (s +:+ String c "")).
  cbn [endswith_char]. rewrite IH. destruct s; reflexivity.
Qed.



Lemma append_snoc d c t : d +:+ String c t = (d +:+ String c "") +:+ t.
Proof.
  induction d as [|a d IH]; [reflexivity|].
  change (String a d +:+ String c t) with (String a (d +:+ String c t)).
  rewrite IH. reflexivity.
Qed.

Lemma backspaces_display n : forall self,
  CalculatorApp.display_var (Nat.iter n CalculatorApp._backspace self)
  = Nat.iter n without_last (CalculatorApp.display_var self)
  /\ CalculatorApp.expression (Nat.iter n CalculatorApp._backspace self)
     = CalculatorApp.expression self.
Proof.
  induction n as [|n IH]; intros self; [split; reflexivity|].
  rewrite !Nat.iter_succ. destruct (IH self) as [IHd IHe].
  set (s := Nat.iter n CalculatorApp._backspace self) in *.
  unfold CalculatorApp._backspace.
  cbn [CalculatorApp.display_var CalculatorApp.expression CalculatorApp.set_panel].
  rewrite IHd, IHe. split; [|reflexivity].
  destruct (Nat.iter n without_last (CalculatorApp.display_var self)); reflexivity.
Qed.

Lemma without_last_all t : forall d,
  Nat.iter (String.length t) without_last (d +:+ t) = d.
Proof.
  induction t as [|c t IH]; intros d.
  - simpl. apply append_empty.
  - cbn [String.length]. rewrite Nat.iter_succ, append_snoc, IH.
    apply without_last_snoc.
Qed.

(** X19: The backspace key undoes what was appended to the display, one
    character at a time: after as many presses as the appended text has
    characters the display shows what it showed before.  The field
    [expression] is not taken back: it still holds the text with the
    appended characters. *)
Theorem backspace_undoes_append self text :
  let self' :=
    Nat.iter (String.length text) CalculatorApp._backspace
      (CalculatorApp._append_to_expression self text) in
  CalculatorApp.display_var self' = CalculatorApp.display_var self
  /\ CalculatorApp.expression self' = CalculatorApp.display_var self +:+ text.
Proof.
  intros self'. subst self'.
  destruct (backspaces_display (String.length text)
              (CalculatorApp._append_to_expression self text)) as [-> ->].
  split; [|reflexivity]. apply without_last_all.
Qed.

(** ** Select, then update *)

Lemma map_replace_nth {A B : Type} (f : A -> B) i a old items :
  nth_error items i = Some old -> f a = f old ->
  map f (CalculatorApp.replace_nth i a items) = map f items.
Proof.
  revert i. induction items as [|b items IH]; intros [|i]; simpl;
    try discriminate.
  - intros [= ->] ->. reflexivity.
  - intros H E. rewrite (IH i H E). reflexivity.
Qed.

(** X20: Selecting a function of the list and pressing the button without
    changing the text plots that function again in its place, for a
    function text that writes nothing: once the button has got as far as
    the list (it shows no message, or reports an error of the drawing
    methods), the list has the same texts and the same colours as before,
    and edit mode is left with an empty entry.  The texts of the list have
    no white space around them, as in every window the callbacks lead
    to. *)
Theorem select_then_update_keeps_the_list float_of_text x_min_var x_max_var
    update redraw
    (eval : Frames.interpreter (Frames.frames CalculatorApp.CalculatorApp))
    self index others shown self' :
  writes_nothing eval ->
  Forall (fun p => strip (CalculatorApp.func_string p)
                   = CalculatorApp.func_string p)
    (CalculatorApp.plotted_functions self) ->
  (0 <= index < Z.of_nat (length (CalculatorApp.plotted_functions self)))%Z ->
  CalculatorApp._add_or_update_function float_of_text x_min_var x_max_var
    update redraw eval
    (CalculatorApp._on_function_select self (index :: others))
  = CalculatorApp.Shows shown self' ->
  before_the_change shown = false ->
  map CalculatorApp.func_string (CalculatorApp.plotted_functions self')
  = map CalculatorApp.func_string (CalculatorApp.plotted_functions self)
  /\ map CalculatorApp.color (CalculatorApp.plotted_functions self')
     = map CalculatorApp.color (CalculatorApp.plotted_functions self)
  /\ CalculatorApp.editing_index self' = None
  /\ CalculatorApp.function_var self' = "".
Proof.
  intros Hq Hf Hi Hadd Hb.
  destruct (getitem_in_range _ _ Hi) as (old & Hg & Hn).
  unfold CalculatorApp._on_function_select in Hadd.
  pose proof Hi as [Hi1 Hi2].
  rewrite (proj2 (Z.leb_le _ _) Hi1), (proj2 (Z.ltb_lt _ _) Hi2), Hg in Hadd.
  cbn [andb] in Hadd.
  pose proof (add_or_update_inv float_of_text x_min_var x_max_var update
                redraw eval
                (CalculatorApp.set_editing_index (Some index)
                   (CalculatorApp.set_function_var
                      (CalculatorApp.func_string old) self)) Hq) as H.
  rewrite Hadd, Hb in H.
  cbn [CalculatorApp.editing_index CalculatorApp.set_editing_index
       CalculatorApp.plotted_functions CalculatorApp.set_function_var] in H.
  destruct H as [(_ & _ & Hp)|[H _]].
  { rewrite position_in_range in Hp by exact Hi. discriminate Hp. }
  destruct H as (_ & x_min & x_max & xs & ys & _ & _ & _ & _ & _ & _ & _ & fs'
                 & -> & H).
  cbn [CalculatorApp.editing_index CalculatorApp.set_editing_index
       CalculatorApp.plotted_functions CalculatorApp.set_function_var
       CalculatorApp.function_var] in H.
  destruct H as (i & old' & Hp & Hn' & ->).
  apply position_spec in Hp as [_ Hp]. specialize (Hp Hi1). subst i.
  rewrite Hn in Hn'. injection Hn' as <-.
  pose proof (proj1 (List.Forall_forall _ _) Hf old (nth_error_In _ _ Hn))
    as Hs. cbv beta in Hs.
  unfold after_plotting.
  cbn [CalculatorApp._cancel_edit CalculatorApp.plotted_functions
       CalculatorApp.set_function_var CalculatorApp.set_editing_index
       CalculatorApp.set_plotted_functions CalculatorApp.editing_index
       CalculatorApp.function_var].
  repeat split.
  - apply (map_replace_nth _ _ _ old); [exact Hn|exact Hs].
  - apply (map_replace_nth _ _ _ old); [exact Hn|reflexivity].
Qed.

Lemma select_then_update_keeps_the_list_witness :
  map CalculatorApp.func_string (CalculatorApp.plotted_functions window_after_update)
  = map CalculatorApp.func_string (CalculatorApp.plotted_functions window_with_a_line)
  /\ map CalculatorApp.color (CalculatorApp.plotted_functions window_after_update)
     = map CalculatorApp.color (CalculatorApp.plotted_functions window_with_a_line)
  /\ CalculatorApp.editing_index window_after_update = None
  /\ CalculatorApp.function_var window_after_update = "".
Proof.
  apply (select_then_update_keeps_the_list float_of_default "-10" "10" drawn
           drawn (Frames.pure Py.eval) window_with_a_line 0 nil
           CalculatorApp.Nothing).
  - apply pure_writes_nothing.
  - vm_compute. repeat constructor.
  - vm_compute. split; [intros H; discriminate H | reflexivity].
  - vm_compute. reflexivity.
  - reflexivity.
Defined.
